(** * Stock-Indicator-App: indicators, signal engine and stock directory

    A shallow embedding of [indicators.py], [signal_engine.py] and
    [stock_search.py], and the properties their specification states.

    Numbers.  The Python code computes on NumPy doubles.  They are
    modelled as exact rationals extended with the three special values
    the code depends on: NaN (the "no value" of a pandas Series) and the
    two infinities (what a division by zero yields on a Series).
    Rounding, overflow and the sign of zero are not modelled. *)

From Stdlib Require Import ZArith QArith Qabs Qround Lqa Lia.
From Stdlib Require Import List Sorted Permutation Bool String Ascii DecimalString.
Import ListNotations.

Set Implicit Arguments.

(* ================================================================== *)
(** ** Extended rationals *)
(* ================================================================== *)

Module Num.

Inductive num : Type :=
| NaN
| PInf
| NInf
| Fin (q : Q).

Definition isnan (x : num) : bool :=
  match x with NaN => true | _ => false end.

(** The infinity with the sign of a comparison against zero; a zero
    operand has no sign to give, the result is NaN. *)
Definition inf_of_sign (c : comparison) : num :=
  match c with Gt => PInf | Lt => NInf | Eq => NaN end.

Definition neg (x : num) : num :=
  match x with
  | NaN => NaN
  | PInf => NInf
  | NInf => PInf
  | Fin q => Fin (- q)
  end.

Definition add (x y : num) : num :=
  match x, y with
  | NaN, _ | _, NaN => NaN
  | PInf, NInf | NInf, PInf => NaN
  | PInf, _ | _, PInf => PInf
  | NInf, _ | _, NInf => NInf
  | Fin a, Fin b => Fin (a + b)
  end.

Definition sub (x y : num) : num := add x (neg y).

Definition mul (x y : num) : num :=
  match x, y with
  | NaN, _ | _, NaN => NaN
  | Fin a, Fin b => Fin (a * b)
  | Fin a, PInf | PInf, Fin a => inf_of_sign (a ?= 0)
  | Fin a, NInf | NInf, Fin a => inf_of_sign (0 ?= a)
  | PInf, PInf | NInf, NInf => PInf
  | PInf, NInf | NInf, PInf => NInf
  end.

(** Division of Series values: a non-zero value over zero is an
    infinity, zero over zero is NaN; nothing is raised. *)
Definition div (x y : num) : num :=
  match x, y with
  | NaN, _ | _, NaN => NaN
  | Fin a, Fin b =>
      if Qeq_bool b 0 then inf_of_sign (a ?= 0) else Fin (a / b)
  | Fin _, (PInf | NInf) => Fin 0
  | (PInf | NInf), (PInf | NInf) => NaN
  | PInf, Fin b => match b ?= 0 with Lt => NInf | _ => PInf end
  | NInf, Fin b => match b ?= 0 with Lt => PInf | _ => NInf end
  end.

(** Comparisons: every comparison with NaN is false. *)
Definition ltb (x y : num) : bool :=
  match x, y with
  | NaN, _ | _, NaN => false
  | _, NInf => false
  | NInf, _ => true
  | PInf, _ => false
  | Fin _, PInf => true
  | Fin a, Fin b => match a ?= b with Lt => true | _ => false end
  end.

Definition leb (x y : num) : bool :=
  match x, y with
  | NaN, _ | _, NaN => false
  | NInf, _ => true
  | _, PInf => true
  | _, NInf => false
  | PInf, _ => false
  | Fin a, Fin b => match a ?= b with Gt => false | _ => true end
  end.

Definition gtb (x y : num) : bool := ltb y x.
Definition geb (x y : num) : bool := leb y x.

Definition eqb (x y : num) : bool :=
  match x, y with
  | PInf, PInf | NInf, NInf => true
  | Fin a, Fin b => Qeq_bool a b
  | _, _ => false
  end.

End Num.

Export Num.

Declare Scope num_scope.
Delimit Scope num_scope with num.
Infix "+" := Num.add : num_scope.
Infix "-" := Num.sub : num_scope.
Infix "*" := Num.mul : num_scope.
Infix "/" := Num.div : num_scope.
Infix "<?" := Num.ltb : num_scope.
Infix "<=?" := Num.leb : num_scope.
Infix ">?" := Num.gtb (at level 70) : num_scope.
Infix ">=?" := Num.geb (at level 70) : num_scope.

(* ================================================================== *)
(** ** Python values: exceptions, strings, slices, number formatting *)
(* ================================================================== *)

Module Py.

Inductive exn : Type := KeyError | IndexError | ValueError.

Inductive result (A : Type) : Type :=
| Ok (a : A)
| Raise (e : exn).
Arguments Ok {A} a.
Arguments Raise {A} e.

Definition bind {A B : Type} (c : result A) (k : A -> result B) : result B :=
  match c with
  | Ok a => k a
  | Raise e => Raise e
  end.

(** *** Strings (ASCII) *)

Definition upper_char (c : ascii) : ascii :=
  let n := N_of_ascii c in
  if ((97 <=? n) && (n <=? 122))%N then ascii_of_N (n - 32) else c.

Definition lower_char (c : ascii) : ascii :=
  let n := N_of_ascii c in
  if ((65 <=? n) && (n <=? 90))%N then ascii_of_N (n + 32) else c.

Fixpoint map_string (f : ascii -> ascii) (s : string) : string :=
  match s with
  | EmptyString => EmptyString
  | String c t => String (f c) (map_string f t)
  end.

Definition upper : string -> string := map_string upper_char.
Definition lower : string -> string := map_string lower_char.

(** Whitespace as [str.strip] sees it among the ASCII characters. *)
Definition is_space (c : ascii) : bool :=
  let n := N_of_ascii c in
  (((9 <=? n) && (n <=? 13)) || ((28 <=? n) && (n <=? 32)))%N.

Fixpoint lstrip (s : string) : string :=
  match s with
  | EmptyString => EmptyString
  | String c t => if is_space c then lstrip t else s
  end.

Definition rev_string (s : string) : string :=
  string_of_list_ascii (rev (list_ascii_of_string s)).

Definition rstrip (s : string) : string :=
  rev_string (lstrip (rev_string s)).

Definition strip (s : string) : string := rstrip (lstrip s).

(** [t.startswith(p)] *)
Definition startswith (t p : string) : bool := String.prefix p t.

(** [needle in hay] *)
Fixpoint contains (needle hay : string) : bool :=
  String.prefix needle hay
  || match hay with
     | EmptyString => false
     | String _ t => contains needle t
     end.

(** [needle] occurs in [hay], as a proposition. *)
Definition occurs_in (needle hay : string) : Prop :=
  exists pre post : string, hay = (pre ++ needle ++ post)%string.

(** [sep.join(parts)] *)
Definition join (sep : string) (parts : list string) : string :=
  String.concat sep parts.

(** *** Slices *)

(** [l[:n]]: a negative bound counts from the end. *)
Definition slice_to {A : Type} (l : list A) (n : Z) : list A :=
  if (n <? 0)%Z
  then firstn (Z.to_nat (Z.of_nat (List.length l) + n)) l
  else firstn (Z.to_nat n) l.

(** *** Fixed-point formatting, [f"{x:.df}"] *)

Definition string_of_N (n : N) : string :=
  NilZero.string_of_uint (N.to_uint n).

Fixpoint zeros (k : nat) : string :=
  match k with
  | O => EmptyString
  | S k' => String "0" (zeros k')
  end.

Definition pad_left (width : nat) (s : string) : string :=
  (zeros (width - String.length s) ++ s)%string.

(** The integer nearest to a non-negative rational, ties to even. *)
Definition round_half_even (q : Q) : Z :=
  let n := Qnum q in
  let d := Z.pos (Qden q) in
  let fl := (n / d)%Z in
  let r := (n mod d)%Z in
  match (2 * r ?= d)%Z with
  | Lt => fl
  | Gt => (fl + 1)%Z
  | Eq => if Z.even fl then fl else (fl + 1)%Z
  end.

Definition format_fixed (digits : nat) (x : num) : string :=
  match x with
  | NaN => "nan"%string
  | PInf => "inf"%string
  | NInf => "-inf"%string
  | Fin q =>
      let scale := (10 ^ Z.of_nat digits)%Z in
      let r := round_half_even (Qabs q * inject_Z scale)%Q in
      let sign := match (q ?= 0)%Q with Lt => "-"%string | _ => EmptyString end in
      let whole := string_of_N (Z.to_N (r / scale)) in
      let frac := pad_left digits (string_of_N (Z.to_N (r mod scale))) in
      match digits with
      | O => (sign ++ whole)%string
      | _ => (sign ++ whole ++ "." ++ frac)%string
      end
  end.

End Py.

Export Py.

Notation "x <- c ;; k" := (Py.bind c (fun x => k))
  (at level 61, c at next level, right associativity).

(* ================================================================== *)
(** ** pandas: Series and DataFrame operations the code calls *)
(* ================================================================== *)

Module Pandas.

Definition Series : Type := list num.

(** [s.empty] *)
Definition empty (s : Series) : bool :=
  match s with [] => true | _ :: _ => false end.

(** [s.iloc[i]]: a negative position counts from the end; a position
    outside the Series raises IndexError. *)
Definition iloc (s : Series) (i : Z) : result num :=
  let n := Z.of_nat (List.length s) in
  let j := if (i <? 0)%Z then (n + i)%Z else i in
  if ((0 <=? j) && (j <? n))%Z
  then match nth_error s (Z.to_nat j) with
       | Some x => Ok x
       | None => Raise IndexError
       end
  else Raise IndexError.

(** [s.diff()] *)
Fixpoint diff_from (prev : num) (s : Series) : Series :=
  match s with
  | [] => []
  | x :: t => (x - prev)%num :: diff_from x t
  end.

Definition diff (s : Series) : Series :=
  match s with
  | [] => []
  | x :: t => NaN :: diff_from x t
  end.

(** [s.where(cond(s), other)]: keep the entries satisfying [cond]. *)
Definition where_ (cond : num -> bool) (other : num) (s : Series) : Series :=
  map (fun x => if cond x then x else other) s.

(** [-s], [a op s], [s op a] and [s op t] on aligned Series *)
Definition neg_series (s : Series) : Series := map Num.neg s.

Fixpoint map2 (f : num -> num -> num) (s t : Series) : Series :=
  match s, t with
  | x :: s', y :: t' => f x y :: map2 f s' t'
  | _, _ => []
  end.

(** [s.shift(k)] *)
Definition shift (s : Series) (k : Z) : Series :=
  let n := List.length s in
  if (k <? 0)%Z
  then let d := Nat.min (Z.to_nat (- k)) n in skipn d s ++ repeat NaN d
  else let d := Nat.min (Z.to_nat k) n in repeat NaN d ++ firstn (n - d) s.

(** *** [s.rolling(window=w).mean()]

    The window at position [i] holds the last [w] entries up to [i];
    infinities count as missing, like NaN; the mean of the observed
    entries is produced once [w] of them are there (min_periods is the
    window size), and NaN before. *)

Definition observed (win : Series) : list Q :=
  flat_map (fun x => match x with Fin q => [q] | _ => [] end) win.

Definition Qsum (l : list Q) : Q := fold_right Qplus 0%Q l.

Definition window_at (w : nat) (s : Series) (i : nat) : Series :=
  skipn (i + 1 - w) (firstn (i + 1) s).

Definition window_mean (w : nat) (win : Series) : num :=
  let obs := observed win in
  let nobs := List.length obs in
  if ((w <=? nobs) && (0 <? nobs))%nat
  then Fin (Qsum obs / inject_Z (Z.of_nat nobs))
  else NaN.

Definition rolling_mean (s : Series) (window : Z) : result Series :=
  if (window <? 0)%Z then Raise ValueError
  else
    let w := Z.to_nat window in
    Ok (map (fun i => window_mean w (window_at w s i))
            (seq 0 (List.length s))).

(** *** [s.ewm(span=w, adjust=False).mean()]

    alpha = 2 / (span + 1); the first observation seeds the average
    (min_periods is 0); a missing entry repeats the last average and
    ages its weight. *)

Record ewm_state : Type := {
  weighted : num;
  old_wt : num;
  nobs : nat
}.

Definition ewm_out (st : ewm_state) : num :=
  if (1 <=? nobs st)%nat then weighted st else NaN.

Definition ewm_step (alpha : num) (st : ewm_state) (cur : num) : ewm_state :=
  let is_observation := negb (isnan cur) in
  let nobs' := if is_observation then S (nobs st) else nobs st in
  if negb (isnan (weighted st)) then
    let aged := (old_wt st * (Fin 1 - alpha))%num in
    if is_observation then
      {| weighted :=
           if negb (Num.eqb (weighted st) cur)
           then ((aged * weighted st + alpha * cur) / (aged + alpha))%num
           else weighted st;
         old_wt := Fin 1;
         nobs := nobs' |}
    else {| weighted := weighted st; old_wt := aged; nobs := nobs' |}
  else if is_observation then
    {| weighted := cur; old_wt := old_wt st; nobs := nobs' |}
  else
    {| weighted := weighted st; old_wt := old_wt st; nobs := nobs' |}.

Fixpoint ewm_scan (alpha : num) (st : ewm_state) (s : Series) : Series :=
  match s with
  | [] => []
  | cur :: t =>
      let st' := ewm_step alpha st cur in
      ewm_out st' :: ewm_scan alpha st' t
  end.

Definition ewm_mean (s : Series) (span : Z) : result Series :=
  if (span <? 1)%Z then Raise ValueError
  else
    let alpha := Fin (2 / inject_Z (span + 1)) in
    match s with
    | [] => Ok []
    | x0 :: t =>
        let st0 := {| weighted := x0; old_wt := Fin 1;
                      nobs := if isnan x0 then 0 else 1 |} in
        Ok (ewm_out st0 :: ewm_scan alpha st0 t)
    end.

(** *** DataFrame: an index and named columns *)

Record DataFrame : Type := {
  index_len : nat;
  columns : list (string * Series)
}.

(** [len(df)] *)
Definition df_len (df : DataFrame) : nat := index_len df.

(** [df.empty]: no rows or no columns *)
Definition df_empty (df : DataFrame) : bool :=
  (index_len df =? 0)%nat
  || match columns df with [] => true | _ :: _ => false end.

Fixpoint lookup (name : string) (cols : list (string * Series)) : option Series :=
  match cols with
  | [] => None
  | (k, v) :: rest => if String.eqb k name then Some v else lookup name rest
  end.

(** [name in df.columns] *)
Definition has_column (name : string) (df : DataFrame) : bool :=
  match lookup name (columns df) with Some _ => true | None => false end.

(** [df[name]] *)
Definition column (name : string) (df : DataFrame) : result Series :=
  match lookup name (columns df) with
  | Some s => Ok s
  | None => Raise KeyError
  end.

(** Every column is as long as the index. *)
Definition well_formed (df : DataFrame) : Prop :=
  Forall (fun kv => List.length (snd kv) = index_len df) (columns df).

End Pandas.

Export Pandas.

(* ================================================================== *)
(** ** indicators.py *)
(* ================================================================== *)

Module Indicators.

Definition calculate_sma (data : Series) (window : Z) : result Series :=
  rolling_mean data window.

Definition calculate_ema (data : Series) (window : Z) : result Series :=
  ewm_mean data window.

(** The two rolling averages of [calculate_rsi]. *)
Definition rsi_gain (data : Series) (window : Z) : result Series :=
  let delta := diff data in
  rolling_mean (where_ (fun d => d >? Fin 0)%num (Fin 0) delta) window.

Definition rsi_loss (data : Series) (window : Z) : result Series :=
  let delta := diff data in
  rolling_mean (neg_series (where_ (fun d => d <? Fin 0)%num (Fin 0) delta))
               window.

Definition rsi_of (g l : num) : num :=
  let rs := (g / l)%num in
  (Fin 100 - Fin 100 / (Fin 1 + rs))%num.

Definition calculate_rsi (data : Series) (window : Z) : result Series :=
  gain <- rsi_gain data window ;;
  loss <- rsi_loss data window ;;
  Ok (map2 rsi_of gain loss).

Definition calculate_momentum (data : Series) (window : Z) : Series :=
  map (fun r => ((r - Fin 1) * Fin 100)%num)
      (map2 Num.div data (shift data window)).

(** *** The dictionaries of [calculate_all_indicators]

    A field is [None] when the key is absent or bound to [None]. *)

Record IndicatorSeries : Type := {
  s_sma_20 : option Series;
  s_sma_50 : option Series;
  s_sma_200 : option Series;
  s_ema_12 : option Series;
  s_ema_26 : option Series;
  s_rsi : option Series;
  s_volatility : option Series;
  s_momentum : option Series;
  s_volume_avg : option Series
}.

Record Latest : Type := {
  current_price : option num;
  sma_20 : option num;
  sma_50 : option num;
  sma_200 : option num;
  rsi : option num;
  volatility : option num;
  momentum : option num
}.

(** [success] holds the truth value of the entry, when there is one. *)
Record IndicatorDict : Type := {
  error : option string;
  indicators : option IndicatorSeries;
  latest : option Latest;
  success : option bool
}.

Definition no_series : IndicatorSeries :=
  {| s_sma_20 := None; s_sma_50 := None; s_sma_200 := None;
     s_ema_12 := None; s_ema_26 := None; s_rsi := None;
     s_volatility := None; s_momentum := None; s_volume_avg := None |}.

Definition no_latest : Latest :=
  {| current_price := None; sma_20 := None; sma_50 := None;
     sma_200 := None; rsi := None; volatility := None; momentum := None |}.

Definition error_dict (msg : string) : IndicatorDict :=
  {| error := Some msg; indicators := None; latest := None; success := None |}.

(** [x if not pd.isna(x) else None] *)
Definition unless_nan (x : num) : option num :=
  if isnan x then None else Some x.

Section AllIndicators.

(** [calculate_volatility] takes square roots (a rolling standard
    deviation, annualised by sqrt 252), which rationals do not have:
    it stays a parameter. *)
Variable calculate_volatility : Series -> Z -> Series.

Definition calculate_all_indicators (price_data : DataFrame)
  : result IndicatorDict :=
  if df_empty price_data || negb (has_column "Close" price_data)
  then Ok (error_dict "Invalid price data")
  else
    close <- column "Close" price_data ;;
    sma20 <- calculate_sma close 20 ;;
    sma50 <- calculate_sma close 50 ;;
    sma200 <- calculate_sma close 200 ;;
    ema12 <- calculate_ema close 12 ;;
    ema26 <- calculate_ema close 26 ;;
    rsi14 <- calculate_rsi close 14 ;;
    let vol := calculate_volatility close 20 in
    let mom := calculate_momentum close 10 in
    volume_avg <-
      (if has_column "Volume" price_data
       then v <- column "Volume" price_data ;;
            r <- rolling_mean v 20 ;;
            Ok (Some r)
       else Ok None) ;;
    price <- iloc close (-1) ;;
    l_sma20 <- iloc sma20 (-1) ;;
    l_sma50 <- iloc sma50 (-1) ;;
    l_sma200 <- iloc sma200 (-1) ;;
    l_rsi <- iloc rsi14 (-1) ;;
    l_vol <- iloc vol (-1) ;;
    l_mom <- iloc mom (-1) ;;
    Ok {| error := None;
          indicators :=
            Some {| s_sma_20 := Some sma20; s_sma_50 := Some sma50;
                    s_sma_200 := Some sma200; s_ema_12 := Some ema12;
                    s_ema_26 := Some ema26; s_rsi := Some rsi14;
                    s_volatility := Some vol; s_momentum := Some mom;
                    s_volume_avg := volume_avg |};
          latest :=
            Some {| current_price := Some price;
                    sma_20 := unless_nan l_sma20;
                    sma_50 := unless_nan l_sma50;
                    sma_200 := unless_nan l_sma200;
                    rsi := unless_nan l_rsi;
                    volatility := unless_nan l_vol;
                    momentum := unless_nan l_mom |};
          success := Some true |}.

End AllIndicators.

End Indicators.

Export Indicators.

(* ================================================================== *)
(** ** signal_engine.py *)
(* ================================================================== *)

Module SignalEngine.

Local Open Scope string_scope.

(** The two accumulators and the reason list of a signal function. *)
Record scores : Type := {
  buy_score : Z;
  sell_score : Z;
  reasons : list string
}.

Definition start : scores :=
  {| buy_score := 0; sell_score := 0; reasons := [] |}.

(** [buy_score += k; reasons.append(why)] *)
Definition buy (k : Z) (why : string) (st : scores) : scores :=
  {| buy_score := buy_score st + k;
     sell_score := sell_score st;
     reasons := reasons st ++ [why] |}.

(** [sell_score += k; reasons.append(why)] *)
Definition sell (k : Z) (why : string) (st : scores) : scores :=
  {| buy_score := buy_score st;
     sell_score := sell_score st + k;
     reasons := reasons st ++ [why] |}.

(** [reasons.append(why)] *)
Definition note (why : string) (st : scores) : scores :=
  {| buy_score := buy_score st;
     sell_score := sell_score st;
     reasons := reasons st ++ [why] |}.

(** [indicators.get('success', False)] *)
Definition succeeded (ind : IndicatorDict) : bool :=
  match success ind with Some b => b | None => false end.

(** [indicators.get('latest', {})] *)
Definition get_latest (ind : IndicatorDict) : Latest :=
  match latest ind with Some l => l | None => no_latest end.

(** [indicators.get('indicators', {})] *)
Definition get_series (ind : IndicatorDict) : IndicatorSeries :=
  match indicators ind with Some s => s | None => no_series end.

(** [latest.get('current_price', 0)] *)
Definition get_price (l : Latest) : num :=
  match current_price l with Some p => p | None => Fin 0 end.

(** [indicator_series.get(key, pd.Series())] *)
Definition series_or_empty (s : option Series) : Series :=
  match s with Some x => x | None => [] end.

Definition insufficient : string * string :=
  ("HOLD", "Insufficient data for analysis").

(** *** Short-term signal *)

Definition short_rsi_rule (l : Latest) (st : scores) : scores :=
  match rsi l with
  | Some r =>
      if (r <? Fin 30)%num then
        buy 2 ("RSI = " ++ format_fixed 1 r ++ " (oversold)") st
      else if (r >? Fin 70)%num then
        sell 2 ("RSI = " ++ format_fixed 1 r ++ " (overbought)") st
      else if (Fin 30 <=? r)%num && (r <=? Fin 40)%num then
        buy 1 ("RSI = " ++ format_fixed 1 r ++ " (approaching oversold)") st
      else if (Fin 60 <=? r)%num && (r <=? Fin 70)%num then
        sell 1 ("RSI = " ++ format_fixed 1 r ++ " (approaching overbought)") st
      else st
  | None => st
  end.

Definition short_sma20_rule (l : Latest) (series : IndicatorSeries)
    (price_data : DataFrame) (st : scores) : result scores :=
  let price := get_price l in
  match sma_20 l with
  | Some sma20 =>
      if (price >? Fin 0)%num then
        let sma_20_series := series_or_empty (s_sma_20 series) in
        if negb (empty sma_20_series)
           && (2 <=? List.length sma_20_series)%nat
        then
          prev_price <-
            (if (2 <=? df_len price_data)%nat
             then close <- column "Close" price_data ;; iloc close (-2)
             else Ok price) ;;
          prev_sma20 <-
            (if (2 <=? List.length sma_20_series)%nat
             then iloc sma_20_series (-2)
             else Ok sma20) ;;
          Ok (if (prev_price <=? prev_sma20)%num && (price >? sma20)%num then
                buy 2 "Price crossed above SMA20 (bullish breakout)" st
              else if (prev_price >=? prev_sma20)%num && (price <? sma20)%num then
                sell 2 "Price crossed below SMA20 (bearish breakdown)" st
              else if (price >? sma20 * Fin 1.02)%num then
                buy 1 "Price significantly above SMA20" st
              else if (price <? sma20 * Fin 0.98)%num then
                sell 1 "Price significantly below SMA20" st
              else st)
        else Ok st
      else Ok st
  | None => Ok st
  end.

Definition short_momentum_rule (l : Latest) (st : scores) : scores :=
  match momentum l with
  | Some m =>
      if (m >? Fin 5)%num then
        buy 1 ("Strong positive momentum (" ++ format_fixed 1 m ++ "%)") st
      else if (m <? Fin (-5))%num then
        sell 1 ("Strong negative momentum (" ++ format_fixed 1 m ++ "%)") st
      else st
  | None => st
  end.

Definition bullish_volume : string := "High volume confirms bullish move".
Definition bearish_volume : string := "High volume confirms bearish move".

Definition short_volume_rule (series : IndicatorSeries)
    (price_data : DataFrame) (st : scores) : result scores :=
  match s_volume_avg series with
  | Some volume_avg =>
      if negb (empty volume_avg) && has_column "Volume" price_data then
        volume <- column "Volume" price_data ;;
        current_volume <- iloc volume (-1) ;;
        avg_volume <- iloc volume_avg (-1) ;;
        if negb (isnan avg_volume) && (avg_volume >? Fin 0)%num then
          let volume_ratio := (current_volume / avg_volume)%num in
          if (volume_ratio >? Fin 1.5)%num then
            if (buy_score st >? sell_score st)%Z then
              Ok (note bullish_volume st)
            else if (sell_score st >? buy_score st)%Z then
              Ok (note bearish_volume st)
            else Ok st
          else Ok st
        else Ok st
      else Ok st
  | None => Ok st
  end.

Definition short_term_decision (st : scores) : string :=
  if (buy_score st >? sell_score st)%Z && (buy_score st >=? 2)%Z then "BUY"
  else if (sell_score st >? buy_score st)%Z && (sell_score st >=? 2)%Z then "SELL"
  else "HOLD".

(** [", ".join(reasons) if reasons else fallback] *)
Definition reason_of (fallback : string) (rs : list string) : string :=
  match rs with
  | [] => fallback
  | _ :: _ => join ", " rs
  end.

(** The scores once the RSI, SMA20 and momentum rules have run. *)
Definition short_term_rules (ind : IndicatorDict) (price_data : DataFrame)
  : result scores :=
  let l := get_latest ind in
  let series := get_series ind in
  st <- short_sma20_rule l series price_data (short_rsi_rule l start) ;;
  Ok (short_momentum_rule l st).

(** The scores at the decision: all four steps. *)
Definition short_term_scores (ind : IndicatorDict) (price_data : DataFrame)
  : result scores :=
  st <- short_term_rules ind price_data ;;
  short_volume_rule (get_series ind) price_data st.

Definition generate_short_term_signal (ind : IndicatorDict)
    (price_data : DataFrame) : result (string * string) :=
  if negb (succeeded ind) then Ok insufficient
  else
    st <- short_term_scores ind price_data ;;
    Ok (short_term_decision st,
        reason_of "Neutral technical indicators" (reasons st)).

(** *** Long-term signal *)

Record Recommendation : Type := {
  firm : option string;
  fromGrade : option string;
  toGrade : option string;
  action : option string;
  date : option string
}.

(** [rec.get('toGrade', '').upper() in grades] *)
Definition graded (grades : list string) (r : Recommendation) : bool :=
  let g := upper (match toGrade r with Some g => g | None => EmptyString end) in
  existsb (String.eqb g) grades.

Definition buy_grades : list string := ["BUY"; "STRONG BUY"; "OUTPERFORM"].
Definition sell_grades : list string := ["SELL"; "STRONG SELL"; "UNDERPERFORM"].

(** [sum(1 for rec in recs if ...)] *)
Definition count (p : Recommendation -> bool) (recs : list Recommendation) : Z :=
  Z.of_nat (List.length (filter p recs)).

Definition long_sma200_rule (l : Latest) (st : scores) : scores :=
  let price := get_price l in
  match sma_200 l with
  | Some sma200 =>
      if (price >? Fin 0)%num then
        if (price >? sma200)%num then
          buy 3 ("Price (" ++ format_fixed 2 price ++ ") above SMA200 ("
                 ++ format_fixed 2 sma200 ++ ") - long-term uptrend") st
        else
          sell 2 ("Price (" ++ format_fixed 2 price ++ ") below SMA200 ("
                  ++ format_fixed 2 sma200 ++ ") - long-term downtrend") st
      else st
  | None => st
  end.

Definition golden_cross : string :=
  "Golden Cross detected (SMA50 > SMA200) - strong bullish signal".
Definition death_cross : string :=
  "Death Cross detected (SMA50 < SMA200) - strong bearish signal".

Definition long_cross_rule (l : Latest) (series : IndicatorSeries)
    (st : scores) : result scores :=
  match sma_50 l, sma_200 l with
  | Some sma50, Some sma200 =>
      let sma_50_series := series_or_empty (s_sma_50 series) in
      let sma_200_series := series_or_empty (s_sma_200 series) in
      if negb (empty sma_50_series) && negb (empty sma_200_series)
         && (2 <=? List.length sma_50_series)%nat
      then
        prev_sma50 <- iloc sma_50_series (-2) ;;
        prev_sma200 <-
          (if (2 <=? List.length sma_200_series)%nat
           then iloc sma_200_series (-2)
           else Ok sma200) ;;
        Ok (if (prev_sma50 <=? prev_sma200)%num && (sma50 >? sma200)%num then
              buy 3 golden_cross st
            else if (prev_sma50 >=? prev_sma200)%num && (sma50 <? sma200)%num then
              sell 3 death_cross st
            else if (sma50 >? sma200)%num then
              buy 1 "SMA50 above SMA200 - positive trend" st
            else if (sma50 <? sma200)%num then
              sell 1 "SMA50 below SMA200 - negative trend" st
            else st)
      else Ok st
  | _, _ => Ok st
  end.

Definition long_momentum_rule (l : Latest) (st : scores) : scores :=
  match momentum l with
  | Some m =>
      if (m >? Fin 10)%num then
        buy 2 ("Strong long-term momentum (" ++ format_fixed 1 m ++ "%)") st
      else if (m <? Fin (-10))%num then
        sell 2 ("Weak long-term momentum (" ++ format_fixed 1 m ++ "%)") st
      else st
  | None => st
  end.

Definition long_analyst_rule (recommendations : list Recommendation)
    (st : scores) : scores :=
  match recommendations with
  | [] => st
  | _ :: _ =>
      let recent :=
        if (5 <=? List.length recommendations)%nat
        then skipn (List.length recommendations - 5) recommendations
        else recommendations in
      let buy_count := count (graded buy_grades) recent in
      let sell_count := count (graded sell_grades) recent in
      if (buy_count >? sell_count * 2)%Z then
        buy 1 ("Analyst sentiment: " ++ string_of_N (Z.to_N buy_count)
               ++ " buy recommendations") st
      else if (sell_count >? buy_count * 2)%Z then
        sell 1 ("Analyst sentiment: " ++ string_of_N (Z.to_N sell_count)
                ++ " sell recommendations") st
      else st
  end.

Definition long_term_decision (st : scores) : string :=
  if (buy_score st >=? 4)%Z then "BUY"
  else if (sell_score st >=? 4)%Z then "SELL"
  else if (buy_score st >? sell_score st)%Z then "HOLD (Bullish)"
  else if (sell_score st >? buy_score st)%Z then "HOLD (Bearish)"
  else "HOLD".

(** The scores at the decision.  [recommendations] is the list, empty
    when the argument is [None]. *)
Definition long_term_scores (ind : IndicatorDict)
    (recommendations : list Recommendation) : result scores :=
  let l := get_latest ind in
  let series := get_series ind in
  st <- long_cross_rule l series (long_sma200_rule l start) ;;
  Ok (long_analyst_rule recommendations (long_momentum_rule l st)).

Definition generate_long_term_signal (ind : IndicatorDict)
    (price_data : DataFrame) (recommendations : list Recommendation)
  : result (string * string) :=
  if negb (succeeded ind) then Ok insufficient
  else
    st <- long_term_scores ind recommendations ;;
    Ok (long_term_decision st,
        reason_of "Mixed long-term indicators" (reasons st)).

End SignalEngine.

Export SignalEngine.

(* ================================================================== *)
(** ** stock_search.py *)
(* ================================================================== *)

Module StockSearch.

Local Open Scope string_scope.

(** ticker: (company_name, sector), in the order of the source. *)
Definition POPULAR_STOCKS : list (string * (string * string)) :=
  [
    ("AAPL", ("Apple Inc.", "Technology"));
    ("MSFT", ("Microsoft Corporation", "Technology"));
    ("GOOGL", ("Alphabet Inc.", "Technology"));
    ("GOOG", ("Alphabet Inc.", "Technology"));
    ("AMZN", ("Amazon.com Inc.", "Consumer Cyclical"));
    ("META", ("Meta Platforms Inc.", "Technology"));
    ("NVDA", ("NVIDIA Corporation", "Technology"));
    ("TSLA", ("Tesla Inc.", "Consumer Cyclical"));
    ("NFLX", ("Netflix Inc.", "Communication Services"));
    ("AMD", ("Advanced Micro Devices", "Technology"));
    ("INTC", ("Intel Corporation", "Technology"));
    ("CRM", ("Salesforce Inc.", "Technology"));
    ("ORCL", ("Oracle Corporation", "Technology"));
    ("IBM", ("International Business Machines", "Technology"));
    ("CSCO", ("Cisco Systems Inc.", "Technology"));
    ("JPM", ("JPMorgan Chase & Co.", "Financial Services"));
    ("BAC", ("Bank of America Corp", "Financial Services"));
    ("WFC", ("Wells Fargo & Company", "Financial Services"));
    ("GS", ("Goldman Sachs Group Inc.", "Financial Services"));
    ("MS", ("Morgan Stanley", "Financial Services"));
    ("C", ("Citigroup Inc.", "Financial Services"));
    ("JNJ", ("Johnson & Johnson", "Healthcare"));
    ("UNH", ("UnitedHealth Group Inc.", "Healthcare"));
    ("PFE", ("Pfizer Inc.", "Healthcare"));
    ("ABBV", ("AbbVie Inc.", "Healthcare"));
    ("MRK", ("Merck & Co. Inc.", "Healthcare"));
    ("TMO", ("Thermo Fisher Scientific Inc.", "Healthcare"));
    ("WMT", ("Walmart Inc.", "Consumer Defensive"));
    ("PG", ("Procter & Gamble Co.", "Consumer Defensive"));
    ("KO", ("The Coca-Cola Company", "Consumer Defensive"));
    ("PEP", ("PepsiCo Inc.", "Consumer Defensive"));
    ("NKE", ("Nike Inc.", "Consumer Cyclical"));
    ("SBUX", ("Starbucks Corporation", "Consumer Cyclical"));
    ("MCD", ("McDonald's Corporation", "Consumer Cyclical"));
    ("BA", ("The Boeing Company", "Industrials"));
    ("CAT", ("Caterpillar Inc.", "Industrials"));
    ("GE", ("General Electric Company", "Industrials"));
    ("HON", ("Honeywell International Inc.", "Industrials"));
    ("XOM", ("Exxon Mobil Corporation", "Energy"));
    ("CVX", ("Chevron Corporation", "Energy"));
    ("COP", ("ConocoPhillips", "Energy"));
    ("VZ", ("Verizon Communications Inc.", "Communication Services"));
    ("T", ("AT&T Inc.", "Communication Services"));
    ("DIS", ("The Walt Disney Company", "Communication Services"));
    ("CMCSA", ("Comcast Corporation", "Communication Services"));
    ("V", ("Visa Inc.", "Financial Services"));
    ("MA", ("Mastercard Incorporated", "Financial Services"));
    ("HD", ("The Home Depot Inc.", "Consumer Cyclical"));
    ("MRNA", ("Moderna Inc.", "Healthcare"));
    ("PYPL", ("PayPal Holdings Inc.", "Financial Services"));
    ("UBER", ("Uber Technologies Inc.", "Technology"));
    ("LYFT", ("Lyft Inc.", "Technology"));
    ("SPOT", ("Spotify Technology S.A.", "Communication Services"));
    ("SQ", ("Block Inc.", "Technology"));
    ("SHOP", ("Shopify Inc.", "Technology"));
    ("ZM", ("Zoom Video Communications", "Technology"));
    ("ROKU", ("Roku Inc.", "Communication Services"))
  ].

(** An entry of the result list. *)
Record hit : Type := {
  ticker : string;
  name : string;
  sector : string;
  match_type : string
}.

(** [key in table] and [table[key]] *)
Fixpoint find (key : string) (table : list (string * (string * string)))
  : option (string * string) :=
  match table with
  | [] => None
  | (k, v) :: rest => if String.eqb k key then Some v else find key rest
  end.

(** [priority.get(match_type, 3)] *)
Definition priority (m : string) : Z :=
  if String.eqb m "ticker_exact" then 0
  else if String.eqb m "ticker_prefix" then 1
  else if String.eqb m "name_match" then 2
  else 3.

(** The sort key [(priority, ticker)] and the order of such pairs. *)
Definition sort_key (h : hit) : Z * string :=
  (priority (match_type h), ticker h).

Definition key_le (a b : Z * string) : bool :=
  (fst a <? fst b)%Z || ((fst a =? fst b)%Z && String.leb (snd a) (snd b)).

(** [list.sort(key=...)]: a stable sort, here by insertion. *)
Section Sort.
Variables (A K : Type) (key : A -> K) (le : K -> K -> bool).

Fixpoint insert (x : A) (l : list A) : list A :=
  match l with
  | [] => [x]
  | y :: t => if le (key x) (key y) then x :: l else y :: insert x t
  end.

Definition sort_by (l : list A) : list A := fold_right insert [] l.
End Sort.

Section Search.

Variable table : list (string * (string * string)).

(** The three passes that fill [results]. *)
Definition exact_hits (query_upper : string) : list hit :=
  match find query_upper table with
  | Some (n, s) =>
      [{| ticker := query_upper; name := n; sector := s;
          match_type := "ticker_exact" |}]
  | None => []
  end.

Definition prefix_hits (query_upper : string) : list hit :=
  flat_map
    (fun e =>
       let '(t, (n, s)) := e in
       if startswith t query_upper && negb (String.eqb t query_upper)
       then [{| ticker := t; name := n; sector := s;
                match_type := "ticker_prefix" |}]
       else [])
    table.

(** The third pass reads the results gathered so far, its own
    included. *)
Fixpoint name_hits (query_lower : string) (results : list hit)
    (todo : list (string * (string * string))) : list hit :=
  match todo with
  | [] => results
  | (t, (n, s)) :: rest =>
      if contains query_lower (lower n)
         && negb (existsb (String.eqb t) (map ticker results))
      then name_hits query_lower
             ((results ++ [{| ticker := t; name := n; sector := s;
                             match_type := "name_match" |}])%list)
             rest
      else name_hits query_lower results rest
  end.

Definition search_in (query : string) (limit : Z) : list hit :=
  match query with
  | EmptyString => []
  | _ =>
      let query_upper := strip (upper query) in
      let results := (exact_hits query_upper ++ prefix_hits query_upper)%list in
      let query_lower := strip (lower query) in
      let results := name_hits query_lower results table in
      slice_to (sort_by sort_key key_le results) limit
  end.

End Search.

Definition search_stocks (query : string) (limit : Z) : list hit :=
  search_in POPULAR_STOCKS query limit.

(** *** The ranking as the specification words it

    "exact ticker match first, then ticker-prefix matches, then
    company-name substring matches (case-insensitive), each group sorted
    by ticker; truncate to limit".  The query is compared after the
    normalisation of the code (upper or lower case, stripped); an entry
    is listed once, in the first group it belongs to. *)

Section Ranking.

Variable table : list (string * (string * string)).

Definition as_hit (kind : string) (e : string * (string * string)) : hit :=
  {| ticker := fst e; name := fst (snd e); sector := snd (snd e);
     match_type := kind |}.

Definition is_exact (q : string) (e : string * (string * string)) : bool :=
  String.eqb (fst e) q.

Definition is_prefix (q : string) (e : string * (string * string)) : bool :=
  startswith (fst e) q && negb (String.eqb (fst e) q).

Definition is_name (q : string) (e : string * (string * string)) : bool :=
  contains q (lower (fst (snd e))).

Definition exact_group (query : string) : list hit :=
  map (as_hit "ticker_exact") (filter (is_exact (strip (upper query))) table).

Definition prefix_group (query : string) : list hit :=
  sort_by ticker String.leb
    (map (as_hit "ticker_prefix") (filter (is_prefix (strip (upper query))) table)).

Definition name_group (query : string) : list hit :=
  sort_by ticker String.leb
    (map (as_hit "name_match")
       (filter (fun e => is_name (strip (lower query)) e
                         && negb (is_exact (strip (upper query)) e)
                         && negb (is_prefix (strip (upper query)) e))
               table)).

Definition ranked_search (query : string) (limit : Z) : list hit :=
  firstn (Z.to_nat limit)
         (exact_group query ++ prefix_group query ++ name_group query)%list.

End Ranking.

End StockSearch.

Export StockSearch.

(* ================================================================== *)
(** ** Predicates of the statements, and sample inputs *)
(* ================================================================== *)

(** A value that is a number. *)
Definition finite (x : num) : Prop := exists q : Q, x = Fin q.

(** A number, when there, is not negative. *)
Definition fin_nonneg (x : num) : Prop :=
  match x with Fin q => (0 <= q)%Q | _ => True end.

(** What a rolling mean of such entries is: NaN, or a number that is
    not negative. *)
Definition nan_or_nonneg (x : num) : Prop :=
  x = NaN \/ exists q : Q, x = Fin q /\ (0 <= q)%Q.

(** Hits in strictly ascending order of their tickers: every ticker is
    below, in the order of Python's string comparison, every ticker
    after it. *)
Definition ascending (l : list hit) : Prop :=
  StronglySorted (fun a b => String.ltb (ticker a) (ticker b) = true) l.

Module Samples.

Local Open Scope string_scope.

(** Three days of prices and volumes. *)
Definition frame : DataFrame :=
  {| index_len := 3;
     columns := [("Close", [Fin 100; Fin 90; Fin 105]);
                 ("Volume", [Fin 10; Fin 10; Fin 40])] |}.

(** A frame with rows and no column at all. *)
Definition bare_frame : DataFrame := {| index_len := 3; columns := [] |}.

(** An indicators dictionary in which the price has just crossed above
    its SMA20 and the SMA50 above the SMA200, on high volume. *)
Definition crossing : IndicatorDict :=
  {| error := None;
     indicators :=
       Some {| s_sma_20 := Some [Fin 99; Fin 100];
               s_sma_50 := Some [Fin 99; Fin 101];
               s_sma_200 := Some [Fin 100; Fin 100];
               s_ema_12 := None; s_ema_26 := None; s_rsi := None;
               s_volatility := None; s_momentum := None;
               s_volume_avg := Some [Fin 10; Fin 20] |};
     latest :=
       Some {| current_price := Some (Fin 105);
               sma_20 := Some (Fin 100);
               sma_50 := Some (Fin 101);
               sma_200 := Some (Fin 100);
               rsi := Some (Fin 25.25);
               volatility := None;
               momentum := Some (Fin (-11.3)) |};
     success := Some true |}.

(** The same dictionary without its success flag. *)
Definition unflagged : IndicatorDict :=
  {| error := error crossing; indicators := indicators crossing;
     latest := latest crossing; success := None |}.

Definition upgrade : Recommendation :=
  {| firm := Some "Broker"; fromGrade := Some "Hold"; toGrade := Some "Buy";
     action := Some "up"; date := None |}.

End Samples.

(* ================================================================== *)
(** ** indicators.py: the price trend *)
(* ================================================================== *)

Module PriceTrend.

Local Open Scope string_scope.

Definition get_price_trend (price_data : DataFrame)
    (sma_20_series sma_50_series : Series) : result string :=
  if df_empty price_data || empty sma_20_series || empty sma_50_series
  then Ok "Neutral"
  else
    close <- column "Close" price_data ;;
    price <- iloc close (-1) ;;
    sma20_val <- iloc sma_20_series (-1) ;;
    sma50_val <- iloc sma_50_series (-1) ;;
    if isnan sma20_val || isnan sma50_val then Ok "Neutral"
    else if (price >? sma20_val)%num && (sma20_val >? sma50_val)%num then
      Ok "Bullish"
    else if (price <? sma20_val)%num && (sma20_val <? sma50_val)%num then
      Ok "Bearish"
    else Ok "Neutral".

End PriceTrend.

Export PriceTrend.

(* ================================================================== *)
(** ** stock_search.py: the whole directory and the display name *)
(* ================================================================== *)

Module StockDirectory.

Local Open Scope string_scope.

(** An entry of [get_all_stocks]: ticker, name and sector. *)
Record stock : Type := {
  stock_ticker : string;
  stock_name : string;
  stock_sector : string
}.

Definition all_stocks_of (table : list (string * (string * string)))
  : list stock :=
  map (fun e => let '(t, (n, s)) := e in
                {| stock_ticker := t; stock_name := n; stock_sector := s |})
      table.

Definition get_all_stocks : list stock := all_stocks_of POPULAR_STOCKS.

Definition display_name_in (table : list (string * (string * string)))
    (t : string) : string :=
  match find t table with
  | Some (n, _) => t ++ " - " ++ n
  | None => t
  end.

Definition get_stock_display_name (t : string) : string :=
  display_name_in POPULAR_STOCKS t.

End StockDirectory.

Export StockDirectory.

(* ================================================================== *)
(** ** trend_analysis.py *)
(* ================================================================== *)

Module TrendAnalysis.

Local Open Scope string_scope.

(** [abs(x)] *)
Definition num_abs (x : num) : num :=
  match x with
  | NaN => NaN
  | PInf | NInf => PInf
  | Fin q => Fin (Qabs q)
  end.

(** [f"{n}"] for an integer *)
Definition string_of_Z (z : Z) : string :=
  match z with
  | Zneg p => "-" ++ string_of_N (Npos p)
  | _ => string_of_N (Z.to_N z)
  end.

(** A news item, as the fetcher builds it. *)
Record NewsItem : Type := {
  title : string;
  publisher : string;
  link : string;
  published : option string
}.

(** The company info dictionary, as far as it is read. *)
Record Info : Type := {
  info_sector : option string;
  info_industry : option string
}.

Definition hold_grades : list string := ["HOLD"; "NEUTRAL"].

(** [recs[-n:] if len(recs) >= n else recs] *)
Definition recent_of (n : nat) (recs : list Recommendation)
  : list Recommendation :=
  if (n <=? List.length recs)%nat
  then skipn (List.length recs - n) recs
  else recs.

(** *** [get_market_sentiment] *)

(** The recommendation summary, keys "buy", "hold", "sell", "total". *)
Record Tally : Type := {
  n_buy : Z;
  n_hold : Z;
  n_sell : Z;
  n_total : Z
}.

(** [recommendation_summary] is [None] for the empty dictionary. *)
Record Sentiment : Type := {
  news_count : Z;
  recommendation_summary : option Tally
}.

Definition get_market_sentiment (news : list NewsItem)
    (recommendations : list Recommendation) : Sentiment :=
  {| news_count :=
       match news with
       | [] => 0
       | _ :: _ => Z.of_nat (List.length news)
       end;
     recommendation_summary :=
       match recommendations with
       | [] => None
       | _ :: _ =>
           let recent := recent_of 10 recommendations in
           Some {| n_buy := count (graded buy_grades) recent;
                   n_hold := count (graded hold_grades) recent;
                   n_sell := count (graded sell_grades) recent;
                   n_total := Z.of_nat (List.length recent) |}
       end |}.

(** *** [get_price_momentum] *)

(** [d[k] = v] on a dictionary kept in insertion order *)
Fixpoint dict_set (k : string) (v : num) (d : list (string * num))
  : list (string * num) :=
  match d with
  | [] => [(k, v)]
  | (k', v') :: rest =>
      if String.eqb k' k then (k, v) :: rest
      else (k', v') :: dict_set k v rest
  end.

(** [d.get(k)] *)
Fixpoint dict_get (k : string) (d : list (string * num)) : option num :=
  match d with
  | [] => None
  | (k', v') :: rest => if String.eqb k' k then Some v' else dict_get k rest
  end.

(** [f"{period}d"] *)
Definition period_label (period : Z) : string := string_of_Z period ++ "d".

Definition default_periods : list Z := [5; 10; 20; 50]%Z.

Fixpoint momentum_loop (close : Series) (rows : nat) (price : num)
    (periods : list Z) (momentum_dict : list (string * num))
  : result (list (string * num)) :=
  match periods with
  | [] => Ok momentum_dict
  | period :: rest =>
      if (period <? Z.of_nat rows)%Z then
        past_price <- iloc close (- period - 1) ;;
        let m := ((price / past_price - Fin 1) * Fin 100)%num in
        momentum_loop close rows price rest
                      (dict_set (period_label period) m momentum_dict)
      else momentum_loop close rows price rest momentum_dict
  end.

Definition get_price_momentum (price_data : DataFrame) (periods : list Z)
  : result (list (string * num)) :=
  if df_empty price_data || negb (has_column "Close" price_data) then Ok []
  else
    close <- column "Close" price_data ;;
    price <- iloc close (-1) ;;
    momentum_loop close (df_len price_data) price periods [].

(** *** [generate_trend_summary] *)

Definition say (sentence : string) (parts : list string) : list string :=
  (parts ++ [sentence])%list.

Definition price_change_part (ticker : string) (l : Latest)
    (price_data : DataFrame) (parts : list string) : result (list string) :=
  if (2 <=? df_len price_data)%nat then
    close <- column "Close" price_data ;;
    prev <- iloc close (-2) ;;
    let price_change := ((get_price l / prev - Fin 1) * Fin 100)%num in
    if (num_abs price_change >? Fin 0.1)%num then
      if (price_change >? Fin 0)%num then
        Ok (say (ticker ++ " is showing positive momentum with a "
                 ++ format_fixed 2 price_change ++ "% gain.") parts)
      else
        Ok (say (ticker ++ " is experiencing downward pressure with a "
                 ++ format_fixed 2 price_change ++ "% decline.") parts)
    else Ok parts
  else Ok parts.

Definition rsi_part (l : Latest) (parts : list string) : list string :=
  match rsi l with
  | Some r =>
      if (r <? Fin 30)%num then
        say ("RSI at " ++ format_fixed 1 r
             ++ " indicates oversold conditions, potentially signaling a buying opportunity.")
            parts
      else if (r >? Fin 70)%num then
        say ("RSI at " ++ format_fixed 1 r
             ++ " suggests overbought territory, indicating potential selling pressure.")
            parts
      else if (Fin 40 <=? r)%num && (r <=? Fin 60)%num then
        say ("RSI at " ++ format_fixed 1 r
             ++ " suggests balanced market conditions.") parts
      else parts
  | None => parts
  end.

Definition averages_part (l : Latest) (parts : list string) : list string :=
  match sma_20 l, sma_50 l, sma_200 l with
  | Some s20, Some s50, Some s200 =>
      let price := get_price l in
      if (price >? s20)%num && (s20 >? s50)%num && (s50 >? s200)%num then
        say "Price structure shows strong bullish alignment with all moving averages trending upward."
            parts
      else if (price <? s20)%num && (s20 <? s50)%num && (s50 <? s200)%num then
        say "Price structure indicates bearish alignment with all moving averages trending downward."
            parts
      else if (s50 >? s200)%num then
        say "SMA50 above SMA200 indicates long-term strength." parts
      else if (s50 <? s200)%num then
        say "SMA50 below SMA200 suggests long-term weakness." parts
      else parts
  | _, _, _ => parts
  end.

Definition momentum_part (l : Latest) (parts : list string) : list string :=
  match momentum l with
  | Some m =>
      if (m >? Fin 10)%num then
        say ("Strong upward momentum (" ++ format_fixed 1 m
             ++ "%) reflects positive investor sentiment.") parts
      else if (m <? Fin (-10))%num then
        say ("Negative momentum (" ++ format_fixed 1 m
             ++ "%) indicates weakening price action.") parts
      else if (Fin (-5) <=? m)%num && (m <=? Fin 5)%num then
        say "Momentum is relatively stable, suggesting consolidation." parts
      else parts
  | None => parts
  end.

Definition volatility_part (l : Latest) (parts : list string) : list string :=
  match volatility l with
  | Some v =>
      if (v >? Fin 30)%num then
        say ("High volatility (" ++ format_fixed 1 v
             ++ "%) indicates significant price swings and market uncertainty.")
            parts
      else if (v <? Fin 15)%num then
        say ("Low volatility (" ++ format_fixed 1 v
             ++ "%) suggests stable, predictable price movements.") parts
      else parts
  | None => parts
  end.

Definition volume_part (series : IndicatorSeries) (price_data : DataFrame)
    (parts : list string) : result (list string) :=
  match s_volume_avg series with
  | Some volume_avg =>
      if negb (empty volume_avg) && has_column "Volume" price_data then
        volume <- column "Volume" price_data ;;
        current_volume <- iloc volume (-1) ;;
        avg_volume <- iloc volume_avg (-1) ;;
        if negb (isnan avg_volume) && (avg_volume >? Fin 0)%num then
          let volume_ratio := (current_volume / avg_volume)%num in
          if (volume_ratio >? Fin 1.5)%num then
            Ok (say "Trading volume is significantly above average, indicating strong market interest."
                    parts)
          else if (volume_ratio <? Fin 0.5)%num then
            Ok (say "Below-average trading volume suggests limited market participation."
                    parts)
          else Ok parts
        else Ok parts
      else Ok parts
  | None => Ok parts
  end.

Definition analysts_part (recommendations : list Recommendation)
    (parts : list string) : list string :=
  match recommendations with
  | [] => parts
  | _ :: _ =>
      let recent := recent_of 5 recommendations in
      let buy_count := count (graded buy_grades) recent in
      let sell_count := count (graded sell_grades) recent in
      if (buy_count >? 0)%Z || (sell_count >? 0)%Z then
        if (buy_count >? sell_count)%Z then
          say ("Analyst sentiment is positive with "
               ++ string_of_Z buy_count ++ " recent buy recommendations.") parts
        else if (sell_count >? buy_count)%Z then
          say ("Analyst sentiment is cautious with "
               ++ string_of_Z sell_count ++ " recent sell recommendations.") parts
        else say "Analyst recommendations are mixed." parts
      else parts
  end.

Definition news_part (news : list NewsItem) (parts : list string)
  : list string :=
  match news with
  | [] => parts
  | _ :: _ =>
      say ("Recent market news includes "
           ++ string_of_Z (Z.of_nat (List.length news))
           ++ " articles that may impact sentiment.") parts
  end.

(** [info] is [None] for [None] and for the empty dictionary. *)
Definition info_part (info : option Info) (parts : list string)
  : list string :=
  match info with
  | Some i =>
      match info_sector i with
      | Some (String c rest) =>
          say ("Operating in the " ++ String c rest ++ " sector.") parts
      | _ => parts
      end
  | None => parts
  end.

(** The sentences gathered, in order. *)
Definition summary_parts (ticker : string) (ind : IndicatorDict)
    (price_data : DataFrame) (recommendations : list Recommendation)
    (news : list NewsItem) (info : option Info) : result (list string) :=
  let l := get_latest ind in
  let series := get_series ind in
  p1 <- price_change_part ticker l price_data [] ;;
  p2 <- volume_part series price_data
          (volatility_part l (momentum_part l (averages_part l (rsi_part l p1)))) ;;
  Ok (info_part info (news_part news (analysts_part recommendations p2))).

Definition insufficient_summary (ticker : string) : string :=
  "Insufficient data to generate trend summary for " ++ ticker ++ ".".

Definition mixed_summary (ticker : string) : string :=
  ticker ++ " shows mixed signals with no clear trend direction.".

Definition generate_trend_summary (ticker : string) (ind : IndicatorDict)
    (price_data : DataFrame) (recommendations : list Recommendation)
    (news : list NewsItem) (info : option Info) : result string :=
  if negb (succeeded ind) || df_empty price_data
  then Ok (insufficient_summary ticker)
  else
    parts <- summary_parts ticker ind price_data recommendations news info ;;
    Ok (match parts with
        | [] => mixed_summary ticker
        | _ :: _ => join " " parts
        end).

End TrendAnalysis.

Export TrendAnalysis.

(* ================================================================== *)
(** ** Predicates of the further statements *)
(* ================================================================== *)

Section SearchPredicates.

Local Open Scope string_scope.

Variable table : list (string * (string * string)).

(** The results before the sort and the cut. *)
Definition found (query : string) : list hit :=
  name_hits (strip (lower query))
            (exact_hits table (strip (upper query))
             ++ prefix_hits table (strip (upper query)))%list
            table.

(** What each kind of hit says about the entry. *)
Definition justified (query : string) (h : hit) : Prop :=
  let qu := strip (upper query) in
  let ql := strip (lower query) in
  In (ticker h, (name h, sector h)) table
  /\ ((match_type h = "ticker_exact" /\ ticker h = qu)
      \/ (match_type h = "ticker_prefix"
          /\ startswith (ticker h) qu = true /\ ticker h <> qu)
      \/ (match_type h = "name_match"
          /\ contains ql (lower (name h)) = true
          /\ startswith (ticker h) qu = false)).

End SearchPredicates.

(** One rule of a signal function: it leaves the scores and reasons as
    they are, or adds between 1 and [kb] to buy_score, or between 1 and
    [ks] to sell_score, with one reason. *)
Definition step_of (kb ks : Z) (st st' : scores) : Prop :=
  st' = st
  \/ (exists (k : Z) (why : string), (1 <= k <= kb)%Z /\ st' = buy k why st)
  \/ (exists (k : Z) (why : string), (1 <= k <= ks)%Z /\ st' = sell k why st).

(** Scores within bounds, with a reason exactly when there is a score. *)
Definition scored (bb bs bt : Z) (n : nat) (st : scores) : Prop :=
  (0 <= buy_score st <= bb)%Z
  /\ (0 <= sell_score st <= bs)%Z
  /\ (buy_score st + sell_score st <= bt)%Z
  /\ (List.length (reasons st) <= n)%nat
  /\ (reasons st = [] <-> buy_score st = 0%Z /\ sell_score st = 0%Z).

(** A number between two bounds. *)
Definition in_range (lo hi : Q) (x : num) : Prop :=
  exists q : Q, x = Fin q /\ (lo <= q <= hi)%Q.

(** The Series of an indicators dictionary, and its latest values. *)
Definition all_series (s : IndicatorSeries) : list (option Series) :=
  [s_sma_20 s; s_sma_50 s; s_sma_200 s; s_ema_12 s; s_ema_26 s; s_rsi s;
   s_volatility s; s_momentum s; s_volume_avg s].

Definition latest_values (l : Latest) : list (option num) :=
  [sma_20 l; sma_50 l; sma_200 l; rsi l; volatility l; momentum l].

(** A Series of [n] entries, when there is one. *)
Definition aligned (n : nat) (o : option Series) : Prop :=
  match o with Some s => List.length s = n | None => True end.

(* ================================================================== *)
(** * Properties *)
(* ================================================================== *)

Local Open Scope Z_scope.

(** ** The error monad *)

Lemma bind_ok {A B : Type} (c : result A) (k : A -> result B) (b : B) :
  (x <- c ;; k x) = Ok b -> exists a, c = Ok a /\ k a = Ok b.
Proof.
  destruct c as [a | e]; simpl; intros H.
  - exists a. split; [reflexivity | exact H].
  - discriminate H.
Qed.

(** ** Signal engine: the decisions *)

Section Decisions.

Local Open Scope string_scope.

Variables (b s : Z) (rs : list string).
Let st := {| buy_score := b; sell_score := s; reasons := rs |}.

Lemma short_term_decision_buy :
  short_term_decision st = "BUY" <-> b > s /\ b >= 2.
Proof.
  unfold short_term_decision, st; simpl.
  destruct (Z.gtb_spec b s), (Z.geb_spec b 2); simpl;
    try (split; [intros _; lia | reflexivity]);
    destruct (Z.gtb_spec s b), (Z.geb_spec s 2); simpl;
    split; try discriminate; lia.
Qed.

Lemma short_term_decision_sell :
  short_term_decision st = "SELL" <-> s > b /\ s >= 2.
Proof.
  unfold short_term_decision, st; simpl.
  destruct (Z.gtb_spec b s), (Z.geb_spec b 2); simpl;
    try (split; [discriminate | lia]);
    destruct (Z.gtb_spec s b), (Z.geb_spec s 2); simpl;
    split; try discriminate; try lia; reflexivity.
Qed.

Lemma short_term_decision_hold :
  short_term_decision st = "HOLD"
  <-> ~ (b > s /\ b >= 2) /\ ~ (s > b /\ s >= 2).
Proof.
  unfold short_term_decision, st; simpl.
  destruct (Z.gtb_spec b s), (Z.geb_spec b 2); simpl;
    try (split; [discriminate | lia]);
    destruct (Z.gtb_spec s b), (Z.geb_spec s 2); simpl;
    split; try discriminate; try lia; reflexivity.
Qed.

Lemma long_term_decision_cases :
  (long_term_decision st = "BUY" <-> b >= 4)
  /\ (long_term_decision st = "SELL" <-> s >= 4 /\ b < 4)
  /\ (long_term_decision st = "HOLD (Bullish)" <-> b < 4 /\ s < 4 /\ b > s)
  /\ (long_term_decision st = "HOLD (Bearish)" <-> b < 4 /\ s < 4 /\ s > b)
  /\ (long_term_decision st = "HOLD" <-> b < 4 /\ s < 4 /\ b = s).
Proof.
  unfold long_term_decision, st; simpl.
  destruct (Z.geb_spec b 4), (Z.geb_spec s 4),
           (Z.gtb_spec b s), (Z.gtb_spec s b);
    repeat split; intros; try discriminate; try lia; reflexivity.
Qed.

End Decisions.

(** ** Positions of a Series *)

Lemma iloc_back_ok (s : Series) (k : Z) :
  0 < k <= Z.of_nat (List.length s) ->
  exists x, iloc s (- k) = Ok x
            /\ nth_error s (Z.to_nat (Z.of_nat (List.length s) - k)) = Some x.
Proof.
  intros Hk. unfold iloc.
  destruct (Z.ltb_spec (- k) 0) as [_ | Hneg]; [| lia].
  replace (Z.of_nat (List.length s) + - k) with (Z.of_nat (List.length s) - k) by lia.
  destruct (Z.leb_spec 0 (Z.of_nat (List.length s) - k)) as [_ | Hlo]; [| lia].
  destruct (Z.ltb_spec (Z.of_nat (List.length s) - k) (Z.of_nat (List.length s)))
    as [_ | Hhi]; [| lia].
  simpl.
  destruct (nth_error s (Z.to_nat (Z.of_nat (List.length s) - k))) as [x |] eqn:E.
  - exists x. split; reflexivity.
  - apply nth_error_None in E. lia.
Qed.

Lemma iloc_ok_length (s : Series) (k : Z) (x : num) :
  0 < k -> iloc s (- k) = Ok x -> k <= Z.of_nat (List.length s).
Proof.
  intros Hk. unfold iloc.
  destruct (Z.ltb_spec (- k) 0) as [_ | Hneg]; [| lia].
  destruct (Z.leb_spec 0 (Z.of_nat (List.length s) + - k)) as [Hlo | Hlo];
    simpl; [lia | discriminate].
Qed.

(** ** Signal engine: rules *)

Lemma buy_scores k why st :
  buy_score (buy k why st) = buy_score st + k
  /\ sell_score (buy k why st) = sell_score st.
Proof. split; reflexivity. Qed.

Lemma sell_scores k why st :
  buy_score (sell k why st) = buy_score st
  /\ sell_score (sell k why st) = sell_score st + k.
Proof. split; reflexivity. Qed.

(** The crossover rule of the long-term signal raises nothing. *)
Lemma long_cross_rule_total l series st :
  exists st', long_cross_rule l series st = Ok st'.
Proof.
  unfold long_cross_rule.
  destruct (sma_50 l) as [s50 |]; [| eexists; reflexivity].
  destruct (sma_200 l) as [s200 |]; [| eexists; reflexivity].
  destruct (Nat.leb_spec 2 (List.length (series_or_empty (s_sma_50 series))))
    as [H50 | H50];
    [| rewrite andb_false_r; eexists; reflexivity].
  destruct (negb (empty (series_or_empty (s_sma_50 series)))
            && negb (empty (series_or_empty (s_sma_200 series))));
    cbn [andb]; [| eexists; reflexivity].
  destruct (@iloc_back_ok (series_or_empty (s_sma_50 series)) 2) as (p50 & E50 & _);
    [lia |].
  change (-2) with (- (2)). rewrite E50. cbn [bind].
  destruct (Nat.leb_spec 2 (List.length (series_or_empty (s_sma_200 series))))
    as [H200 | H200].
  - destruct (@iloc_back_ok (series_or_empty (s_sma_200 series)) 2)
      as (p200 & E200 & _); [lia |].
    rewrite E200. cbn [bind]. eexists; reflexivity.
  - cbn [bind]. eexists; reflexivity.
Qed.

Lemma long_term_scores_total ind recs :
  exists st, long_term_scores ind recs = Ok st.
Proof.
  unfold long_term_scores.
  destruct (long_cross_rule_total (get_latest ind) (get_series ind)
              (long_sma200_rule (get_latest ind) start)) as (st' & E).
  rewrite E. simpl. eexists; reflexivity.
Qed.

(** ** C1, C2: the decisions of the two signal functions *)

Section SignalDecisions.

Local Open Scope string_scope.

(** C1.  Whenever the short-term rules run and leave the scores
    [buy_score] and [sell_score], [generate_short_term_signal] returns
    BUY exactly when buy_score > sell_score and buy_score >= 2, SELL
    exactly when sell_score > buy_score and sell_score >= 2, and HOLD in
    every other case; equal scores give HOLD. *)
Theorem short_term_signal_decision :
  forall (ind : IndicatorDict) (price_data : DataFrame) (st : scores),
    succeeded ind = true ->
    short_term_scores ind price_data = Ok st ->
    exists signal reason,
      generate_short_term_signal ind price_data = Ok (signal, reason)
      /\ (signal = "BUY"
          <-> buy_score st > sell_score st /\ buy_score st >= 2)
      /\ (signal = "SELL"
          <-> sell_score st > buy_score st /\ sell_score st >= 2)
      /\ (signal = "HOLD"
          <-> ~ (buy_score st > sell_score st /\ buy_score st >= 2)
              /\ ~ (sell_score st > buy_score st /\ sell_score st >= 2))
      /\ (buy_score st = sell_score st -> signal = "HOLD").
Proof.
  intros ind pd st Hs Hst.
  exists (short_term_decision st),
         (reason_of "Neutral technical indicators" (reasons st)).
  split.
  - unfold generate_short_term_signal. rewrite Hs, Hst. reflexivity.
  - destruct st as [b s rs]; simpl.
    split; [apply short_term_decision_buy |].
    split; [apply short_term_decision_sell |].
    split; [apply short_term_decision_hold |].
    intros Heq. apply short_term_decision_hold. lia.
Qed.

(** C2.  [generate_long_term_signal] always reaches its decision, and
    returns BUY exactly when buy_score >= 4, SELL exactly when
    sell_score >= 4 and buy_score < 4, HOLD (Bullish) when neither
    threshold is met and buy_score > sell_score, HOLD (Bearish) when
    neither is met and sell_score > buy_score, and HOLD otherwise;
    scores 4 and 0 give BUY, scores 3 and 0 give HOLD (Bullish). *)
Theorem long_term_signal_decision :
  forall (ind : IndicatorDict) (price_data : DataFrame)
         (recommendations : list Recommendation),
    succeeded ind = true ->
    exists st signal reason,
      long_term_scores ind recommendations = Ok st
      /\ generate_long_term_signal ind price_data recommendations
         = Ok (signal, reason)
      /\ (signal = "BUY" <-> buy_score st >= 4)
      /\ (signal = "SELL" <-> sell_score st >= 4 /\ buy_score st < 4)
      /\ (signal = "HOLD (Bullish)"
          <-> buy_score st < 4 /\ sell_score st < 4
              /\ buy_score st > sell_score st)
      /\ (signal = "HOLD (Bearish)"
          <-> buy_score st < 4 /\ sell_score st < 4
              /\ sell_score st > buy_score st)
      /\ (signal = "HOLD"
          <-> buy_score st < 4 /\ sell_score st < 4
              /\ buy_score st = sell_score st)
      /\ (buy_score st = 4 -> sell_score st = 0 -> signal = "BUY")
      /\ (buy_score st = 3 -> sell_score st = 0 -> signal = "HOLD (Bullish)").
Proof.
  intros ind pd recs Hs.
  destruct (long_term_scores_total ind recs) as (st & Hst).
  exists st, (long_term_decision st),
         (reason_of "Mixed long-term indicators" (reasons st)).
  split; [exact Hst |].
  split.
  - unfold generate_long_term_signal. rewrite Hs, Hst. reflexivity.
  - destruct st as [b s rs]; simpl.
    destruct (long_term_decision_cases b s rs) as (Hb & Hse & Hbu & Hbe & Hh).
    repeat (split; [assumption |]).
    split; intros; [apply Hb | apply Hbu]; lia.
Qed.

End SignalDecisions.

(** ** Reason strings *)

Section Reasons.

Local Open Scope string_scope.

Lemma append_assoc (a b c : string) : (a ++ b) ++ c = a ++ (b ++ c).
Proof. induction a as [| ch a IH]; simpl; [reflexivity | now rewrite IH]. Qed.

Lemma occurs_in_refl (s : string) : occurs_in s s.
Proof.
  exists EmptyString, EmptyString. simpl.
  induction s as [| ch s IH]; simpl; [reflexivity | now rewrite <- IH].
Qed.

Lemma occurs_in_append (needle a b c : string) :
  occurs_in needle b -> occurs_in needle (a ++ b ++ c).
Proof.
  intros (pre & post & ->). exists (a ++ pre), (post ++ c).
  now rewrite !append_assoc.
Qed.

Lemma occurs_in_join (needle sep s : string) (parts : list string) :
  In s parts -> occurs_in needle s -> occurs_in needle (join sep parts).
Proof.
  unfold join. induction parts as [| p rest IH]; intros Hin Hocc; [contradiction |].
  simpl. destruct rest as [| p' rest'].
  - destruct Hin as [-> | []]. exact Hocc.
  - destruct Hin as [-> | Hin].
    + apply (@occurs_in_append needle EmptyString s). exact Hocc.
    + specialize (IH Hin Hocc). destruct IH as (pre & post & E).
      exists (p ++ sep ++ pre), post. rewrite E. now rewrite !append_assoc.
Qed.

Lemma occurs_in_reason_of (needle fallback s : string) (rs : list string) :
  In s rs -> occurs_in needle s -> occurs_in needle (reason_of fallback rs).
Proof.
  intros Hin Hocc. destruct rs as [| r rs']; [contradiction |].
  unfold reason_of. now apply occurs_in_join with (s := s).
Qed.

(** Rules only append to the reason list. *)
Lemma long_momentum_rule_keeps l st why :
  In why (reasons st) -> In why (reasons (long_momentum_rule l st)).
Proof.
  intros H. unfold long_momentum_rule.
  destruct (momentum l) as [m |]; [| exact H].
  destruct (m >? Fin 10)%num; [simpl; apply in_or_app; now left |].
  destruct (m <? Fin (-10))%num; [simpl; apply in_or_app; now left | exact H].
Qed.

Lemma long_analyst_rule_keeps recs st why :
  In why (reasons st) -> In why (reasons (long_analyst_rule recs st)).
Proof.
  intros H. unfold long_analyst_rule.
  destruct recs as [| r recs']; [exact H |].
  match goal with |- context [if ?c then buy _ _ _ else _] => destruct c end;
    [simpl; apply in_or_app; now left |].
  match goal with |- context [if ?c then sell _ _ _ else _] => destruct c end;
    [simpl; apply in_or_app; now left | exact H].
Qed.

End Reasons.

(** ** C8: failures are values, not exceptions *)

Section Failures.

Local Open Scope string_scope.

(** C8.  On an empty price frame, or one without a Close column,
    [calculate_all_indicators] returns the dictionary holding only the
    error message, which carries no success flag; and for every
    indicators dictionary without a true success flag both signal
    functions return exactly ("HOLD", "Insufficient data for analysis"),
    whatever the price frame and the recommendations are: no rule is
    evaluated, not even one that would raise. *)
Theorem failures_are_tagged_results :
  (forall (calculate_volatility : Series -> Z -> Series) (price_data : DataFrame),
      df_empty price_data = true \/ has_column "Close" price_data = false ->
      calculate_all_indicators calculate_volatility price_data
      = Ok (error_dict "Invalid price data")
      /\ succeeded (error_dict "Invalid price data") = false)
  /\ (forall (ind : IndicatorDict) (price_data : DataFrame)
             (recommendations : list Recommendation),
         succeeded ind = false ->
         generate_short_term_signal ind price_data
         = Ok ("HOLD", "Insufficient data for analysis")
         /\ generate_long_term_signal ind price_data recommendations
            = Ok ("HOLD", "Insufficient data for analysis")).
Proof.
  split.
  - intros vol pd H. split; [| reflexivity].
    unfold calculate_all_indicators.
    destruct H as [H | H]; rewrite H; [| rewrite orb_true_r]; reflexivity.
  - intros ind pd recs H.
    unfold generate_short_term_signal, generate_long_term_signal.
    rewrite H. split; reflexivity.
Qed.

End Failures.

(** ** C10: price against SMA200 *)

(** C10.  With a latest SMA200 and a current price above zero the
    price-vs-SMA200 rule always fires: it appends one reason and adds 3
    to buy_score when the price is greater than SMA200, and otherwise
    adds 2 to sell_score; a price equal to SMA200 is scored +2 sell. *)
Theorem long_sma200_rule_fires :
  forall (l : Latest) (st : scores) (sma200 : num),
    sma_200 l = Some sma200 ->
    (get_price l >? Fin 0)%num = true ->
    let st' := long_sma200_rule l st in
    List.length (reasons st') = S (List.length (reasons st))
    /\ ((get_price l >? sma200)%num = true ->
        buy_score st' = buy_score st + 3 /\ sell_score st' = sell_score st)
    /\ ((get_price l >? sma200)%num = false ->
        buy_score st' = buy_score st /\ sell_score st' = sell_score st + 2)
    /\ (forall p q : Q, get_price l = Fin p -> sma200 = Fin q -> (p == q)%Q ->
        buy_score st' = buy_score st /\ sell_score st' = sell_score st + 2).
Proof.
  intros l st sma200 H200 Hpos st'. subst st'.
  unfold long_sma200_rule. rewrite H200, Hpos.
  assert (Hlen : forall why : string,
             List.length (reasons st ++ [why]) = S (List.length (reasons st))).
  { intros. rewrite length_app. simpl. lia. }
  destruct (get_price l >? sma200)%num eqn:Hgt; simpl.
  - split; [apply Hlen |].
    split; [intros _; split; reflexivity |].
    split; [discriminate |].
    intros p q Hp Hq Heq. rewrite Hp, Hq in Hgt.
    unfold Num.gtb, Num.ltb in Hgt.
    destruct (q ?= p)%Q eqn:Hc; try discriminate.
    apply Qlt_alt in Hc. rewrite Heq in Hc. now apply Qlt_irrefl in Hc.
  - split; [apply Hlen |].
    split; [discriminate |].
    split; [intros _; split; reflexivity |].
    intros; split; reflexivity.
Qed.

(** ** Order of the extended rationals *)

Lemma ltb_asym (x y : num) : (x <? y)%num = true -> (y <? x)%num = false.
Proof.
  destruct x as [| | | a], y as [| | | b]; simpl; try reflexivity; try discriminate.
  rewrite <- (Qcompare_antisym a b).
  destruct (a ?= b)%Q; simpl; try discriminate; reflexivity.
Qed.

Lemma gtb_asym (x y : num) : (x >? y)%num = true -> (x <? y)%num = false.
Proof. unfold Num.gtb. apply ltb_asym. Qed.

Lemma ltb_gtb_false (x y : num) : (x <? y)%num = true -> (x >? y)%num = false.
Proof. unfold Num.gtb. apply ltb_asym. Qed.

(** ** C7: the volume step *)

Lemma short_volume_rule_frame :
  forall (series : IndicatorSeries) (price_data : DataFrame) (st st' : scores),
    short_volume_rule series price_data st = Ok st' ->
    buy_score st' = buy_score st
    /\ sell_score st' = sell_score st
    /\ (reasons st' = reasons st
        \/ exists volume_avg volume current_volume avg_volume,
            s_volume_avg series = Some volume_avg
            /\ column "Volume" price_data = Ok volume
            /\ iloc volume (-1) = Ok current_volume
            /\ iloc volume_avg (-1) = Ok avg_volume
            /\ (avg_volume >? Fin 0)%num = true
            /\ (current_volume / avg_volume >? Fin 1.5)%num = true
            /\ ((buy_score st > sell_score st
                 /\ reasons st' = reasons st ++ [bullish_volume])
                \/ (sell_score st > buy_score st
                    /\ reasons st' = reasons st ++ [bearish_volume]))).
Proof.
  intros series pd st st' H. unfold short_volume_rule in H.
  assert (Hsame : forall P : Prop,
             Ok st = Ok st' ->
             buy_score st' = buy_score st
             /\ sell_score st' = sell_score st
             /\ (reasons st' = reasons st \/ P)).
  { intros P E. injection E as <-. repeat split. left. reflexivity. }
  destruct (s_volume_avg series) as [va |] eqn:Eva; [| now apply Hsame].
  destruct (negb (empty va) && has_column "Volume" pd); [| now apply Hsame].
  apply bind_ok in H. destruct H as (vol & Evol & H).
  apply bind_ok in H. destruct H as (cur & Ecur & H).
  apply bind_ok in H. destruct H as (avg & Eavg & H).
  destruct (negb (isnan avg)); cbn [andb] in H; [| now apply Hsame].
  destruct (avg >? Fin 0)%num eqn:Epos; [| now apply Hsame].
  destruct (cur / avg >? Fin 1.5)%num eqn:Eratio; [| now apply Hsame].
  destruct (Z.gtb_spec (buy_score st) (sell_score st)) as [Hb | Hb].
  - injection H as <-. cbn [note buy_score sell_score reasons]. repeat split.
    right. exists va, vol, cur, avg. repeat (split; [first [assumption | reflexivity] |]).
    left. split; [lia | reflexivity].
  - destruct (Z.gtb_spec (sell_score st) (buy_score st)) as [Hs | Hs];
      [| now apply Hsame].
    injection H as <-. cbn [note buy_score sell_score reasons]. repeat split.
    right. exists va, vol, cur, avg. repeat (split; [first [assumption | reflexivity] |]).
    right. split; [lia | reflexivity].
Qed.

(** C7.  The scores [generate_short_term_signal] decides on are those
    the RSI, SMA20 and momentum rules accumulated: the volume step
    leaves buy_score and sell_score as they are.  It leaves the reasons
    as they are too, or appends one "High volume confirms ..." note; the
    note is appended only when the latest 20-period average volume is
    positive, the current volume over that average exceeds 1.5, and one
    score strictly leads the other (bullish when buy leads, bearish when
    sell leads). *)
Theorem volume_step_keeps_scores :
  forall (ind : IndicatorDict) (price_data : DataFrame) (st : scores),
    short_term_scores ind price_data = Ok st ->
    exists st3 : scores,
      short_term_rules ind price_data = Ok st3
      /\ buy_score st = buy_score st3
      /\ sell_score st = sell_score st3
      /\ (reasons st = reasons st3
          \/ exists volume_avg volume current_volume avg_volume,
              s_volume_avg (get_series ind) = Some volume_avg
              /\ column "Volume" price_data = Ok volume
              /\ iloc volume (-1) = Ok current_volume
              /\ iloc volume_avg (-1) = Ok avg_volume
              /\ (avg_volume >? Fin 0)%num = true
              /\ (current_volume / avg_volume >? Fin 1.5)%num = true
              /\ ((buy_score st3 > sell_score st3
                   /\ reasons st = reasons st3 ++ [bullish_volume])
                  \/ (sell_score st3 > buy_score st3
                      /\ reasons st = reasons st3 ++ [bearish_volume]))).
Proof.
  intros ind pd st H. unfold short_term_scores in H.
  apply bind_ok in H. destruct H as (st3 & E3 & H).
  exists st3. split; [exact E3 |].
  now apply short_volume_rule_frame.
Qed.

(** ** C3: SMA50 against SMA200 *)

Section Crossover.

Local Open Scope string_scope.

Variables (ind : IndicatorDict) (sma50 sma200 prev_sma50 prev_sma200 : num).

Let l := get_latest ind.
Let series := get_series ind.

Hypothesis latest_sma50 : sma_50 l = Some sma50.
Hypothesis latest_sma200 : sma_200 l = Some sma200.
Hypothesis sma50_len : (2 <= List.length (series_or_empty (s_sma_50 series)))%nat.
Hypothesis sma50_prev : iloc (series_or_empty (s_sma_50 series)) (-2) = Ok prev_sma50.
Hypothesis sma200_prev :
  iloc (series_or_empty (s_sma_200 series)) (-2) = Ok prev_sma200
  \/ (List.length (series_or_empty (s_sma_200 series)) = 1%nat
      /\ prev_sma200 = sma200).

Lemma long_cross_rule_unfold (st : scores) :
  long_cross_rule l series st
  = Ok (if (prev_sma50 <=? prev_sma200)%num && (sma50 >? sma200)%num then
          buy 3 golden_cross st
        else if (prev_sma50 >=? prev_sma200)%num && (sma50 <? sma200)%num then
          sell 3 death_cross st
        else if (sma50 >? sma200)%num then
          buy 1 "SMA50 above SMA200 - positive trend" st
        else if (sma50 <? sma200)%num then
          sell 1 "SMA50 below SMA200 - negative trend" st
        else st).
Proof.
  unfold long_cross_rule. rewrite latest_sma50, latest_sma200.
  pose proof sma50_len as H50. apply Nat.leb_le in H50. rewrite H50.
  destruct (series_or_empty (s_sma_50 series)) as [| x50 t50];
    [discriminate H50 |].
  rewrite sma50_prev.
  destruct sma200_prev as [Hprev | (Hone & ->)].
  - assert (H200 : (2 <= List.length (series_or_empty (s_sma_200 series)))%nat).
    { apply (@iloc_ok_length _ 2) in Hprev; lia. }
    apply Nat.leb_le in H200. rewrite H200.
    destruct (series_or_empty (s_sma_200 series)) as [| x200 t200];
      [discriminate H200 |].
    cbn [empty negb andb]. rewrite Hprev. reflexivity.
  - rewrite Hone.
    destruct (series_or_empty (s_sma_200 series)) as [| x200 t200];
      [discriminate Hone |].
    reflexivity.
Qed.

(** C3.  With latest SMA50 and SMA200 present, an SMA50 series of at
    least two entries, and [prev_sma50], [prev_sma200] the previous
    entries of the two series (for an SMA200 series of one entry the
    code takes the latest SMA200 as the previous one): crossing up
    (prev_sma50 <= prev_sma200 and SMA50 > SMA200) adds 3 to buy_score
    through the crossover rule, and the reason returned contains
    "Golden Cross"; crossing down adds 3 to sell_score; otherwise
    SMA50 > SMA200 adds 1 to buy_score and SMA50 < SMA200 adds 1 to
    sell_score. *)
Theorem long_cross_rule_scores :
  forall (price_data : DataFrame) (recommendations : list Recommendation)
         (st : scores),
    let up := (prev_sma50 <=? prev_sma200)%num && (sma50 >? sma200)%num in
    let down := (prev_sma50 >=? prev_sma200)%num && (sma50 <? sma200)%num in
    (up = true ->
       long_cross_rule l series st = Ok (buy 3 golden_cross st)
       /\ long_term_scores ind recommendations
          = Ok (long_analyst_rule recommendations
                  (long_momentum_rule l
                     (buy 3 golden_cross (long_sma200_rule l start))))
       /\ (succeeded ind = true ->
           exists signal reason,
             generate_long_term_signal ind price_data recommendations
             = Ok (signal, reason)
             /\ occurs_in "Golden Cross" reason))
    /\ (down = true ->
          long_cross_rule l series st = Ok (sell 3 death_cross st))
    /\ (up = false -> down = false ->
          ((sma50 >? sma200)%num = true ->
             long_cross_rule l series st
             = Ok (buy 1 "SMA50 above SMA200 - positive trend" st))
          /\ ((sma50 <? sma200)%num = true ->
                long_cross_rule l series st
                = Ok (sell 1 "SMA50 below SMA200 - negative trend" st))).
Proof.
  intros pd recs st up down. subst up down.
  split; [| split].
  - intros Hup.
    assert (Hrule : forall st0,
               long_cross_rule l series st0 = Ok (buy 3 golden_cross st0)).
    { intros st0. rewrite long_cross_rule_unfold, Hup. reflexivity. }
    split; [apply Hrule |].
    assert (Hscores :
              long_term_scores ind recs
              = Ok (long_analyst_rule recs
                      (long_momentum_rule l
                         (buy 3 golden_cross (long_sma200_rule l start))))).
    { unfold long_term_scores. fold l. fold series. rewrite Hrule. reflexivity. }
    split; [exact Hscores |].
    intros Hs. unfold generate_long_term_signal. rewrite Hs, Hscores.
    cbn [negb bind]. eexists. eexists. split; [reflexivity |].
    apply occurs_in_reason_of with (s := golden_cross).
    + apply long_analyst_rule_keeps, long_momentum_rule_keeps.
      simpl. apply in_or_app. right. now left.
    + exists EmptyString, " detected (SMA50 > SMA200) - strong bullish signal".
      reflexivity.
  - intros Hdown. rewrite long_cross_rule_unfold, Hdown.
    apply andb_prop in Hdown. destruct Hdown as (_ & Hlt).
    rewrite (ltb_gtb_false _ _ Hlt), andb_false_r. reflexivity.
  - intros Hup Hdown. split; intros H.
    + rewrite long_cross_rule_unfold, Hup, Hdown, H. reflexivity.
    + rewrite long_cross_rule_unfold, Hup, Hdown, H.
      rewrite (ltb_gtb_false _ _ H). reflexivity.
Qed.

End Crossover.

(** ** The short-term rules on a well-formed price frame *)

Lemma lookup_forall (P : Series -> Prop) (cols : list (string * Series))
      (col : string) (s : Series) :
  Forall (fun kv => P (snd kv)) cols -> lookup col cols = Some s -> P s.
Proof.
  induction 1 as [| [k v] rest Hkv _ IH]; simpl; [discriminate |].
  destruct (String.eqb k col); [| exact IH].
  intros H. injection H as <-. exact Hkv.
Qed.

Section ShortTermTotal.

Local Open Scope string_scope.

Variable price_data : DataFrame.
Hypothesis frame_ok : well_formed price_data.

Lemma column_length (col : string) (s : Series) :
  column col price_data = Ok s -> List.length s = index_len price_data.
Proof.
  unfold column. destruct (lookup col (columns price_data)) as [s' |] eqn:E;
    [| discriminate].
  intros H. injection H as <-.
  exact (@lookup_forall (fun c => List.length c = index_len price_data) _ _ _ frame_ok E).
Qed.

Lemma has_column_ok (col : string) :
  has_column col price_data = true -> exists s, column col price_data = Ok s.
Proof.
  unfold has_column, column.
  destruct (lookup col (columns price_data)) as [s |]; [| discriminate].
  intros _. now exists s.
Qed.

Hypothesis has_close : has_column "Close" price_data = true.
Hypothesis has_rows : (1 <= index_len price_data)%nat.

Lemma short_sma20_rule_total (l : Latest) (series : IndicatorSeries)
      (st : scores) :
  exists st', short_sma20_rule l series price_data st = Ok st'.
Proof.
  unfold short_sma20_rule.
  destruct (sma_20 l) as [sma20 |]; [| eexists; reflexivity].
  destruct (get_price l >? Fin 0)%num; [| eexists; reflexivity].
  destruct (Nat.leb_spec 2 (List.length (series_or_empty (s_sma_20 series))))
    as [Hlen | Hlen];
    [| rewrite andb_false_r; eexists; reflexivity].
  destruct (negb (empty (series_or_empty (s_sma_20 series))));
    cbn [andb]; [| eexists; reflexivity].
  destruct (@iloc_back_ok (series_or_empty (s_sma_20 series)) 2)
    as (p20 & E20 & _); [lia |].
  change (-2) with (- (2)). rewrite E20.
  destruct (Nat.leb_spec 2 (df_len price_data)) as [Hrows | Hrows].
  - destruct (has_column_ok "Close" has_close) as (close & Eclose).
    rewrite Eclose. cbn [bind].
    pose proof (column_length "Close" Eclose) as Hc.
    destruct (@iloc_back_ok close 2) as (pp & Epp & _);
      [unfold df_len in Hrows; lia |].
    rewrite Epp. cbn [bind]. eexists; reflexivity.
  - cbn [bind]. eexists; reflexivity.
Qed.

Lemma short_volume_rule_total (series : IndicatorSeries) (st : scores) :
  exists st', short_volume_rule series price_data st = Ok st'.
Proof.
  unfold short_volume_rule.
  destruct (s_volume_avg series) as [va |]; [| eexists; reflexivity].
  destruct va as [| a va']; [eexists; reflexivity |].
  cbn [empty negb andb].
  destruct (has_column "Volume" price_data) eqn:Hv; [| eexists; reflexivity].
  destruct (has_column_ok "Volume" Hv) as (vol & Evol).
  rewrite Evol. cbn [bind].
  pose proof (column_length "Volume" Evol) as Hc.
  destruct (@iloc_back_ok vol 1) as (cur & Ecur & _); [lia |].
  destruct (@iloc_back_ok (a :: va') 1) as (avg & Eavg & _); [simpl; lia |].
  change (-1) with (- (1)). rewrite Ecur, Eavg. cbn [bind].
  repeat match goal with
         | |- context [if ?c then _ else _] => destruct c
         end; eexists; reflexivity.
Qed.

(** On a well-formed frame with a Close column and at least one row
    (what [calculate_all_indicators] accepts) the short-term rules run
    to their end, whatever the dictionary holds. *)
Lemma short_term_scores_total (ind : IndicatorDict) :
  exists st, short_term_scores ind price_data = Ok st.
Proof.
  unfold short_term_scores, short_term_rules.
  destruct (short_sma20_rule_total (get_latest ind) (get_series ind)
              (short_rsi_rule (get_latest ind) start)) as (st1 & E1).
  rewrite E1. cbn [bind]. apply short_volume_rule_total.
Qed.

End ShortTermTotal.

(** ** Indicators on Series *)

Section SeriesShapes.

Lemma length_diff_from (prev : num) (s : Series) :
  List.length (diff_from prev s) = List.length s.
Proof.
  revert prev. induction s as [| x t IH]; intros prev; simpl;
    [reflexivity | now rewrite IH].
Qed.

Lemma length_diff (s : Series) : List.length (diff s) = List.length s.
Proof. destruct s; simpl; [reflexivity | now rewrite length_diff_from]. Qed.

Lemma length_where_ cond other (s : Series) :
  List.length (where_ cond other s) = List.length s.
Proof. apply length_map. Qed.

Lemma length_neg_series (s : Series) :
  List.length (neg_series s) = List.length s.
Proof. apply length_map. Qed.

Lemma map_seq_const {A : Type} (f : nat -> A) (c : A) (n start : nat) :
  (forall i, (start <= i < start + n)%nat -> f i = c) ->
  map f (seq start n) = repeat c n.
Proof.
  revert start. induction n as [| n IH]; intros start H; simpl; [reflexivity |].
  rewrite H by lia. f_equal. apply IH. intros i Hi. apply H. lia.
Qed.

Lemma length_observed (win : Series) :
  (List.length (observed win) <= List.length win)%nat.
Proof.
  induction win as [| x t IH]; simpl; [lia |].
  destruct x; simpl; lia.
Qed.

Lemma length_window_at (w : nat) (s : Series) (i : nat) :
  (List.length (window_at w s i) <= Nat.min (i + 1) (List.length s))%nat.
Proof. unfold window_at. rewrite length_skipn, length_firstn. lia. Qed.

Lemma window_mean_short (w : nat) (win : Series) :
  (List.length win < w)%nat -> window_mean w win = NaN.
Proof.
  intros H. unfold window_mean. pose proof (length_observed win) as Hobs.
  destruct (Nat.leb_spec w (List.length (observed win))); [lia | reflexivity].
Qed.

(** A rolling mean over a Series shorter than its window is NaN at
    every position. *)
Lemma rolling_mean_short (s : Series) (w : Z) :
  Z.of_nat (List.length s) < w ->
  rolling_mean s w = Ok (repeat NaN (List.length s)).
Proof.
  intros H. unfold rolling_mean.
  destruct (Z.ltb_spec w 0) as [Hneg | _]; [lia |].
  f_equal. apply map_seq_const. intros i Hi.
  apply window_mean_short. pose proof (length_window_at (Z.to_nat w) s i). lia.
Qed.

Lemma map2_repeat (f : num -> num -> num) (x y : num) (n : nat) :
  map2 f (repeat x n) (repeat y n) = repeat (f x y) n.
Proof. induction n as [| n IH]; simpl; [reflexivity | now rewrite IH]. Qed.

Lemma nth_error_map2 (f : num -> num -> num) (s t : Series) (i : nat) :
  nth_error (map2 f s t) i
  = match nth_error s i, nth_error t i with
    | Some x, Some y => Some (f x y)
    | _, _ => None
    end.
Proof.
  revert t i. induction s as [| x s IH]; intros t i.
  - simpl. destruct i; reflexivity.
  - destruct t as [| y t].
    + simpl. destruct i; simpl; [reflexivity |].
      destruct (nth_error s i); reflexivity.
    + destruct i; simpl; [reflexivity | apply IH].
Qed.

End SeriesShapes.

(** ** The exponential average of finite prices *)

Section EwmFinite.

Variable a : Q.

Lemma ewm_step_finite (st : ewm_state) (cur : num) :
  finite (weighted st) -> old_wt st = Fin 1 -> (1 <= nobs st)%nat ->
  finite cur ->
  let st' := ewm_step (Fin a) st cur in
  finite (weighted st') /\ old_wt st' = Fin 1 /\ (1 <= nobs st')%nat.
Proof.
  intros (w0 & Hw) Hold Hn (c & ->). destruct st as [wt ow n]; simpl in *.
  subst wt ow. unfold ewm_step; simpl.
  split; [| split; [reflexivity | lia]].
  destruct (Qeq_bool w0 c); simpl; [now exists w0 |].
  destruct (Qeq_bool (1 * (1 + - a) + a) 0) eqn:E.
  - apply Qeq_bool_iff in E. exfalso. lra.
  - eexists; reflexivity.
Qed.

Lemma ewm_scan_finite (s : Series) :
  forall st : ewm_state,
    finite (weighted st) -> old_wt st = Fin 1 -> (1 <= nobs st)%nat ->
    Forall finite s ->
    Forall finite (ewm_scan (Fin a) st s).
Proof.
  induction s as [| cur t IH]; intros st Hw Hold Hn Hs; simpl; [constructor |].
  inversion Hs as [| ? ? Hcur Ht]; subst.
  destruct (ewm_step_finite st Hw Hold Hn Hcur) as (Hw' & Hold' & Hn').
  constructor.
  - unfold ewm_out. destruct (Nat.leb_spec 1 (nobs (ewm_step (Fin a) st cur)));
      [exact Hw' | lia].
  - now apply IH.
Qed.

Lemma length_ewm_scan (s : Series) :
  forall st, List.length (ewm_scan (Fin a) st s) = List.length s.
Proof.
  induction s as [| cur t IH]; intros st; simpl; [reflexivity | now rewrite IH].
Qed.

End EwmFinite.

(** ** C4: Series shorter than the window *)

(** C4, as stated, fails for the exponential average: on the
    one-price Series [100], shorter than the window 2, [calculate_ema]
    returns [100], not "no value". *)
Lemma ema_short_series_not_nan :
  ~ (forall (data : Series) (w : Z) (out : Series),
        Z.of_nat (List.length data) < w ->
        calculate_ema data w = Ok out ->
        Forall (fun x => x = NaN) out).
Proof.
  intros H.
  specialize (H [Fin 100] 2 [Fin 100] eq_refl eq_refl).
  inversion H as [| ? ? Hx _]. discriminate Hx.
Qed.

(** C4, amended.  On a price Series shorter than the window [w],
    [calculate_sma], [calculate_rsi] and [calculate_ema] all return
    without raising; every position of SMA(w) and of RSI(w) is NaN;
    EMA(w), seeded at the first price, has the length of the input,
    starts with the first price and is a number at every position when
    the prices are numbers. *)
Theorem short_series_indicators :
  forall (data : Series) (w : Z),
    Z.of_nat (List.length data) < w ->
    calculate_sma data w = Ok (repeat NaN (List.length data))
    /\ calculate_rsi data w = Ok (repeat NaN (List.length data))
    /\ exists ema : Series,
        calculate_ema data w = Ok ema
        /\ List.length ema = List.length data
        /\ nth_error ema 0 = nth_error data 0
        /\ (Forall finite data -> Forall finite ema).
Proof.
  intros data w H. split; [| split].
  - now apply rolling_mean_short.
  - unfold calculate_rsi, rsi_gain, rsi_loss.
    rewrite !rolling_mean_short
      by (rewrite ?length_neg_series, length_where_, length_diff; exact H).
    cbn [bind]. rewrite ?length_neg_series, !length_where_, !length_diff.
    f_equal. apply map2_repeat.
  - unfold calculate_ema, ewm_mean.
    destruct (Z.ltb_spec w 1) as [Hw | _]; [lia |].
    destruct data as [| x0 t].
    + exists []. repeat split. intros _. constructor.
    + eexists. split; [reflexivity |]. split; [| split].
      * simpl. now rewrite length_ewm_scan.
      * simpl. unfold ewm_out. simpl. destruct x0; reflexivity.
      * intros Hfin. inversion Hfin as [| ? ? Hx Ht]; subst.
        destruct Hx as (q & ->). constructor.
        -- now exists q.
        -- apply ewm_scan_finite; simpl; try lia; try reflexivity;
             [now exists q | exact Ht].
Qed.

(** ** The rolling averages of the RSI *)

Section RollingNonneg.

Lemma Qsum_nonneg (l : list Q) : Forall (fun q => 0 <= q)%Q l -> (0 <= Qsum l)%Q.
Proof.
  induction 1 as [| q l Hq _ IH]; simpl; [apply Qle_refl |].
  change 0%Q with (0 + 0)%Q. now apply Qplus_le_compat.
Qed.

Lemma observed_nonneg (win : Series) :
  Forall fin_nonneg win -> Forall (fun q => 0 <= q)%Q (observed win).
Proof.
  induction 1 as [| x win Hx _ IH]; simpl; [constructor |].
  destruct x; simpl; try exact IH. constructor; assumption.
Qed.

Lemma window_at_incl (w : nat) (s : Series) (i : nat) (x : num) :
  In x (window_at w s i) -> In x s.
Proof.
  unfold window_at. intros H.
  rewrite <- (firstn_skipn (i + 1) s). apply in_or_app. left.
  rewrite <- (firstn_skipn (i + 1 - w) (firstn (i + 1) s)).
  apply in_or_app. now right.
Qed.

Lemma window_mean_nonneg (w : nat) (win : Series) :
  Forall fin_nonneg win -> nan_or_nonneg (window_mean w win).
Proof.
  intros H. unfold window_mean.
  destruct ((w <=? List.length (observed win))%nat
            && (0 <? List.length (observed win))%nat); [| now left].
  right. eexists. split; [reflexivity |].
  unfold Qdiv. apply Qmult_le_0_compat.
  - now apply Qsum_nonneg, observed_nonneg.
  - apply Qinv_le_0_compat.
    change 0%Q with (inject_Z 0). rewrite <- Zle_Qle. lia.
Qed.

Lemma rolling_mean_nonneg (s out : Series) (w : Z) :
  Forall fin_nonneg s -> rolling_mean s w = Ok out -> Forall nan_or_nonneg out.
Proof.
  intros Hs. unfold rolling_mean.
  destruct (w <? 0); [discriminate |].
  intros E. injection E as <-.
  apply Forall_forall. intros x Hx. apply in_map_iff in Hx.
  destruct Hx as (i & <- & _). apply window_mean_nonneg.
  apply Forall_forall. intros y Hy. apply window_at_incl in Hy.
  revert y Hy. now apply Forall_forall.
Qed.

Lemma gains_nonneg (delta : Series) :
  Forall fin_nonneg (where_ (fun d => d >? Fin 0)%num (Fin 0) delta).
Proof.
  unfold where_. apply Forall_forall. intros x Hx. apply in_map_iff in Hx.
  destruct Hx as (d & <- & _).
  destruct (d >? Fin 0)%num eqn:E; [| simpl; apply Qle_refl].
  destruct d as [| | | q]; simpl; trivial.
  unfold Num.gtb, Num.ltb in E.
  destruct (0 ?= q)%Q eqn:C; try discriminate.
  apply Qlt_alt in C. now apply Qlt_le_weak.
Qed.

Lemma losses_nonneg (delta : Series) :
  Forall fin_nonneg
         (neg_series (where_ (fun d => d <? Fin 0)%num (Fin 0) delta)).
Proof.
  unfold neg_series, where_. rewrite map_map.
  apply Forall_forall. intros x Hx. apply in_map_iff in Hx.
  destruct Hx as (d & <- & _).
  destruct (d <? Fin 0)%num eqn:E; [| simpl; discriminate].
  destruct d as [| | | q]; simpl; trivial.
  unfold Num.ltb in E.
  destruct (q ?= 0)%Q eqn:C; try discriminate.
  apply Qlt_alt in C. lra.
Qed.

Lemma rsi_gain_nonneg (data gain : Series) (w : Z) :
  rsi_gain data w = Ok gain -> Forall nan_or_nonneg gain.
Proof. apply rolling_mean_nonneg, gains_nonneg. Qed.

Lemma rsi_loss_nonneg (data loss : Series) (w : Z) :
  rsi_loss data w = Ok loss -> Forall nan_or_nonneg loss.
Proof. apply rolling_mean_nonneg, losses_nonneg. Qed.

End RollingNonneg.

(** ** The RSI formula *)

Section RsiFormula.

Lemma rsi_of_nan_l (l : num) : rsi_of NaN l = NaN.
Proof. reflexivity. Qed.

Lemma rsi_of_nan_r (g : num) : rsi_of g NaN = NaN.
Proof. destruct g; reflexivity. Qed.

(** No losses and no gains: 0/0, no value. *)
Lemma rsi_of_zero_zero (g l : Q) :
  (g == 0)%Q -> (l == 0)%Q -> rsi_of (Fin g) (Fin l) = NaN.
Proof.
  intros Hg Hl. unfold rsi_of. simpl.
  apply Qeq_bool_iff in Hl. rewrite Hl.
  apply Qeq_alt in Hg. rewrite Hg. reflexivity.
Qed.

(** Gains and no losses: the quotient is infinite, the RSI is 100. *)
Lemma rsi_of_gain_only (g l : Q) :
  (0 < g)%Q -> (l == 0)%Q ->
  exists v : Q, rsi_of (Fin g) (Fin l) = Fin v /\ (v == 100)%Q.
Proof.
  intros Hg Hl. unfold rsi_of. simpl.
  apply Qeq_bool_iff in Hl. rewrite Hl.
  apply Qgt_alt in Hg. rewrite Hg. simpl.
  eexists. split; [reflexivity | lra].
Qed.

(** Losses: the textbook value, between 0 and 100. *)
Lemma rsi_of_losses (g l : Q) :
  (0 <= g)%Q -> (0 < l)%Q ->
  exists v : Q, rsi_of (Fin g) (Fin l) = Fin v /\ (0 <= v <= 100)%Q.
Proof.
  intros Hg Hl. unfold rsi_of. simpl.
  destruct (Qeq_bool l 0) eqn:El.
  { apply Qeq_bool_iff in El. lra. }
  simpl.
  assert (Hr : (0 <= g / l)%Q).
  { unfold Qdiv. apply Qmult_le_0_compat; [exact Hg |].
    apply Qinv_le_0_compat. lra. }
  destruct (Qeq_bool (1 + g / l) 0) eqn:E1.
  { apply Qeq_bool_iff in E1. lra. }
  simpl. eexists. split; [reflexivity |].
  set (r := (g / l)%Q) in *.
  assert (Ht : (0 < / (1 + r))%Q) by (apply Qinv_lt_0_compat; lra).
  assert (Hone : ((1 + r) * / (1 + r) == 1)%Q).
  { apply Qmult_inv_r. lra. }
  assert (Htr : (0 <= / (1 + r) * r)%Q).
  { apply Qmult_le_0_compat; lra. }
  unfold Qdiv. set (t := (/ (1 + r))%Q) in *.
  assert (Hsum : (t + t * r == 1)%Q) by (rewrite <- Hone; ring).
  split; lra.
Qed.

Lemma rsi_of_bounded (g l : num) :
  nan_or_nonneg g -> nan_or_nonneg l ->
  rsi_of g l = NaN
  \/ exists v : Q, rsi_of g l = Fin v /\ (0 <= v <= 100)%Q.
Proof.
  intros [-> | (gq & -> & Hg)] [-> | (lq & -> & Hl)];
    try (left; reflexivity).
  destruct (Qlt_le_dec 0 lq) as [Hpos | Hle].
  - right. now apply rsi_of_losses.
  - assert (Hl0 : (lq == 0)%Q) by lra.
    destruct (Qlt_le_dec 0 gq) as [Hgpos | Hgle].
    + right. destruct (rsi_of_gain_only Hgpos Hl0) as (v & E & Hv).
      exists v. split; [exact E | lra].
    + left. apply rsi_of_zero_zero; lra.
Qed.

End RsiFormula.

(** ** C5, C6: the RSI *)

Section RsiValues.

Variables (data gain loss out : Series) (window : Z).

Hypothesis gain_is : rsi_gain data window = Ok gain.
Hypothesis loss_is : rsi_loss data window = Ok loss.
Hypothesis rsi_is : calculate_rsi data window = Ok out.

Lemma calculate_rsi_pointwise (i : nat) :
  nth_error out i
  = match nth_error gain i, nth_error loss i with
    | Some g, Some l => Some (rsi_of g l)
    | _, _ => None
    end.
Proof.
  pose proof rsi_is as H. unfold calculate_rsi in H.
  rewrite gain_is, loss_is in H. cbn [bind] in H. injection H as <-.
  apply nth_error_map2.
Qed.

Lemma nth_error_nan_or_nonneg (s : Series) (i : nat) (x : num) :
  Forall nan_or_nonneg s -> nth_error s i = Some x -> nan_or_nonneg x.
Proof.
  intros Hs Hx. apply nth_error_In in Hx. revert x Hx. now apply Forall_forall.
Qed.

(** C5, amended.  At a position where the rolling average of losses is
    zero, [calculate_rsi] holds NaN when the rolling average of gains is
    zero as well, and 100 when that average is strictly positive; these
    are the only two values there can be, and nothing is raised. *)
Theorem rsi_at_zero_loss :
  forall (i : nat) (g : num) (l : Q),
    nth_error gain i = Some g ->
    nth_error loss i = Some (Fin l) ->
    (l == 0)%Q ->
    (forall gq : Q, g = Fin gq -> (gq == 0)%Q -> nth_error out i = Some NaN)
    /\ (forall gq : Q, g = Fin gq -> (0 < gq)%Q ->
        exists v : Q, nth_error out i = Some (Fin v) /\ (v == 100)%Q)
    /\ (nth_error out i = Some NaN
        \/ exists v : Q, nth_error out i = Some (Fin v) /\ (v == 100)%Q).
Proof.
  intros i g l Hg Hl Hzero.
  rewrite (calculate_rsi_pointwise i), Hg, Hl.
  split; [| split].
  - intros gq -> Hgq. f_equal. now apply rsi_of_zero_zero.
  - intros gq -> Hgq. destruct (rsi_of_gain_only Hgq Hzero) as (v & E & Hv).
    exists v. rewrite E. split; [reflexivity | exact Hv].
  - pose proof (nth_error_nan_or_nonneg i (rsi_gain_nonneg data window gain_is) Hg)
      as [-> | (gq & -> & Hge)].
    + left. reflexivity.
    + destruct (Qlt_le_dec 0 gq) as [Hpos | Hle].
      * right. destruct (rsi_of_gain_only Hpos Hzero) as (v & E & Hv).
        exists v. rewrite E. split; [reflexivity | exact Hv].
      * left. f_equal. apply rsi_of_zero_zero; [lra | exact Hzero].
Qed.

(** C6.  Every value of [calculate_rsi] that is not NaN is a number
    between 0 and 100, bounds included. *)
Theorem rsi_bounded :
  forall (i : nat) (v : num),
    nth_error out i = Some v ->
    isnan v = false ->
    exists q : Q, v = Fin q /\ (0 <= q <= 100)%Q.
Proof.
  intros i v Hv Hnan. rewrite (calculate_rsi_pointwise i) in Hv.
  destruct (nth_error gain i) as [g |] eqn:Hg; [| discriminate].
  destruct (nth_error loss i) as [l |] eqn:Hl; [| discriminate].
  injection Hv as <-.
  pose proof (nth_error_nan_or_nonneg i (rsi_gain_nonneg data window gain_is) Hg)
    as Hgn.
  pose proof (nth_error_nan_or_nonneg i (rsi_loss_nonneg data window loss_is) Hl)
    as Hln.
  destruct (rsi_of_bounded Hgn Hln) as [E | (q & E & Hq)].
  - rewrite E in Hnan. discriminate.
  - exists q. split; assumption.
Qed.

End RsiValues.

(** C5, as stated, fails: on the prices 1, 2 with window 1 the second
    position has a loss average of zero and a gain average of 1, and
    [calculate_rsi] holds 100 there, not NaN. *)
Lemma rsi_zero_loss_not_nan :
  ~ (forall (data gain loss out : Series) (window : Z) (i : nat) (l : Q),
        rsi_gain data window = Ok gain ->
        rsi_loss data window = Ok loss ->
        calculate_rsi data window = Ok out ->
        nth_error loss i = Some (Fin l) ->
        (l == 0)%Q ->
        nth_error out i = Some NaN).
Proof.
  intros H.
  specialize (H [Fin 1; Fin 2] [Fin 0; Fin 1] [Fin 0; Fin 0] [NaN; Fin 100]
                1 1%nat 0%Q eq_refl eq_refl eq_refl eq_refl (Qeq_refl 0)).
  discriminate H.
Qed.

(** ** The stable sort *)

Section SortFacts.

Variables (A K : Type) (key : A -> K) (le : K -> K -> bool).

Lemma insert_In (x y : A) (l : list A) :
  In y (insert key le x l) <-> y = x \/ In y l.
Proof.
  induction l as [| z t IH]; simpl.
  - intuition.
  - destruct (le (key x) (key z)); simpl; rewrite ?IH; intuition.
Qed.

Lemma sort_by_In (y : A) (l : list A) :
  In y (sort_by key le l) <-> In y l.
Proof.
  induction l as [| x t IH]; simpl; [reflexivity |].
  unfold sort_by in *. simpl. rewrite insert_In, IH. intuition.
Qed.

Lemma insert_app_le (x : A) (l1 l2 : list A) :
  (forall y, In y l2 -> le (key x) (key y) = true) ->
  insert key le x (l1 ++ l2) = insert key le x l1 ++ l2.
Proof.
  intros H. induction l1 as [| z t IH]; simpl.
  - destruct l2 as [| y l2']; [reflexivity |].
    simpl. rewrite H by now left. reflexivity.
  - destruct (le (key x) (key z)); [reflexivity |].
    simpl. now rewrite IH.
Qed.

(** Sorting a list whose front part is below its back part sorts the
    two parts on their own. *)
Lemma sort_by_app (l1 l2 : list A) :
  (forall x y, In x l1 -> In y l2 -> le (key x) (key y) = true) ->
  sort_by key le (l1 ++ l2) = sort_by key le l1 ++ sort_by key le l2.
Proof.
  intros H. induction l1 as [| x t IH]; [reflexivity |].
  unfold sort_by in *. simpl. rewrite IH.
  - apply insert_app_le. intros y Hy.
    apply H; [now left |]. now apply (sort_by_In y l2).
  - intros a b Ha Hb. apply H; [now right | exact Hb].
Qed.

Lemma insert_perm (x : A) (l : list A) :
  Permutation (insert key le x l) (x :: l).
Proof.
  induction l as [| y t IH]; simpl; [reflexivity |].
  destruct (le (key x) (key y)); [reflexivity |].
  rewrite IH. apply perm_swap.
Qed.

Lemma sort_by_perm (l : list A) : Permutation (sort_by key le l) l.
Proof.
  induction l as [| x t IH]; [reflexivity |].
  unfold sort_by in *. simpl. rewrite insert_perm. now constructor.
Qed.

End SortFacts.

Section SortExt.

Variables (A K1 K2 : Type) (key1 : A -> K1) (le1 : K1 -> K1 -> bool)
          (key2 : A -> K2) (le2 : K2 -> K2 -> bool).

Lemma insert_ext (x : A) (l : list A) :
  (forall y, In y l -> le1 (key1 x) (key1 y) = le2 (key2 x) (key2 y)) ->
  insert key1 le1 x l = insert key2 le2 x l.
Proof.
  induction l as [| z t IH]; intros H; simpl; [reflexivity |].
  rewrite (H z) by now left.
  destruct (le2 (key2 x) (key2 z)); [reflexivity |].
  f_equal. apply IH. intros y Hy. apply H. now right.
Qed.

(** Two orders that agree on the elements of a list sort it alike. *)
Lemma sort_by_ext (l : list A) :
  (forall x y, In x l -> In y l ->
               le1 (key1 x) (key1 y) = le2 (key2 x) (key2 y)) ->
  sort_by key1 le1 l = sort_by key2 le2 l.
Proof.
  induction l as [| x t IH]; intros H; [reflexivity |].
  unfold sort_by in *. simpl. rewrite IH.
  - apply insert_ext. intros y Hy. apply H; [now left |].
    right. now apply (sort_by_In key2 le2 y t).
  - intros a b Ha Hb. apply H; now right.
Qed.

End SortExt.

(** The sort by ticker puts the tickers in ascending order and keeps
    the entries. *)
Lemma sort_by_ticker_sorted (l : list hit) :
  LocallySorted
    (fun a b => String.leb (ticker a) (ticker b) = true)
    (sort_by ticker String.leb l).
Proof.
  induction l as [| x t IH]; [constructor |].
  unfold sort_by in *. simpl.
  induction IH as [| y | y z rest Hs IHs Hyz]; simpl.
  - constructor.
  - destruct (String.leb (ticker x) (ticker y)) eqn:E.
    + constructor; [constructor | exact E].
    + constructor; [constructor |].
      destruct (String.leb_total (ticker x) (ticker y)) as [H | H];
        [congruence | exact H].
  - destruct (String.leb (ticker x) (ticker y)) eqn:E.
    + constructor; [constructor; assumption | exact E].
    + simpl in IHs. destruct (String.leb (ticker x) (ticker z)) eqn:E2.
      * constructor; [exact IHs |].
        destruct (String.leb_total (ticker x) (ticker y)) as [H | H];
          [congruence | exact H].
      * constructor; [exact IHs | exact Hyz].
Qed.

(** The order of strings, as Python compares them: by code point,
    position by position. *)
Lemma ascii_compare_lt_trans (a b c : ascii) :
  Ascii.compare a b = Lt -> Ascii.compare b c = Lt -> Ascii.compare a c = Lt.
Proof.
  unfold Ascii.compare. rewrite !N.compare_lt_iff. apply N.lt_trans.
Qed.

Lemma string_compare_lt_trans (s1 : string) :
  forall s2 s3 : string,
    String.compare s1 s2 = Lt -> String.compare s2 s3 = Lt ->
    String.compare s1 s3 = Lt.
Proof.
  induction s1 as [| c1 s1 IH]; intros [| c2 s2] [| c3 s3]; simpl;
    try congruence.
  destruct (Ascii.compare c1 c2) eqn:E12;
    destruct (Ascii.compare c2 c3) eqn:E23; try discriminate;
    intros H12 H23.
  - apply Ascii.compare_eq_iff in E12. apply Ascii.compare_eq_iff in E23.
    subst c2 c3.
    replace (Ascii.compare c1 c1) with Eq
      by (symmetry; unfold Ascii.compare; apply N.compare_refl).
    now apply (IH s2 s3).
  - apply Ascii.compare_eq_iff in E12. subst c2. now rewrite E23.
  - apply Ascii.compare_eq_iff in E23. subst c3. now rewrite E12.
  - now rewrite (ascii_compare_lt_trans _ _ _ E12 E23).
Qed.

Lemma string_ltb_trans (s1 s2 s3 : string) :
  String.ltb s1 s2 = true -> String.ltb s2 s3 = true ->
  String.ltb s1 s3 = true.
Proof.
  unfold String.ltb.
  destruct (String.compare s1 s2) eqn:E12; try discriminate.
  destruct (String.compare s2 s3) eqn:E23; try discriminate.
  intros _ _. now rewrite (string_compare_lt_trans _ _ _ E12 E23).
Qed.

Lemma string_leb_ltb (s1 s2 : string) :
  String.leb s1 s2 = true -> s1 <> s2 -> String.ltb s1 s2 = true.
Proof.
  unfold String.leb, String.ltb.
  destruct (String.compare s1 s2) eqn:E; intros Hle Hne.
  - apply String.compare_eq_iff in E. contradiction.
  - reflexivity.
  - discriminate.
Qed.

Lemma strictly_sorted (l : list hit) :
  LocallySorted (fun a b => String.leb (ticker a) (ticker b) = true) l ->
  NoDup (map ticker l) ->
  LocallySorted (fun a b => String.ltb (ticker a) (ticker b) = true) l.
Proof.
  induction 1 as [| a | a b rest Hs IH Hab]; intros Hnd; constructor.
  - apply IH. now inversion Hnd.
  - apply string_leb_ltb; [exact Hab |].
    intros E. inversion Hnd as [| ? ? Hnotin _]; subst.
    apply Hnotin. left. now symmetry.
Qed.

(** Sorting hits with distinct tickers by ticker leaves every ticker
    below all the tickers after it. *)
Lemma sort_by_ticker_ascending (l : list hit) :
  NoDup (map ticker l) -> ascending (sort_by ticker String.leb l).
Proof.
  intros Hnd. unfold ascending. apply Sorted_StronglySorted.
  - intros a b c. apply string_ltb_trans.
  - apply Sorted_LocallySorted_iff. apply strictly_sorted.
    + apply sort_by_ticker_sorted.
    + apply (Permutation_NoDup (l := map ticker l)); [| exact Hnd].
      apply Permutation_map. symmetry. apply sort_by_perm.
Qed.

(** ** The three passes of the search *)

Section Passes.

Local Open Scope string_scope.

Variable table : list (string * (string * string)).
Hypothesis unique_tickers : NoDup (map fst table).

Lemma filter_exact_absent (q : string) (t : list (string * (string * string))) :
  ~ In q (map fst t) -> filter (is_exact q) t = [].
Proof.
  induction t as [| [k v] rest IH]; intros H; simpl; [reflexivity |].
  unfold is_exact at 1. simpl.
  destruct (String.eqb_spec k q) as [-> | Hne].
  - exfalso. apply H. now left.
  - apply IH. intros Hin. apply H. now right.
Qed.

Lemma filter_exact_find (q : string) (t : list (string * (string * string))) :
  NoDup (map fst t) ->
  filter (is_exact q) t
  = match find q t with Some v => [(q, v)] | None => [] end.
Proof.
  induction t as [| [k v] rest IH]; intros Hnd; simpl; [reflexivity |].
  inversion Hnd as [| ? ? Hk Hrest]; subst.
  unfold is_exact at 1. simpl.
  destruct (String.eqb_spec k q) as [-> | Hne].
  - now rewrite filter_exact_absent.
  - now apply IH.
Qed.

Lemma exact_hits_group (q : string) :
  exact_hits table q = map (as_hit "ticker_exact") (filter (is_exact q) table).
Proof.
  unfold exact_hits. rewrite (filter_exact_find q table unique_tickers).
  destruct (find q table) as [[n s] |]; reflexivity.
Qed.

Lemma prefix_hits_group (q : string) :
  prefix_hits table q
  = map (as_hit "ticker_prefix") (filter (is_prefix q) table).
Proof.
  unfold prefix_hits. clear unique_tickers.
  induction table as [| [t [n s]] rest IH]; simpl; [reflexivity |].
  unfold is_prefix at 1. simpl.
  destruct (startswith t q && negb (t =? q)); simpl; now rewrite IH.
Qed.

Lemma map_ticker_as_hit (kind : string) (l : list (string * (string * string))) :
  map ticker (map (as_hit kind) l) = map fst l.
Proof. rewrite map_map. reflexivity. Qed.

(** The third pass adds, in table order, the name matches whose ticker
    the earlier passes did not list. *)
Lemma name_hits_group (ql : string) (todo : list (string * (string * string))) :
  forall results : list hit,
    NoDup (map fst todo) ->
    name_hits ql results todo
    = (results
       ++ map (as_hit "name_match")
            (filter (fun e => is_name ql e
                              && negb (existsb (String.eqb (fst e))
                                               (map ticker results)))
                    todo))%list.
Proof.
  induction todo as [| [t [n s]] rest IH]; intros results Hnd.
  - simpl. now rewrite app_nil_r.
  - inversion Hnd as [| ? ? Ht Hrest]; subst.
    cbn [name_hits filter fst].
    change (is_name ql (t, (n, s))) with (contains ql (lower n)).
    destruct (contains ql (lower n)
              && negb (existsb (String.eqb t) (map ticker results))) eqn:E.
    + rewrite (IH _ Hrest). rewrite <- app_assoc. cbn [map app].
      f_equal. f_equal. f_equal. apply filter_ext_in. intros [t' v'] Hin.
      cbn [fst]. rewrite map_app, existsb_app. cbn [map existsb ticker].
      rewrite orb_false_r.
      destruct (String.eqb_spec t' t) as [-> | Hne];
        [| now rewrite orb_false_r].
      exfalso. apply Ht. apply in_map_iff. exists (t, v'). now split.
    + now apply IH.
Qed.

Lemma listed_by_ticker (p : string * (string * string) -> bool)
      (e : string * (string * string)) :
  (forall e1 e2, fst e1 = fst e2 -> p e1 = p e2) ->
  In e table ->
  existsb (String.eqb (fst e)) (map fst (filter p table)) = p e.
Proof.
  intros Hp Hin. destruct (p e) eqn:E.
  - apply existsb_exists. exists (fst e). split; [| apply String.eqb_refl].
    apply in_map. apply filter_In. now split.
  - destruct (existsb (String.eqb (fst e)) (map fst (filter p table))) eqn:Ex;
      [| reflexivity].
    apply existsb_exists in Ex. destruct Ex as (k & Hk & Heq).
    apply String.eqb_eq in Heq. subst k.
    apply in_map_iff in Hk. destruct Hk as (e' & Hfst & He').
    apply filter_In in He'. destruct He' as (_ & Hpe').
    rewrite (Hp e e') in E by now symmetry. congruence.
Qed.

(** The unsorted results are the three groups of the specification. *)
Lemma results_groups (qu ql : string) :
  name_hits ql (exact_hits table qu ++ prefix_hits table qu)%list table
  = (map (as_hit "ticker_exact") (filter (is_exact qu) table)
     ++ map (as_hit "ticker_prefix") (filter (is_prefix qu) table)
     ++ map (as_hit "name_match")
          (filter (fun e => is_name ql e && negb (is_exact qu e)
                            && negb (is_prefix qu e))
                  table))%list.
Proof.
  rewrite (name_hits_group ql table _ unique_tickers).
  rewrite exact_hits_group, prefix_hits_group, <- app_assoc.
  f_equal. f_equal. f_equal. apply filter_ext_in. intros e Hin.
  rewrite map_app, !map_ticker_as_hit, existsb_app.
  rewrite (listed_by_ticker (is_exact qu)), (listed_by_ticker (is_prefix qu));
    try exact Hin.
  - rewrite negb_orb, andb_assoc. reflexivity.
  - intros e1 e2 H. unfold is_prefix. now rewrite H.
  - intros e1 e2 H. unfold is_exact. now rewrite H.
Qed.

Lemma exact_group_short (qu : string) :
  (List.length (filter (is_exact qu) table) <= 1)%nat.
Proof.
  rewrite (filter_exact_find qu table unique_tickers).
  destruct (find qu table); simpl; lia.
Qed.

Lemma as_hit_key (kind : string) (l : list (string * (string * string)))
      (h : hit) :
  In h (map (as_hit kind) l) -> match_type h = kind.
Proof.
  intros H. apply in_map_iff in H. destruct H as (e & <- & _). reflexivity.
Qed.

Lemma sort_one_kind (kind : string) (l : list (string * (string * string))) :
  sort_by sort_key key_le (map (as_hit kind) l)
  = sort_by ticker String.leb (map (as_hit kind) l).
Proof.
  apply sort_by_ext. intros x y Hx Hy.
  unfold sort_key, key_le. simpl.
  rewrite (as_hit_key _ _ _ Hx), (as_hit_key _ _ _ Hy).
  now rewrite Z.ltb_irrefl, Z.eqb_refl.
Qed.

(** The search of the code is the ranked search of the specification,
    for a limit that is not negative. *)
Lemma search_in_ranked (query : string) (limit : Z) :
  query <> EmptyString -> (0 <= limit)%Z ->
  search_in table query limit = ranked_search table query limit.
Proof.
  intros Hq Hlim. unfold search_in, ranked_search.
  destruct query as [| c rest]; [congruence |].
  set (qu := strip (upper (String c rest))).
  set (ql := strip (lower (String c rest))).
  unfold slice_to. destruct (Z.ltb_spec limit 0) as [Hneg | _]; [lia |].
  f_equal. rewrite results_groups.
  unfold exact_group, prefix_group, name_group. fold qu. fold ql.
  rewrite sort_by_app.
  - rewrite sort_by_app.
    + rewrite !sort_one_kind. f_equal.
      pose proof (exact_group_short qu) as Hlen.
      destruct (filter (is_exact qu) table) as [| e [| e' t]];
        simpl in *; try reflexivity; lia.
    + intros x y Hx Hy. unfold sort_key, key_le. simpl.
      rewrite (as_hit_key _ _ _ Hx), (as_hit_key _ _ _ Hy). reflexivity.
  - intros x y Hx Hy. unfold sort_key, key_le. simpl.
    rewrite (as_hit_key _ _ _ Hx).
    apply in_app_or in Hy. destruct Hy as [Hy | Hy];
      rewrite (as_hit_key _ _ _ Hy); reflexivity.
Qed.

Lemma map_fst_filter_NoDup (p : string * (string * string) -> bool) :
  NoDup (map fst (filter p table)).
Proof.
  revert unique_tickers. clear.
  induction table as [| e rest IH]; intros Hnd; simpl; [constructor |].
  inversion Hnd as [| ? ? Hk Hrest]; subst.
  destruct (p e); [| now apply IH].
  simpl. constructor; [| now apply IH].
  intros Hin. apply Hk. apply in_map_iff in Hin.
  destruct Hin as (e' & E & He'). apply filter_In in He'.
  apply in_map_iff. exists e'. now split.
Qed.

End Passes.

(** ** C9: the stock directory *)

Section Directory.

Local Open Scope string_scope.

Lemma popular_stocks_unique : NoDup (map fst POPULAR_STOCKS).
Proof.
  assert (E : nodup string_dec (map fst POPULAR_STOCKS) = map fst POPULAR_STOCKS)
    by (vm_compute; reflexivity).
  rewrite <- E. apply NoDup_nodup.
Qed.

Lemma slice_to_one {A : Type} (x : A) (limit : Z) :
  1 <= limit -> slice_to [x] limit = [x].
Proof.
  intros H. unfold slice_to.
  destruct (Z.ltb_spec limit 0); [lia |].
  destruct (Z.to_nat limit) as [| n] eqn:E; [lia |].
  simpl. now rewrite firstn_nil.
Qed.

(** C9, as stated, fails for a negative limit: [results[:-1]] drops the
    last entry only, and the query "A" with limit -1 returns 40
    entries. *)
Lemma search_negative_limit :
  ~ (forall (query : string) (limit : Z),
        query <> EmptyString ->
        Z.of_nat (List.length (search_stocks query limit)) <= limit).
Proof.
  intros H. specialize (H "A" (-1)).
  assert (E : Z.of_nat (List.length (search_stocks "A" (-1))) = 40)
    by (vm_compute; reflexivity).
  rewrite E in H. assert (Hq : "A" <> EmptyString) by discriminate.
  specialize (H Hq). lia.
Qed.

(** C9, amended.  For every non-empty query and every limit that is
    not negative, [search_stocks] returns at most [limit] entries: the
    first [limit] entries of three groups put one after the other.  The
    first group is the entry whose ticker is the query (at most one),
    as [ticker_exact]; the second holds exactly the other entries whose
    ticker starts with the query, as [ticker_prefix]; the third holds
    exactly the entries whose name contains the query, whatever the
    case, and that are in neither of the first two, as [name_match].
    In the second and in the third group the tickers are strictly
    ascending: each is below every ticker after it.  This is the
    [ranked_search] of the specification.  With a limit of at least 1,
    the query "AAPL" returns the AAPL entry as [ticker_exact], first,
    and the query "Apple" returns AAPL as [name_match]. *)
Theorem search_stocks_ranked :
  forall (query : string) (limit : Z),
    query <> EmptyString ->
    0 <= limit ->
    search_stocks query limit = ranked_search POPULAR_STOCKS query limit
    /\ Z.of_nat (List.length (search_stocks query limit)) <= limit
    /\ (exists exact prefixes names : list hit,
           search_stocks query limit
           = firstn (Z.to_nat limit) (exact ++ prefixes ++ names)%list
           /\ exact
              = map (as_hit "ticker_exact")
                    (filter (is_exact (strip (upper query))) POPULAR_STOCKS)
           /\ (List.length exact <= 1)%nat
           /\ Permutation prefixes
                (map (as_hit "ticker_prefix")
                     (filter (is_prefix (strip (upper query))) POPULAR_STOCKS))
           /\ Permutation names
                (map (as_hit "name_match")
                     (filter (fun e =>
                                is_name (strip (lower query)) e
                                && negb (is_exact (strip (upper query)) e)
                                && negb (is_prefix (strip (upper query)) e))
                             POPULAR_STOCKS))
           /\ ascending prefixes
           /\ ascending names)
    /\ (1 <= limit ->
        search_stocks "AAPL" limit
        = [{| ticker := "AAPL"; name := "Apple Inc."; sector := "Technology";
              match_type := "ticker_exact" |}]
        /\ search_stocks "Apple" limit
           = [{| ticker := "AAPL"; name := "Apple Inc."; sector := "Technology";
                 match_type := "name_match" |}]).
Proof.
  intros query limit Hq Hlim.
  assert (E : search_stocks query limit = ranked_search POPULAR_STOCKS query limit).
  { unfold search_stocks. apply search_in_ranked;
      [exact popular_stocks_unique | exact Hq | exact Hlim]. }
  split; [exact E |]. split; [| split].
  - rewrite E. unfold ranked_search.
    match goal with |- context [firstn ?n ?l] =>
      pose proof (firstn_le_length n l) end.
    lia.
  - exists (exact_group POPULAR_STOCKS query),
           (prefix_group POPULAR_STOCKS query),
           (name_group POPULAR_STOCKS query).
    split; [exact E |]. split; [reflexivity |].
    split.
    { unfold exact_group. rewrite length_map.
      apply (@exact_group_short POPULAR_STOCKS popular_stocks_unique). }
    split; [apply sort_by_perm |]. split; [apply sort_by_perm |].
    split; apply sort_by_ticker_ascending; rewrite map_ticker_as_hit;
      apply (@map_fst_filter_NoDup POPULAR_STOCKS popular_stocks_unique).
  - intros H1. split.
    + transitivity
        (slice_to [{| ticker := "AAPL"; name := "Apple Inc.";
                      sector := "Technology"; match_type := "ticker_exact" |}]
                  limit);
        [vm_compute; reflexivity | now apply slice_to_one].
    + transitivity
        (slice_to [{| ticker := "AAPL"; name := "Apple Inc.";
                      sector := "Technology"; match_type := "name_match" |}]
                  limit);
        [vm_compute; reflexivity | now apply slice_to_one].
Qed.

End Directory.

(** ** Runs of the model *)

Section Runs.

Local Open Scope string_scope.

(** A price that doubles over ten periods has a momentum of 100 %. *)
Example momentum_doubling :
  exists m : Q,
    last (calculate_momentum (repeat (Fin 50) 10 ++ [Fin 100])%list 10) NaN = Fin m
    /\ (m == 100)%Q.
Proof. eexists. split; [vm_compute; reflexivity | reflexivity]. Qed.

(** The moving average skips nothing and waits for a full window; an
    infinite entry empties the windows it falls in. *)
Example sma_window_2 :
  calculate_sma [Fin 1; Fin 2; PInf; Fin 4; Fin 6] 2
  = Ok [NaN; Fin (3 # 2); NaN; NaN; Fin (10 # 2)].
Proof. reflexivity. Qed.

(** The exponential average over a gap: weights (1/2)^2 and 1/2. *)
Example ema_over_gap :
  calculate_ema [Fin 100; NaN; Fin 90] 3
  = Ok [Fin 100; Fin 100; Fin (286720 # 3072)].
Proof. reflexivity. Qed.

(** A window below 1 is refused by the exponential average, a negative
    one by the rolling mean. *)
Example bad_windows :
  calculate_ema [Fin 1] 0 = Raise ValueError
  /\ calculate_sma [Fin 1] (-1) = Raise ValueError.
Proof. split; reflexivity. Qed.

(** Three falling prices: no indicator has enough history, the
    short-term signal is HOLD on neutral grounds. *)
Example three_prices_hold :
  forall vol : Series -> Z -> Series,
    (forall s w, List.length (vol s w) = List.length s) ->
    let prices := {| index_len := 3;
                     columns := [("Close", [Fin 100; Fin 90; Fin 80])] |} in
    exists d,
      calculate_all_indicators vol prices = Ok d
      /\ generate_short_term_signal d prices
         = Ok ("HOLD", "Neutral technical indicators").
Proof.
  intros vol Hvol prices.
  unfold calculate_all_indicators. cbn -[iloc calculate_momentum].
  specialize (Hvol [Fin 100; Fin 90; Fin 80] 20).
  destruct (vol [Fin 100; Fin 90; Fin 80] 20) as [| v1 [| v2 [| v3 [| v4 t]]]];
    try discriminate Hvol.
  cbn. eexists. split; [reflexivity |].
  unfold generate_short_term_signal. cbn. reflexivity.
Qed.

(** The query "c": the exact match, the six prefixes in ticker order,
    then the name matches. *)
Example search_c :
  map (fun h => (ticker h, match_type h)) (search_stocks "c" 9)
  = [("C", "ticker_exact"); ("CAT", "ticker_prefix");
     ("CMCSA", "ticker_prefix"); ("COP", "ticker_prefix");
     ("CRM", "ticker_prefix"); ("CSCO", "ticker_prefix");
     ("CVX", "ticker_prefix"); ("AAPL", "name_match");
     ("ABBV", "name_match")].
Proof. vm_compute. reflexivity. Qed.

(** A query of blanks is stripped to the empty prefix of every ticker. *)
Example search_blank :
  map (fun h => (ticker h, match_type h)) (search_stocks " " 3)
  = [("AAPL", "ticker_prefix"); ("ABBV", "ticker_prefix");
     ("AMD", "ticker_prefix")].
Proof. vm_compute. reflexivity. Qed.

End Runs.

(** ** The theorems at sample inputs *)

Section Witnesses.

Import Samples.
Local Open Scope string_scope.

(** C1 on the crossing sample: scores 4 against 1, the signal is BUY. *)
Lemma short_term_signal_decision_witness :
  succeeded crossing = true
  /\ (exists st, short_term_scores crossing frame = Ok st
                 /\ buy_score st = 4 /\ sell_score st = 1)
  /\ exists reason,
      generate_short_term_signal crossing frame = Ok ("BUY", reason).
Proof.
  split; [reflexivity |].
  split; [eexists; split; [vm_compute; reflexivity | split; reflexivity] |].
  destruct (@short_term_signal_decision crossing frame
              {| buy_score := 4; sell_score := 1;
                 reasons := ["RSI = 25.2 (oversold)";
                             "Price crossed above SMA20 (bullish breakout)";
                             "Strong negative momentum (-11.3%)";
                             "High volume confirms bullish move"] |}
              eq_refl eq_refl)
    as (signal & reason & E & Hbuy & _).
  exists reason. rewrite E. f_equal. f_equal.
  apply Hbuy. simpl. lia.
Defined.

(** C2 on the crossing sample with one upgrade: buy_score 7, BUY. *)
Lemma long_term_signal_decision_witness :
  succeeded crossing = true
  /\ exists reason,
      generate_long_term_signal crossing frame [upgrade] = Ok ("BUY", reason).
Proof.
  split; [reflexivity |].
  destruct (@long_term_signal_decision crossing frame [upgrade] eq_refl)
    as (st & signal & reason & Est & E & Hbuy & _).
  exists reason. rewrite E. f_equal. f_equal.
  apply Hbuy. vm_compute in Est. injection Est as <-. simpl. lia.
Defined.

(** C3 on the crossing sample: SMA50 went from 99 to 101 against an
    SMA200 of 100. *)
Lemma long_cross_rule_scores_witness :
  long_cross_rule (get_latest crossing) (get_series crossing) start
  = Ok (buy 3 golden_cross start)
  /\ exists signal reason,
      generate_long_term_signal crossing frame [upgrade] = Ok (signal, reason)
      /\ occurs_in "Golden Cross" reason.
Proof.
  destruct (@long_cross_rule_scores crossing (Fin 101) (Fin 100) (Fin 99) (Fin 100)
              eq_refl eq_refl (le_n 2) eq_refl (or_introl eq_refl)
              frame [upgrade] start)
    as (Hup & _).
  destruct (Hup eq_refl) as (Hrule & _ & Hreason).
  split; [exact Hrule | exact (Hreason eq_refl)].
Defined.

(** C4 (amended) on three prices and the window 20. *)
Lemma short_series_indicators_witness :
  calculate_sma [Fin 100; Fin 90; Fin 80] 20 = Ok [NaN; NaN; NaN]
  /\ calculate_rsi [Fin 100; Fin 90; Fin 80] 20 = Ok [NaN; NaN; NaN]
  /\ exists ema, calculate_ema [Fin 100; Fin 90; Fin 80] 20 = Ok ema
                 /\ nth_error ema 0 = Some (Fin 100)
                 /\ Forall finite ema.
Proof.
  destruct (@short_series_indicators [Fin 100; Fin 90; Fin 80] 20 eq_refl)
    as (Hsma & Hrsi & ema & Hema & _ & Hhead & Hfin).
  split; [exact Hsma |]. split; [exact Hrsi |].
  exists ema. split; [exact Hema |]. split; [exact Hhead |].
  apply Hfin. repeat constructor; eexists; reflexivity.
Defined.

(** C5 (amended) on the prices 1, 2 with window 1: at the second
    position the loss average is 0, the gain average 1, the RSI 100. *)
Lemma rsi_at_zero_loss_witness :
  rsi_gain [Fin 1; Fin 2] 1 = Ok [Fin 0; Fin 1]
  /\ rsi_loss [Fin 1; Fin 2] 1 = Ok [Fin 0; Fin 0]
  /\ exists (out : Series) (v : Q),
      calculate_rsi [Fin 1; Fin 2] 1 = Ok out
      /\ nth_error out 1 = Some (Fin v) /\ (v == 100)%Q.
Proof.
  split; [reflexivity |]. split; [reflexivity |].
  destruct (@rsi_at_zero_loss [Fin 1; Fin 2] [Fin 0; Fin 1] [Fin 0; Fin 0]
              [NaN; Fin 100] 1 eq_refl eq_refl eq_refl
              1%nat (Fin 1) 0%Q eq_refl eq_refl (Qeq_refl 0))
    as (_ & Hgain & _).
  destruct (Hgain 1%Q eq_refl eq_refl) as (v & Hv & H100).
  exists [NaN; Fin 100], v. split; [reflexivity |]. split; assumption.
Defined.

(** C6 on the prices 1, 2, 1.5, 3 with window 2: the third value,
    200/3, is between 0 and 100. *)
Lemma rsi_bounded_witness :
  exists (out : Series) (q : Q),
    calculate_rsi [Fin 1; Fin 2; Fin 1.5; Fin 3] 2 = Ok out
    /\ nth_error out 2 = Some (Fin q) /\ (0 <= q <= 100)%Q.
Proof.
  destruct (@rsi_bounded [Fin 1; Fin 2; Fin 1.5; Fin 3]
              [NaN; Fin (1 # 2); Fin (1 # 2); Fin (15 # 20)]
              [NaN; Fin (0 # 2); Fin (5 # 20); Fin (5 # 20)]
              [NaN; Fin 100; Fin (2000 # 30); Fin (30000 # 400)]
              2 eq_refl eq_refl eq_refl 2%nat (Fin (2000 # 30)) eq_refl eq_refl)
    as (q & Hq & Hb).
  exists [NaN; Fin 100; Fin (2000 # 30); Fin (30000 # 400)], q.
  split; [reflexivity |]. split; [| exact Hb].
  simpl. now rewrite Hq.
Defined.

(** C7 on the crossing sample: the volume is twice its average and buy
    leads; the step adds the bullish note and no score. *)
Lemma volume_step_keeps_scores_witness :
  exists st3 : scores,
    short_term_rules crossing frame = Ok st3
    /\ buy_score st3 = 4 /\ sell_score st3 = 1.
Proof.
  destruct (@volume_step_keeps_scores crossing frame
              {| buy_score := 4; sell_score := 1;
                 reasons := ["RSI = 25.2 (oversold)";
                             "Price crossed above SMA20 (bullish breakout)";
                             "Strong negative momentum (-11.3%)";
                             "High volume confirms bullish move"] |}
              eq_refl)
    as (st3 & E & Hb & Hs & _).
  exists st3. simpl in Hb, Hs. split; [exact E |]. split; congruence.
Defined.

(** C8 on a frame without columns, and on a dictionary without success
    flag together with a frame on which the SMA20 rule would raise. *)
Lemma failures_are_tagged_results_witness :
  calculate_all_indicators (fun s _ => s) bare_frame
  = Ok (error_dict "Invalid price data")
  /\ short_term_scores unflagged bare_frame = Raise KeyError
  /\ generate_short_term_signal unflagged bare_frame
     = Ok ("HOLD", "Insufficient data for analysis")
  /\ generate_long_term_signal unflagged bare_frame [upgrade]
     = Ok ("HOLD", "Insufficient data for analysis").
Proof.
  destruct failures_are_tagged_results as (Hcalc & Hsig).
  split; [apply (Hcalc (fun s _ => s) bare_frame); left; reflexivity |].
  split; [reflexivity |].
  apply (Hsig unflagged bare_frame [upgrade]). reflexivity.
Defined.

(** C9 (amended) on the query "c" with the limit 9: C itself, then the
    other tickers in C, then the names with a c, in ascending order
    within each group. *)
Lemma search_stocks_ranked_witness :
  map ticker (search_stocks "c" 9)
  = ["C"; "CAT"; "CMCSA"; "COP"; "CRM"; "CSCO"; "CVX"; "AAPL"; "ABBV"]
  /\ Z.of_nat (List.length (search_stocks "c" 9)) <= 9
  /\ exists exact prefixes names : list hit,
       search_stocks "c" 9 = firstn 9 (exact ++ prefixes ++ names)
       /\ (List.length exact <= 1)%nat
       /\ ascending prefixes /\ ascending names.
Proof.
  assert (Hq : "c" <> EmptyString) by discriminate.
  assert (Hl : 0 <= 9) by lia.
  destruct (@search_stocks_ranked "c" 9 Hq Hl) as (_ & Hlen & Hgroups & _).
  split; [vm_compute; reflexivity |]. split; [exact Hlen |].
  destruct Hgroups as (exact & prefixes & names & E & _ & Hone & _ & _ & Hp & Hn).
  exists exact, prefixes, names.
  split; [exact E |]. split; [exact Hone |]. split; assumption.
Defined.

(** C10 on the crossing sample (price 105 over an SMA200 of 100), and
    on a price equal to its SMA200. *)
Lemma long_sma200_rule_fires_witness :
  buy_score (long_sma200_rule (get_latest crossing) start) = 3
  /\ sell_score
       (long_sma200_rule
          {| current_price := Some (Fin 100); sma_20 := None; sma_50 := None;
             sma_200 := Some (Fin 100); rsi := None; volatility := None;
             momentum := None |} start) = 2.
Proof.
  split.
  - destruct (@long_sma200_rule_fires (get_latest crossing) start (Fin 100)
                eq_refl eq_refl) as (_ & Hgt & _).
    destruct (Hgt eq_refl) as (Hb & _). exact Hb.
  - destruct (@long_sma200_rule_fires
                {| current_price := Some (Fin 100); sma_20 := None;
                   sma_50 := None; sma_200 := Some (Fin 100); rsi := None;
                   volatility := None; momentum := None |}
                start (Fin 100) eq_refl eq_refl) as (_ & _ & _ & Heq).
    destruct (Heq 100%Q 100%Q eq_refl eq_refl (Qeq_refl 100)) as (_ & Hs).
    exact Hs.
Defined.

End Witnesses.

(* ================================================================== *)
(** * Further properties *)
(* ================================================================== *)

From Stdlib Require DecimalPos DecimalN.

(** ** The stock directory: what a search returns *)

Lemma slice_to_firstn {A : Type} (l : list A) (n : Z) :
  exists k : nat, slice_to l n = firstn k l.
Proof. unfold slice_to. destruct (n <? 0); eexists; reflexivity. Qed.

Lemma firstn_In {A : Type} (k : nat) (l : list A) (x : A) :
  In x (firstn k l) -> In x l.
Proof.
  intros H. rewrite <- (firstn_skipn k l). apply in_or_app. now left.
Qed.

Lemma firstn_NoDup {A : Type} (k : nat) (l : list A) :
  NoDup l -> NoDup (firstn k l).
Proof.
  intros H. rewrite <- (firstn_skipn k l) in H.
  now apply NoDup_app_remove_r in H.
Qed.

Section SearchResults.

Local Open Scope string_scope.

Variable table : list (string * (string * string)).
Hypothesis unique_tickers : NoDup (map fst table).

Lemma find_In (k : string) (v : string * string) :
  In (k, v) table -> find k table = Some v.
Proof.
  revert unique_tickers. clear.
  induction table as [| [k' v'] rest IH]; intros Hnd Hin; [contradiction |].
  inversion Hnd as [| ? ? Hk Hrest]; subst. simpl.
  destruct Hin as [E | Hin].
  - injection E as -> ->. now rewrite String.eqb_refl.
  - destruct (String.eqb_spec k' k) as [-> | _]; [| now apply IH].
    exfalso. apply Hk. apply in_map_iff. exists (k, v). now split.
Qed.

Lemma find_Some_In (k : string) (v : string * string) :
  find k table = Some v -> In (k, v) table.
Proof.
  clear. induction table as [| [k' v'] rest IH]; simpl; [discriminate |].
  destruct (String.eqb_spec k' k) as [-> | _].
  - intros E. injection E as ->. now left.
  - intros E. right. now apply IH.
Qed.

Lemma search_in_found (query : string) (limit : Z) :
  query <> EmptyString ->
  search_in table query limit
  = slice_to (sort_by sort_key key_le (found table query)) limit.
Proof. destruct query; [congruence | reflexivity]. Qed.

Lemma search_in_from_found (query : string) (limit : Z) (h : hit) :
  In h (search_in table query limit) -> In h (found table query).
Proof.
  destruct query as [| c rest]; [contradiction |].
  rewrite search_in_found by discriminate.
  destruct (slice_to_firstn (sort_by sort_key key_le (found table (String c rest))) limit)
    as (k & ->).
  intros H. apply firstn_In in H. now apply sort_by_In in H.
Qed.

Lemma as_hit_entry (kind : string) (e : string * (string * string)) :
  (ticker (as_hit kind e), (name (as_hit kind e), sector (as_hit kind e))) = e.
Proof. destruct e as [t [n s]]. reflexivity. Qed.

Lemma prefix_refl (s : string) : String.prefix s s = true.
Proof.
  induction s as [| c s IH]; [reflexivity |].
  simpl. destruct (ascii_dec c c); [exact IH | congruence].
Qed.

Lemma found_justified (query : string) (h : hit) :
  In h (found table query) -> justified table query h.
Proof.
  unfold found, justified. rewrite (results_groups table unique_tickers).
  intros H. apply in_app_or in H. destruct H as [H | H];
    [| apply in_app_or in H; destruct H as [H | H]];
    apply in_map_iff in H; destruct H as (e & <- & He);
    apply filter_In in He; destruct He as (Hin & Hp);
    rewrite as_hit_entry; (split; [exact Hin |]).
  - left. split; [reflexivity |]. unfold is_exact in Hp.
    now apply String.eqb_eq in Hp.
  - right. left. split; [reflexivity |]. unfold is_prefix in Hp.
    apply andb_prop in Hp. destruct Hp as (Hs & Hne). split; [exact Hs |].
    simpl. intros E. rewrite E, String.eqb_refl in Hne. discriminate.
  - right. right. split; [reflexivity |].
    apply andb_prop in Hp. destruct Hp as (Hp & Hnp).
    apply andb_prop in Hp. destruct Hp as (Hn & Hne).
    split; [exact Hn |]. simpl.
    unfold is_prefix, is_exact in *.
    destruct (String.eqb_spec (fst e) (strip (upper query))) as [E | _];
      [discriminate |].
    simpl in Hnp. rewrite andb_true_r in Hnp.
    now destruct (startswith (fst e) (strip (upper query))).
Qed.

Lemma found_distinct (query : string) : NoDup (map ticker (found table query)).
Proof.
  unfold found. rewrite (results_groups table unique_tickers).
  rewrite !map_app, !map_ticker_as_hit.
  set (qu := strip (upper query)). set (ql := strip (lower query)).
  assert (Hkey : forall (p : string * (string * string) -> bool) k,
             In k (map fst (filter p table)) ->
             exists e, In e table /\ p e = true /\ fst e = k).
  { intros p k Hk. apply in_map_iff in Hk. destruct Hk as (e & E & He).
    apply filter_In in He. exists e. tauto. }
  apply NoDup_app; [now apply map_fst_filter_NoDup | |].
  - apply NoDup_app; [now apply map_fst_filter_NoDup .. |].
    intros k H1 H2.
    apply Hkey in H1. destruct H1 as (e1 & _ & P1 & E1).
    apply Hkey in H2. destruct H2 as (e2 & _ & P2 & E2).
    apply andb_prop in P2. destruct P2 as (_ & P2).
    assert (E : is_prefix qu e2 = is_prefix qu e1)
      by (unfold is_prefix; now rewrite E1, E2).
    rewrite E, P1 in P2. discriminate.
  - intros k H1 H2. apply Hkey in H1. destruct H1 as (e1 & _ & P1 & E1).
    unfold is_exact in P1. rewrite E1 in P1.
    apply in_app_or in H2. destruct H2 as [H2 | H2];
      apply Hkey in H2; destruct H2 as (e2 & _ & P2 & E2).
    + unfold is_prefix in P2. rewrite E2, P1 in P2.
      rewrite andb_false_r in P2. discriminate.
    + apply andb_prop in P2. destruct P2 as (P2 & _).
      apply andb_prop in P2. destruct P2 as (_ & P2).
      unfold is_exact in P2. rewrite E2, P1 in P2. discriminate.
Qed.

Lemma search_in_distinct (query : string) (limit : Z) :
  NoDup (map ticker (search_in table query limit)).
Proof.
  destruct query as [| c rest]; [constructor |].
  rewrite search_in_found by discriminate.
  destruct (slice_to_firstn (sort_by sort_key key_le (found table (String c rest))) limit)
    as (k & ->).
  rewrite <- firstn_map. apply firstn_NoDup.
  apply Permutation_NoDup with (l := map ticker (found table (String c rest))).
  - apply Permutation_map. symmetry. apply sort_by_perm.
  - apply found_distinct.
Qed.

(** Every entry that matches is found. *)
Lemma found_complete (query : string) (t n s : string) :
  In (t, (n, s)) table ->
  startswith t (strip (upper query)) = true
  \/ contains (strip (lower query)) (lower n) = true ->
  exists h, In h (found table query) /\ ticker h = t /\ name h = n /\ sector h = s.
Proof.
  intros Hin Hm. unfold found. rewrite (results_groups table unique_tickers).
  set (qu := strip (upper query)) in *. set (ql := strip (lower query)) in *.
  destruct (is_exact qu (t, (n, s))) eqn:Ee.
  { exists (as_hit "ticker_exact" (t, (n, s))). split; [| now repeat split].
    apply in_or_app. left. apply in_map. apply filter_In. now split. }
  destruct (is_prefix qu (t, (n, s))) eqn:Ep.
  { exists (as_hit "ticker_prefix" (t, (n, s))). split; [| now repeat split].
    apply in_or_app. right. apply in_or_app. left.
    apply in_map. apply filter_In. now split. }
  exists (as_hit "name_match" (t, (n, s))). split; [| now repeat split].
  apply in_or_app. right. apply in_or_app. right.
  apply in_map. apply filter_In. split; [exact Hin |].
  rewrite Ee, Ep. simpl. rewrite !andb_true_r.
  destruct Hm as [Hs | Hc]; [| exact Hc].
  unfold is_prefix, is_exact in *. simpl in *.
  rewrite Hs, Ee in Ep. discriminate.
Qed.

Lemma length_found (query : string) :
  (List.length (found table query) <= List.length table)%nat.
Proof.
  pose proof (found_distinct query) as Hnd.
  rewrite <- (length_map ticker (found table query)), <- (length_map fst table).
  apply NoDup_incl_length; [exact Hnd |].
  intros k Hk. apply in_map_iff in Hk. destruct Hk as (h & <- & Hh).
  apply found_justified in Hh. destruct Hh as (Hin & _).
  apply in_map_iff. exists (ticker h, (name h, sector h)). now split.
Qed.

Lemma search_in_complete (query : string) (limit : Z) (t n s : string) :
  query <> EmptyString ->
  (Z.of_nat (List.length table) <= limit)%Z ->
  In (t, (n, s)) table ->
  startswith t (strip (upper query)) = true
  \/ contains (strip (lower query)) (lower n) = true ->
  exists h, In h (search_in table query limit)
            /\ ticker h = t /\ name h = n /\ sector h = s.
Proof.
  intros Hq Hlim Hin Hm.
  destruct (found_complete query t n s Hin Hm) as (h & Hh & Ht).
  exists h. split; [| exact Ht].
  rewrite search_in_found by exact Hq. unfold slice_to.
  destruct (Z.ltb_spec limit 0); [lia |].
  rewrite firstn_all2.
  - now apply sort_by_In.
  - rewrite (Permutation_length (sort_by_perm sort_key key_le (found table query))).
    pose proof (length_found query). lia.
Qed.

End SearchResults.

(** ** Case of the query *)

Section CaseFolding.

Lemma upper_char_idem (c : ascii) : upper_char (upper_char c) = upper_char c.
Proof. destruct c as [[] [] [] [] [] [] [] []]; reflexivity. Qed.

Lemma lower_char_idem (c : ascii) : lower_char (lower_char c) = lower_char c.
Proof. destruct c as [[] [] [] [] [] [] [] []]; reflexivity. Qed.

Lemma lower_upper_char (c : ascii) : lower_char (upper_char c) = lower_char c.
Proof. destruct c as [[] [] [] [] [] [] [] []]; reflexivity. Qed.

Lemma upper_lower_char (c : ascii) : upper_char (lower_char c) = upper_char c.
Proof. destruct c as [[] [] [] [] [] [] [] []]; reflexivity. Qed.

Lemma map_string_compose (f g h : ascii -> ascii) (s : string) :
  (forall c, f (g c) = h c) ->
  map_string f (map_string g s) = map_string h s.
Proof.
  intros H. induction s as [| c s IH]; simpl; [reflexivity |].
  now rewrite H, IH.
Qed.

Lemma upper_idem (s : string) : upper (upper s) = upper s.
Proof. apply map_string_compose, upper_char_idem. Qed.

Lemma lower_idem (s : string) : lower (lower s) = lower s.
Proof. apply map_string_compose, lower_char_idem. Qed.

Lemma lower_upper (s : string) : lower (upper s) = lower s.
Proof. apply map_string_compose, lower_upper_char. Qed.

Lemma upper_lower (s : string) : upper (lower s) = upper s.
Proof. apply map_string_compose, upper_lower_char. Qed.

End CaseFolding.

(** ** X1 - X5: the stock directory *)

Section DirectoryResults.

Local Open Scope string_scope.

Lemma search_hits_are_entries_aux (query : string) (limit : Z) (h : hit) :
  In h (search_stocks query limit) ->
  In (ticker h, (name h, sector h)) POPULAR_STOCKS.
Proof.
  intros H. unfold search_stocks in H. apply search_in_from_found in H.
  exact (proj1 (found_justified POPULAR_STOCKS popular_stocks_unique query h H)).
Qed.

(** X1.  Every entry [search_stocks] returns, for any query and any
    limit, is an entry of the table with its own name and sector, and
    its match_type tells how it matched: ticker_exact for the ticker
    equal to the stripped upper-case query, ticker_prefix for another
    ticker starting with it, name_match for a name containing the
    stripped lower-case query while the ticker does not start with the
    query. *)
Theorem search_hits_are_entries :
  forall (query : string) (limit : Z) (h : hit),
    In h (search_stocks query limit) ->
    In (ticker h, (name h, sector h)) POPULAR_STOCKS
    /\ ((match_type h = "ticker_exact"
         /\ ticker h = strip (upper query))
        \/ (match_type h = "ticker_prefix"
            /\ startswith (ticker h) (strip (upper query)) = true
            /\ ticker h <> strip (upper query))
        \/ (match_type h = "name_match"
            /\ contains (strip (lower query)) (lower (name h)) = true
            /\ startswith (ticker h) (strip (upper query)) = false)).
Proof.
  intros query limit h H. unfold search_stocks in H.
  apply search_in_from_found in H.
  exact (found_justified POPULAR_STOCKS popular_stocks_unique query h H).
Qed.

(** X2.  No ticker is returned twice, whatever the query and the
    limit. *)
Theorem search_hits_distinct :
  forall (query : string) (limit : Z),
    NoDup (map ticker (search_stocks query limit)).
Proof.
  intros. unfold search_stocks.
  apply search_in_distinct, popular_stocks_unique.
Qed.

(** X3.  With a limit of at least the size of the table, a non-empty
    query returns every stock whose ticker starts with the stripped
    upper-case query or whose lower-case name contains the stripped
    lower-case query. *)
Theorem search_finds_every_match :
  forall (query : string) (limit : Z) (t n s : string),
    query <> EmptyString ->
    Z.of_nat (List.length POPULAR_STOCKS) <= limit ->
    In (t, (n, s)) POPULAR_STOCKS ->
    startswith t (strip (upper query)) = true
    \/ contains (strip (lower query)) (lower n) = true ->
    exists h, In h (search_stocks query limit)
              /\ ticker h = t /\ name h = n /\ sector h = s.
Proof.
  intros. unfold search_stocks.
  now apply search_in_complete; [apply popular_stocks_unique | ..].
Qed.

(** X4.  Every entry a search returns is one of [get_all_stocks], and
    [get_stock_display_name] of its ticker is "TICKER - name" with the
    name the search returned; a ticker that [get_all_stocks] does not
    list is displayed as it is. *)
Theorem display_name_of_hits :
  (forall (query : string) (limit : Z) (h : hit),
      In h (search_stocks query limit) ->
      In {| stock_ticker := ticker h; stock_name := name h;
            stock_sector := sector h |} get_all_stocks
      /\ get_stock_display_name (ticker h) = ticker h ++ " - " ++ name h)
  /\ (forall t : string,
         ~ In t (map stock_ticker get_all_stocks) ->
         get_stock_display_name t = t).
Proof.
  split.
  - intros query limit h H.
    apply search_hits_are_entries_aux in H.
    split.
    + unfold get_all_stocks, all_stocks_of. apply in_map_iff.
      exists (ticker h, (name h, sector h)). split; [reflexivity | exact H].
    + unfold get_stock_display_name, display_name_in.
      now rewrite (find_In POPULAR_STOCKS popular_stocks_unique _ _ H).
  - intros t Ht. unfold get_stock_display_name, display_name_in.
    destruct (find t POPULAR_STOCKS) as [[n s] |] eqn:E; [| reflexivity].
    exfalso. apply Ht. apply find_Some_In in E.
    unfold get_all_stocks, all_stocks_of. rewrite map_map.
    apply in_map_iff. exists (t, (n, s)). split; [reflexivity | exact E].
Qed.

(** X5.  The search does not see the case of the query: the query in
    upper case and the query in lower case return what the query
    returns. *)
Theorem search_ignores_case :
  forall (query : string) (limit : Z),
    search_stocks (upper query) limit = search_stocks query limit
    /\ search_stocks (lower query) limit = search_stocks query limit.
Proof.
  intros query limit. unfold search_stocks.
  destruct query as [| c rest]; [split; reflexivity |].
  split.
  - change (upper (String c rest)) with (String (upper_char c) (upper rest)).
    rewrite !search_in_found by discriminate. unfold found.
    change (String (upper_char c) (upper rest)) with (upper (String c rest)).
    now rewrite upper_idem, lower_upper.
  - change (lower (String c rest)) with (String (lower_char c) (lower rest)).
    rewrite !search_in_found by discriminate. unfold found.
    change (String (lower_char c) (lower rest)) with (lower (String c rest)).
    now rewrite lower_idem, upper_lower.
Qed.

End DirectoryResults.

(** ** X6 - X8: the scores of the signal engine *)

Section ScoreBounds.

Local Open Scope string_scope.

Lemma step_of_same kb ks st : step_of kb ks st st.
Proof. now left. Qed.

Lemma step_of_buy kb ks k why st :
  1 <= k <= kb -> step_of kb ks st (buy k why st).
Proof. intros H. right. left. now exists k, why. Qed.

Lemma step_of_sell kb ks k why st :
  1 <= k <= ks -> step_of kb ks st (sell k why st).
Proof. intros H. right. right. now exists k, why. Qed.

Lemma scored_step bb bs bt n kb ks st st' :
  0 <= kb -> 0 <= ks ->
  scored bb bs bt n st -> step_of kb ks st st' ->
  scored (bb + kb) (bs + ks) (bt + Z.max kb ks) (S n) st'.
Proof.
  intros Hkb Hks (Hb & Hs & Ht & Hn & Hiff) Hstep. unfold scored.
  destruct Hstep as [-> | [(k & why & Hk & ->) | (k & why & Hk & ->)]].
  - repeat (split; [lia |]). exact Hiff.
  - simpl. rewrite length_app. simpl. repeat (split; [lia |]). split.
    + intros E. apply app_eq_nil in E. destruct E as (_ & E). discriminate E.
    + intros (E1 & E2). lia.
  - simpl. rewrite length_app. simpl. repeat (split; [lia |]). split.
    + intros E. apply app_eq_nil in E. destruct E as (_ & E). discriminate E.
    + intros (E1 & E2). lia.
Qed.

Lemma scored_start : scored 0 0 0 0 start.
Proof. unfold scored, start; simpl. repeat split; lia. Qed.

Ltac step_cases :=
  repeat match goal with
         | |- context [if ?c then _ else _] => destruct c
         end;
  first [apply step_of_same | apply step_of_buy; lia | apply step_of_sell; lia].

Lemma short_rsi_rule_step l st : step_of 2 2 st (short_rsi_rule l st).
Proof.
  unfold short_rsi_rule. destruct (rsi l); [| apply step_of_same]. step_cases.
Qed.

Lemma short_sma20_rule_step l series pd st st' :
  short_sma20_rule l series pd st = Ok st' -> step_of 2 2 st st'.
Proof.
  unfold short_sma20_rule.
  destruct (sma_20 l);
    [| intros E; injection E as <-; apply step_of_same].
  destruct (get_price l >? Fin 0)%num;
    [| intros E; injection E as <-; apply step_of_same].
  destruct (negb (empty (series_or_empty (s_sma_20 series)))
            && (2 <=? List.length (series_or_empty (s_sma_20 series)))%nat);
    [| intros E; injection E as <-; apply step_of_same].
  intros H.
  apply bind_ok in H. destruct H as (pp & _ & H).
  apply bind_ok in H. destruct H as (ps & _ & H).
  injection H as <-. step_cases.
Qed.

Lemma short_momentum_rule_step l st :
  step_of 1 1 st (short_momentum_rule l st).
Proof.
  unfold short_momentum_rule. destruct (momentum l); [| apply step_of_same].
  step_cases.
Qed.

Lemma long_sma200_rule_step l st : step_of 3 2 st (long_sma200_rule l st).
Proof.
  unfold long_sma200_rule. destruct (sma_200 l); [| apply step_of_same].
  step_cases.
Qed.

Lemma long_cross_rule_step l series st st' :
  long_cross_rule l series st = Ok st' -> step_of 3 3 st st'.
Proof.
  unfold long_cross_rule.
  destruct (sma_50 l); [| intros E; injection E as <-; apply step_of_same].
  destruct (sma_200 l); [| intros E; injection E as <-; apply step_of_same].
  destruct (negb (empty (series_or_empty (s_sma_50 series)))
            && negb (empty (series_or_empty (s_sma_200 series)))
            && (2 <=? List.length (series_or_empty (s_sma_50 series)))%nat);
    [| intros E; injection E as <-; apply step_of_same].
  intros H.
  apply bind_ok in H. destruct H as (p50 & _ & H).
  apply bind_ok in H. destruct H as (p200 & _ & H).
  injection H as <-. step_cases.
Qed.

Lemma long_momentum_rule_step l st :
  step_of 2 2 st (long_momentum_rule l st).
Proof.
  unfold long_momentum_rule. destruct (momentum l); [| apply step_of_same].
  step_cases.
Qed.

Lemma long_analyst_rule_step recs st :
  step_of 1 1 st (long_analyst_rule recs st).
Proof.
  unfold long_analyst_rule. destruct recs; [apply step_of_same |].
  step_cases.
Qed.

(** X6.  The scores the short-term signal decides on are bounded:
    neither is negative, each is at most 5 and so is their sum (every
    rule scores for one side only); there are at most four reasons, and
    there is no reason exactly when both scores are 0. *)
Theorem short_term_scores_bounded :
  forall (ind : IndicatorDict) (price_data : DataFrame) (st : scores),
    short_term_scores ind price_data = Ok st ->
    0 <= buy_score st <= 5
    /\ 0 <= sell_score st <= 5
    /\ buy_score st + sell_score st <= 5
    /\ (List.length (reasons st) <= 4)%nat
    /\ (reasons st = [] <-> buy_score st = 0 /\ sell_score st = 0).
Proof.
  intros ind pd st H. unfold short_term_scores in H.
  apply bind_ok in H. destruct H as (st3 & H3 & Hvol).
  unfold short_term_rules in H3.
  apply bind_ok in H3. destruct H3 as (st2 & H2 & H3). injection H3 as E3.
  pose proof (scored_step (kb := 2) (ks := 2) ltac:(lia) ltac:(lia)
                scored_start (short_rsi_rule_step (get_latest ind) start)) as S1.
  pose proof (scored_step (kb := 2) (ks := 2) ltac:(lia) ltac:(lia)
                S1 (short_sma20_rule_step _ _ _ _ H2)) as S2.
  pose proof (scored_step (kb := 1) (ks := 1) ltac:(lia) ltac:(lia)
                S2 (short_momentum_rule_step (get_latest ind) st2)) as S3.
  rewrite E3 in S3. simpl in S3. destruct S3 as (Hb & Hs & Ht & Hn & Hiff).
  apply short_volume_rule_frame in Hvol.
  destruct Hvol as (Eb & Es & Hr). rewrite Eb, Es.
  assert (Hcases : reasons st = reasons st3
                   \/ (buy_score st3 <> sell_score st3
                       /\ exists note, reasons st = (reasons st3 ++ [note])%list)).
  { destruct Hr as [E | (va & vol & cur & avg & _ & _ & _ & _ & _ & _ & Hlead)];
      [now left | right].
    destruct Hlead as [(Hl & E) | (Hl & E)];
      (split; [lia | eexists; exact E]). }
  repeat (split; [lia |]).
  destruct Hcases as [E | (Hne & note & E)]; rewrite E.
  - split; [lia | exact Hiff].
  - rewrite length_app. simpl. split; [lia |]. split.
    + intros E0. apply app_eq_nil in E0. destruct E0 as (_ & E0).
      discriminate E0.
    + intros (E1 & E2). lia.
Qed.

(** X7.  The scores the long-term signal decides on are bounded:
    buy_score lies between 0 and 9, sell_score between 0 and 8, their
    sum is at most 9; there are at most four reasons, and there is no
    reason exactly when both scores are 0. *)
Theorem long_term_scores_bounded :
  forall (ind : IndicatorDict) (recommendations : list Recommendation)
         (st : scores),
    long_term_scores ind recommendations = Ok st ->
    0 <= buy_score st <= 9
    /\ 0 <= sell_score st <= 8
    /\ buy_score st + sell_score st <= 9
    /\ (List.length (reasons st) <= 4)%nat
    /\ (reasons st = [] <-> buy_score st = 0 /\ sell_score st = 0).
Proof.
  intros ind recs st H. unfold long_term_scores in H.
  apply bind_ok in H. destruct H as (st2 & H2 & H). injection H as <-.
  pose proof (scored_step (kb := 3) (ks := 2) ltac:(lia) ltac:(lia)
                scored_start (long_sma200_rule_step (get_latest ind) start)) as S1.
  pose proof (scored_step (kb := 3) (ks := 3) ltac:(lia) ltac:(lia)
                S1 (long_cross_rule_step _ _ _ H2)) as S2.
  pose proof (scored_step (kb := 2) (ks := 2) ltac:(lia) ltac:(lia)
                S2 (long_momentum_rule_step (get_latest ind) st2)) as S3.
  pose proof (scored_step (kb := 1) (ks := 1) ltac:(lia) ltac:(lia)
                S3 (long_analyst_rule_step recs _)) as S4.
  exact S4.
Qed.

Lemma skipn_older {A : Type} (older recent : list A) (n : nat) :
  List.length recent = n ->
  skipn (List.length (older ++ recent) - n) (older ++ recent) = recent.
Proof.
  intros H. rewrite length_app, H.
  replace (List.length older + n - n)%nat with (List.length older) by lia.
  rewrite skipn_app, skipn_all, Nat.sub_diag. reflexivity.
Qed.

(** X8.  Only the five most recent recommendations count for the
    long-term signal: older records put in front of five records change
    neither the signal nor the reason. *)
Theorem long_term_uses_last_five :
  forall (ind : IndicatorDict) (price_data : DataFrame)
         (older recent : list Recommendation),
    List.length recent = 5%nat ->
    generate_long_term_signal ind price_data (older ++ recent)
    = generate_long_term_signal ind price_data recent.
Proof.
  intros ind pd older recent H5.
  assert (E : forall st,
             long_analyst_rule (older ++ recent) st
             = long_analyst_rule recent st).
  { intros st. unfold long_analyst_rule.
    destruct recent as [| r0 recent']; [discriminate H5 |].
    destruct (older ++ r0 :: recent')%list as [| x rest] eqn:Eapp.
    { now apply app_eq_nil in Eapp. }
    rewrite <- Eapp.
    assert (Hlen : (5 <=? List.length (older ++ r0 :: recent'))%nat = true).
    { apply Nat.leb_le. rewrite length_app. lia. }
    rewrite Hlen, (skipn_older older (r0 :: recent') H5).
    rewrite H5. simpl. reflexivity. }
  unfold generate_long_term_signal, long_term_scores.
  destruct (negb (succeeded ind)); [reflexivity |].
  destruct (long_cross_rule (get_latest ind) (get_series ind)
              (long_sma200_rule (get_latest ind) start)); simpl;
    [now rewrite E | reflexivity].
Qed.

End ScoreBounds.

(** ** X9, X10: the moving averages *)

Section RollingValues.

Lemma rolling_mean_ok (s : Series) (w : Z) :
  0 <= w ->
  rolling_mean s w
  = Ok (map (fun i => window_mean (Z.to_nat w) (window_at (Z.to_nat w) s i))
            (seq 0 (List.length s))).
Proof.
  intros H. unfold rolling_mean.
  destruct (Z.ltb_spec w 0); [lia | reflexivity].
Qed.

Lemma rolling_mean_length (s out : Series) (w : Z) :
  rolling_mean s w = Ok out -> List.length out = List.length s.
Proof.
  unfold rolling_mean. destruct (w <? 0); [discriminate |].
  intros E. injection E as <-. now rewrite length_map, length_seq.
Qed.

Lemma rolling_mean_nth (s out : Series) (w : Z) (i : nat) :
  rolling_mean s w = Ok out -> (i < List.length s)%nat ->
  nth_error out i
  = Some (window_mean (Z.to_nat w) (window_at (Z.to_nat w) s i)).
Proof.
  unfold rolling_mean. destruct (w <? 0); [discriminate |].
  intros E Hi. injection E as <-.
  rewrite nth_error_map, nth_error_seq.
  destruct (Nat.ltb_spec i (List.length s)); [reflexivity | lia].
Qed.

Lemma rolling_mean_warmup (s out : Series) (w : Z) (i : nat) :
  rolling_mean s w = Ok out ->
  (i < List.length s)%nat -> Z.of_nat i < w - 1 ->
  nth_error out i = Some NaN.
Proof.
  intros E Hi Hw. rewrite (rolling_mean_nth _ _ E Hi). f_equal.
  apply window_mean_short. pose proof (length_window_at (Z.to_nat w) s i). lia.
Qed.




Lemma observed_missing (win : Series) :
  In NaN win -> (List.length (observed win) < List.length win)%nat.
Proof.
  induction win as [| x t IH]; intros H; [contradiction |].
  pose proof (length_observed t) as Ht.
  change (observed (x :: t))
    with ((match x with Fin q => [q] | _ => [] end) ++ observed t)%list.
  rewrite length_app. destruct H as [-> | H].
  - simpl. lia.
  - specialize (IH H). destruct x; simpl; lia.
Qed.

Lemma window_at_In (w : nat) (s : Series) (i j : nat) (x : num) :
  (j <= i)%nat -> (i < j + w)%nat -> nth_error s j = Some x ->
  In x (window_at w s i).
Proof.
  intros Hji Hw Hx. unfold window_at.
  apply (@nth_error_In _ _ (j - (i + 1 - w))).
  rewrite nth_error_skipn, nth_error_firstn.
  replace (i + 1 - w + (j - (i + 1 - w)))%nat with j by lia.
  destruct (Nat.ltb_spec j (i + 1)); [exact Hx | lia].
Qed.

Lemma length_window_le (w : nat) (s : Series) (i : nat) :
  (List.length (window_at w s i) <= w)%nat.
Proof. unfold window_at. rewrite length_skipn, length_firstn. lia. Qed.

(** A window that holds a missing entry has no mean. *)
Lemma window_mean_missing (w : nat) (s : Series) (i : nat) :
  In NaN (window_at w s i) -> window_mean w (window_at w s i) = NaN.
Proof.
  intros H. unfold window_mean.
  pose proof (observed_missing _ H) as Hobs.
  pose proof (length_window_le w s i) as Hle.
  destruct (Nat.leb_spec w (List.length (observed (window_at w s i))));
    [lia | reflexivity].
Qed.

End RollingValues.

Section MovingAverages.

(** X9.  [calculate_sma] raises ValueError for a negative window.  For
    a window of at least 1 it returns a Series as long as its input;
    the positions before w - 1 are NaN, and so is every position whose
    window, the last w entries up to it, holds a missing price. *)
Theorem sma_aligned_warmup :
  forall (data : Series) (w : Z),
    (w < 0 -> calculate_sma data w = Raise ValueError)
    /\ (1 <= w ->
        exists out : Series,
          calculate_sma data w = Ok out
          /\ List.length out = List.length data
          /\ (forall i : nat,
                 (i < List.length data)%nat -> Z.of_nat i < w - 1 ->
                 nth_error out i = Some NaN)
          /\ (forall i j : nat,
                 (i < List.length data)%nat ->
                 (j <= i)%nat -> Z.of_nat i < Z.of_nat j + w ->
                 nth_error data j = Some NaN ->
                 nth_error out i = Some NaN)).
Proof.
  intros data w. split.
  - intros Hw. unfold calculate_sma, rolling_mean.
    destruct (Z.ltb_spec w 0); [reflexivity | lia].
  - intros Hw. unfold calculate_sma. eexists. split;
      [apply rolling_mean_ok; lia |].
    pose proof (@rolling_mean_ok data w ltac:(lia)) as E.
    split; [exact (rolling_mean_length _ _ E) |].
    split; [intros i Hi Hlt; exact (rolling_mean_warmup _ _ E Hi Hlt) |].
    intros i j Hi Hji Hwin Hj. rewrite (rolling_mean_nth _ _ E Hi). f_equal.
    apply window_mean_missing.
    apply (@window_at_In (Z.to_nat w) data i j NaN); [exact Hji | lia | exact Hj].
Qed.

End MovingAverages.

Section EwmRange.

Variables (a lo hi : Q).
Hypothesis alpha_range : (0 < a <= 1)%Q.

Lemma ewm_step_range (st : ewm_state) (cur : num) :
  in_range lo hi (weighted st) -> old_wt st = Fin 1 -> (1 <= nobs st)%nat ->
  in_range lo hi cur ->
  let st' := ewm_step (Fin a) st cur in
  in_range lo hi (weighted st') /\ old_wt st' = Fin 1 /\ (1 <= nobs st')%nat.
Proof.
  intros (w0 & Hw & Hw0) Hold Hn (c & -> & Hc).
  destruct st as [wt ow n]; simpl in *.
  subst wt ow. unfold ewm_step; simpl.
  split; [| split; [reflexivity | lia]].
  destruct (Qeq_bool w0 c); simpl; [now exists w0 |].
  destruct (Qeq_bool (1 * (1 + - a) + a) 0) eqn:E.
  { apply Qeq_bool_iff in E. exfalso. lra. }
  eexists. split; [reflexivity |].
  assert (Hd : (0 < 1 * (1 + - a) + a)%Q) by lra.
  split.
  - apply Qle_shift_div_l; [exact Hd |]. nra.
  - apply Qle_shift_div_r; [exact Hd |]. nra.
Qed.

Lemma ewm_scan_range (s : Series) :
  forall st : ewm_state,
    in_range lo hi (weighted st) -> old_wt st = Fin 1 -> (1 <= nobs st)%nat ->
    Forall (in_range lo hi) s ->
    Forall (in_range lo hi) (ewm_scan (Fin a) st s).
Proof.
  induction s as [| cur t IH]; intros st Hw Hold Hn Hs; simpl; [constructor |].
  inversion Hs as [| ? ? Hcur Ht]; subst.
  destruct (ewm_step_range st Hw Hold Hn Hcur) as (Hw' & Hold' & Hn').
  constructor.
  - unfold ewm_out. destruct (Nat.leb_spec 1 (nobs (ewm_step (Fin a) st cur)));
      [exact Hw' | lia].
  - now apply IH.
Qed.

End EwmRange.

(** X10.  [calculate_ema] raises ValueError for a span below 1; for a
    span of at least 1 it returns a Series as long as its input, and
    when all prices are numbers between [lo] and [hi], so is every
    value of the average: it never leaves the range of the prices. *)
Theorem ema_within_price_range :
  forall (data : Series) (w : Z),
    (w < 1 -> calculate_ema data w = Raise ValueError)
    /\ (1 <= w ->
        exists out : Series,
          calculate_ema data w = Ok out
          /\ List.length out = List.length data
          /\ forall lo hi : Q,
              Forall (in_range lo hi) data -> Forall (in_range lo hi) out).
Proof.
  intros data w. unfold calculate_ema, ewm_mean. split.
  - intros Hw. destruct (Z.ltb_spec w 1); [reflexivity | lia].
  - intros Hw. destruct (Z.ltb_spec w 1); [lia |].
    destruct data as [| x0 t].
    + exists []. repeat split. intros. constructor.
    + eexists. split; [reflexivity |]. split.
      * simpl. now rewrite length_ewm_scan.
      * intros lo hi Hr. inversion Hr as [| ? ? Hx Ht]; subst.
        pose proof Hx as (q & -> & Hq). constructor; [exact Hx |].
        apply ewm_scan_range; simpl; try lia; try reflexivity;
          [| exact Hx | exact Ht].
        assert (Hpos : (0 < inject_Z (w + 1))%Q).
        { change 0%Q with (inject_Z 0). rewrite <- Zlt_Qlt. lia. }
        split.
        -- apply Qlt_shift_div_l; [exact Hpos | lra].
        -- apply Qle_shift_div_r; [exact Hpos |].
           rewrite inject_Z_plus. change (inject_Z 1) with 1%Q.
           assert (1 <= inject_Z w)%Q
             by (change 1%Q with (inject_Z 1); rewrite <- Zle_Qle; lia).
           lra.
Qed.

(** ** X11: momentum *)

Section Momentum.

Lemma length_map2 (f : num -> num -> num) (s t : Series) :
  List.length (map2 f s t) = Nat.min (List.length s) (List.length t).
Proof.
  revert t. induction s as [| x s IH]; intros [| y t]; simpl;
    try reflexivity. now rewrite IH.
Qed.

Lemma length_shift (s : Series) (k : Z) :
  List.length (shift s k) = List.length s.
Proof.
  unfold shift. destruct (k <? 0);
    rewrite length_app, repeat_length, ?length_skipn, ?length_firstn; lia.
Qed.

Lemma nth_error_shift (s : Series) (k : Z) (i : nat) :
  0 <= k -> (i < List.length s)%nat ->
  nth_error (shift s k) i
  = if (i <? Z.to_nat k)%nat then Some NaN
    else nth_error s (i - Z.to_nat k).
Proof.
  intros Hk Hi. unfold shift.
  destruct (Z.ltb_spec k 0); [lia |].
  destruct (Nat.ltb_spec i (Z.to_nat k)) as [Hlt | Hge].
  - rewrite nth_error_app1 by (rewrite repeat_length; lia).
    apply nth_error_repeat. lia.
  - rewrite nth_error_app2 by (rewrite repeat_length; lia).
    rewrite repeat_length.
    replace (Nat.min (Z.to_nat k) (List.length s)) with (Z.to_nat k) by lia.
    rewrite nth_error_firstn.
    destruct (Nat.ltb_spec (i - Z.to_nat k) (List.length s - Z.to_nat k));
      [reflexivity | lia].
Qed.

(** X11.  For a window that is not negative, [calculate_momentum]
    returns a Series as long as its input; a position with fewer than
    [w] prices before it is NaN, and a later position holds
    (price / price w positions earlier - 1) * 100; nothing is raised,
    whatever the prices are. *)
Theorem momentum_values :
  forall (data : Series) (w : Z) (i : nat) (x : num),
    0 <= w ->
    nth_error data i = Some x ->
    List.length (calculate_momentum data w) = List.length data
    /\ (Z.of_nat i < w ->
        nth_error (calculate_momentum data w) i = Some NaN)
    /\ (forall p : num,
           w <= Z.of_nat i ->
           nth_error data (i - Z.to_nat w) = Some p ->
           nth_error (calculate_momentum data w) i
           = Some ((x / p - Fin 1) * Fin 100)%num).
Proof.
  intros data w i x Hw Hx.
  assert (Hi : (i < List.length data)%nat).
  { apply nth_error_Some. congruence. }
  unfold calculate_momentum.
  split; [rewrite length_map, length_map2, length_shift; lia |].
  rewrite nth_error_map, nth_error_map2, Hx, (nth_error_shift _ Hw Hi).
  split.
  - intros Hlt. destruct (Nat.ltb_spec i (Z.to_nat w)); [| lia].
    simpl. destruct x; reflexivity.
  - intros p Hge Hp. destruct (Nat.ltb_spec i (Z.to_nat w)); [lia |].
    rewrite Hp. reflexivity.
Qed.

End Momentum.

(** ** X12, X13: the RSI *)

Section RsiShape.







Lemma calculate_rsi_ok (data : Series) (w : Z) :
  0 <= w ->
  exists gain loss : Series,
    rsi_gain data w = Ok gain /\ rsi_loss data w = Ok loss
    /\ calculate_rsi data w = Ok (map2 rsi_of gain loss)
    /\ List.length gain = List.length data
    /\ List.length loss = List.length data.
Proof.
  intros Hw. unfold calculate_rsi, rsi_gain, rsi_loss.
  rewrite !rolling_mean_ok by exact Hw. cbn [bind].
  eexists. eexists. repeat (split; [reflexivity |]).
  rewrite !length_map, !length_seq, ?length_neg_series, !length_where_,
    !length_diff.
  split; reflexivity.
Qed.

(** X12.  [calculate_rsi] raises ValueError for a negative window;
    otherwise it returns a Series as long as its input whose positions
    before w - 1 are NaN.  (The first difference counts as a zero
    change, so position w - 1 already has a full window.) *)
Theorem rsi_aligned_warmup :
  forall (data : Series) (w : Z),
    (w < 0 -> calculate_rsi data w = Raise ValueError)
    /\ (0 <= w ->
        exists out : Series,
          calculate_rsi data w = Ok out
          /\ List.length out = List.length data
          /\ forall i : nat,
              (i < List.length data)%nat -> Z.of_nat i < w - 1 ->
              nth_error out i = Some NaN).
Proof.
  intros data w. split.
  - intros Hw. unfold calculate_rsi, rsi_gain, rolling_mean.
    destruct (Z.ltb_spec w 0); [reflexivity | lia].
  - intros Hw.
    destruct (calculate_rsi_ok data Hw) as (gain & loss & Eg & El & E & Lg & Ll).
    exists (map2 rsi_of gain loss). split; [exact E |].
    split; [rewrite length_map2; lia |].
    intros i Hi Hlt. rewrite nth_error_map2.
    unfold rsi_gain in Eg. unfold rsi_loss in El.
    assert (Hg : nth_error gain i = Some NaN).
    { apply (rolling_mean_warmup _ _ Eg); [| exact Hlt].
      rewrite length_where_, length_diff. exact Hi. }
    assert (Hl : nth_error loss i = Some NaN).
    { apply (rolling_mean_warmup _ _ El); [| exact Hlt].
      rewrite length_neg_series, length_where_, length_diff. exact Hi. }
    rewrite Hg, Hl. reflexivity.
Qed.

End RsiShape.

Section RsiTrend.









Variables (prices : list Q) (w : Z) (i : nat).
Hypothesis window_ok : 1 <= w.
Hypothesis past_first : (1 <= i)%nat.
Hypothesis window_full : w - 1 <= Z.of_nat i.
Hypothesis in_series : (i < List.length prices)%nat.

Let data : Series := map Fin prices.






End RsiTrend.

(** ** X14 - X16: all indicators of a price frame *)

Section AllIndicatorsFacts.

Local Open Scope string_scope.

Lemma iloc_last_ok (s : Series) :
  (1 <= List.length s)%nat -> exists x, iloc s (-1) = Ok x.
Proof.
  intros H. destruct (@iloc_back_ok s 1) as (x & E & _); [lia |].
  now exists x.
Qed.

Lemma calculate_ema_length (data : Series) (w : Z) :
  1 <= w ->
  exists out, calculate_ema data w = Ok out
              /\ List.length out = List.length data.
Proof.
  intros Hw. unfold calculate_ema, ewm_mean.
  destruct (Z.ltb_spec w 1); [lia |].
  destruct data as [| x0 t]; [now exists [] |].
  eexists. split; [reflexivity |]. simpl. now rewrite length_ewm_scan.
Qed.

Lemma length_calculate_momentum (data : Series) (w : Z) :
  List.length (calculate_momentum data w) = List.length data.
Proof.
  unfold calculate_momentum.
  rewrite length_map, length_map2, length_shift. lia.
Qed.

Lemma unless_nan_not_nan (x : num) : unless_nan x <> Some NaN.
Proof. destruct x; simpl; discriminate. Qed.

Lemma unless_nan_nan (x : num) : x = NaN -> unless_nan x = None.
Proof. intros ->. reflexivity. Qed.

Variable calculate_volatility : Series -> Z -> Series.
Hypothesis volatility_aligned :
  forall s w, List.length (calculate_volatility s w) = List.length s.

Variable price_data : DataFrame.
Hypothesis frame_ok : well_formed price_data.
Hypothesis not_empty : df_empty price_data = false.
Hypothesis has_close : has_column "Close" price_data = true.

Lemma has_rows : (1 <= index_len price_data)%nat.
Proof.
  pose proof not_empty as H. unfold df_empty in H.
  apply orb_false_elim in H. destruct H as (H & _).
  apply Nat.eqb_neq in H. lia.
Qed.

(** The dictionary [calculate_all_indicators] builds, field by field. *)
Lemma calculate_all_indicators_ok :
  exists (close sma20 sma50 sma200 ema12 ema26 rsi14 : Series)
         (volume_avg : option Series)
         (price l20 l50 l200 lrsi lvol lmom : num),
    column "Close" price_data = Ok close
    /\ calculate_sma close 20 = Ok sma20
    /\ calculate_sma close 50 = Ok sma50
    /\ calculate_sma close 200 = Ok sma200
    /\ calculate_ema close 12 = Ok ema12
    /\ calculate_ema close 26 = Ok ema26
    /\ calculate_rsi close 14 = Ok rsi14
    /\ (if has_column "Volume" price_data
        then exists v r, column "Volume" price_data = Ok v
                         /\ rolling_mean v 20 = Ok r /\ volume_avg = Some r
        else volume_avg = None)
    /\ iloc close (-1) = Ok price
    /\ iloc sma20 (-1) = Ok l20
    /\ iloc sma50 (-1) = Ok l50
    /\ iloc sma200 (-1) = Ok l200
    /\ iloc rsi14 (-1) = Ok lrsi
    /\ iloc (calculate_volatility close 20) (-1) = Ok lvol
    /\ iloc (calculate_momentum close 10) (-1) = Ok lmom
    /\ calculate_all_indicators calculate_volatility price_data
       = Ok {| error := None;
               indicators :=
                 Some {| s_sma_20 := Some sma20; s_sma_50 := Some sma50;
                         s_sma_200 := Some sma200; s_ema_12 := Some ema12;
                         s_ema_26 := Some ema26; s_rsi := Some rsi14;
                         s_volatility := Some (calculate_volatility close 20);
                         s_momentum := Some (calculate_momentum close 10);
                         s_volume_avg := volume_avg |};
               latest :=
                 Some {| current_price := Some price;
                         sma_20 := unless_nan l20;
                         sma_50 := unless_nan l50;
                         sma_200 := unless_nan l200;
                         rsi := unless_nan lrsi;
                         volatility := unless_nan lvol;
                         momentum := unless_nan lmom |};
               success := Some true |}.
Proof.
  pose proof has_rows as Hrows.
  destruct (has_column_ok price_data "Close" has_close) as (close & Ec).
  pose proof (column_length frame_ok "Close" Ec) as Hlen.
  assert (E20 := @rolling_mean_ok close 20 ltac:(lia)).
  assert (E50 := @rolling_mean_ok close 50 ltac:(lia)).
  assert (E200 := @rolling_mean_ok close 200 ltac:(lia)).
  destruct (@calculate_ema_length close 12 ltac:(lia)) as (ema12 & E12 & L12).
  destruct (@calculate_ema_length close 26 ltac:(lia)) as (ema26 & E26 & L26).
  destruct (@calculate_rsi_ok close 14 ltac:(lia))
    as (gain & loss & _ & _ & Ersi & Lg & Ll).
  destruct (@iloc_last_ok close) as (price & Eprice); [lia |].
  destruct (@iloc_last_ok
              (map (fun i => window_mean (Z.to_nat 20) (window_at (Z.to_nat 20) close i))
                   (seq 0 (List.length close)))) as (l20 & El20);
    [rewrite length_map, length_seq; lia |].
  destruct (@iloc_last_ok
              (map (fun i => window_mean (Z.to_nat 50) (window_at (Z.to_nat 50) close i))
                   (seq 0 (List.length close)))) as (l50 & El50);
    [rewrite length_map, length_seq; lia |].
  destruct (@iloc_last_ok
              (map (fun i => window_mean (Z.to_nat 200) (window_at (Z.to_nat 200) close i))
                   (seq 0 (List.length close)))) as (l200 & El200);
    [rewrite length_map, length_seq; lia |].
  destruct (@iloc_last_ok (map2 rsi_of gain loss)) as (lrsi & Elrsi);
    [rewrite length_map2; lia |].
  destruct (@iloc_last_ok (calculate_volatility close 20)) as (lvol & Elvol);
    [rewrite volatility_aligned; lia |].
  destruct (@iloc_last_ok (calculate_momentum close 10)) as (lmom & Elmom);
    [rewrite length_calculate_momentum; lia |].
  assert (Hvolume :
            exists volume_avg : option Series,
              (if has_column "Volume" price_data
               then v <- column "Volume" price_data ;;
                    r <- rolling_mean v 20 ;; Ok (Some r)
               else Ok None) = Ok volume_avg
              /\ (if has_column "Volume" price_data
                  then exists v r, column "Volume" price_data = Ok v
                                   /\ rolling_mean v 20 = Ok r
                                   /\ volume_avg = Some r
                  else volume_avg = None)).
  { destruct (has_column "Volume" price_data) eqn:Hv.
    - destruct (has_column_ok price_data "Volume" Hv) as (v & Ev).
      rewrite Ev. cbn [bind].
      rewrite (@rolling_mean_ok v 20 ltac:(lia)). cbn [bind].
      eexists. split; [reflexivity |]. exists v. eexists.
      split; [reflexivity |]. split; [apply rolling_mean_ok; lia | reflexivity].
    - exists None. split; reflexivity. }
  destruct Hvolume as (volume_avg & Evol & Hvolume).
  eexists close, _, _, _, ema12, ema26, _, volume_avg,
          price, l20, l50, l200, lrsi, lvol, lmom.
  split; [exact Ec |].
  split; [exact E20 |]. split; [exact E50 |]. split; [exact E200 |].
  split; [exact E12 |]. split; [exact E26 |]. split; [exact Ersi |].
  split; [exact Hvolume |].
  split; [exact Eprice |].
  split; [exact El20 |]. split; [exact El50 |]. split; [exact El200 |].
  split; [exact Elrsi |]. split; [exact Elvol |]. split; [exact Elmom |].
  unfold calculate_all_indicators.
  rewrite not_empty, has_close. cbn [negb orb].
  rewrite Ec. cbn [bind].
  unfold calculate_sma in *. rewrite E20, E50, E200. cbn [bind].
  rewrite E12, E26, Ersi. cbn [bind].
  rewrite Evol. cbn [bind].
  rewrite Eprice, El20, El50, El200, Elrsi, Elvol, Elmom. reflexivity.
Qed.

End AllIndicatorsFacts.

Section ShortHistory.

Local Open Scope string_scope.

Lemma iloc_In (s : Series) (i : Z) (x : num) : iloc s i = Ok x -> In x s.
Proof.
  unfold iloc.
  match goal with
  | |- (if ?c then _ else _) = _ -> _ => destruct c; [| discriminate]
  end.
  match goal with
  | |- match ?o with _ => _ end = _ -> _ =>
      destruct o as [y |] eqn:E; [| discriminate]
  end.
  intros H. injection H as <-. now apply nth_error_In in E.
Qed.

Lemma iloc_repeat_nan (n : nat) (i : Z) (x : num) :
  iloc (repeat NaN n) i = Ok x -> x = NaN.
Proof. intros H. apply iloc_In in H. now apply repeat_spec in H. Qed.

Lemma calculate_rsi_short (data : Series) (w : Z) :
  Z.of_nat (List.length data) < w ->
  calculate_rsi data w = Ok (repeat NaN (List.length data)).
Proof.
  intros H. unfold calculate_rsi, rsi_gain, rsi_loss.
  rewrite !rolling_mean_short
    by (rewrite ?length_neg_series, length_where_, length_diff; exact H).
  cbn [bind]. rewrite ?length_neg_series, !length_where_, !length_diff.
  f_equal. apply map2_repeat.
Qed.

Lemma calculate_momentum_short (data : Series) (w : Z) (x : num) :
  Z.of_nat (List.length data) <= w ->
  In x (calculate_momentum data w) -> x = NaN.
Proof.
  intros Hw Hx. apply In_nth_error in Hx. destruct Hx as (i & Hi).
  assert (Hlt : (i < List.length data)%nat).
  { rewrite <- (length_calculate_momentum data w).
    apply nth_error_Some. congruence. }
  unfold calculate_momentum in Hi.
  rewrite nth_error_map, nth_error_map2 in Hi.
  rewrite (@nth_error_shift data w i ltac:(lia) Hlt) in Hi.
  destruct (nth_error data i) as [d |]; [| discriminate].
  destruct (Nat.ltb_spec i (Z.to_nat w)); [| lia].
  simpl in Hi. injection Hi as <-. destruct d; reflexivity.
Qed.

Variable calculate_volatility : Series -> Z -> Series.
Hypothesis volatility_aligned :
  forall s w, List.length (calculate_volatility s w) = List.length s.

Variable price_data : DataFrame.
Hypothesis frame_ok : well_formed price_data.
Hypothesis not_empty : df_empty price_data = false.
Hypothesis has_close : has_column "Close" price_data = true.

(** X14.  On a well-formed, non-empty frame with a Close column
    [calculate_all_indicators] raises nothing: it returns a dictionary
    with the success flag and no error, whose nine Series all have as
    many entries as the frame has rows (the volume average is there
    exactly when the frame has a Volume column), whose current price is
    the last close, and whose latest values are never NaN: a value
    without enough history is absent. *)
Theorem all_indicators_aligned :
  exists (d : IndicatorDict) (series : IndicatorSeries) (l : Latest)
         (close : Series) (price : num),
    calculate_all_indicators calculate_volatility price_data = Ok d
    /\ error d = None /\ success d = Some true
    /\ indicators d = Some series /\ latest d = Some l
    /\ column "Close" price_data = Ok close
    /\ iloc close (-1) = Ok price
    /\ current_price l = Some price
    /\ Forall (aligned (index_len price_data)) (all_series series)
    /\ (s_volume_avg series = None <-> has_column "Volume" price_data = false)
    /\ Forall (fun o => o <> Some NaN) (latest_values l).
Proof.
  destruct (@calculate_all_indicators_ok calculate_volatility
              volatility_aligned price_data frame_ok not_empty has_close)
    as (close & sma20 & sma50 & sma200 & ema12 & ema26 & rsi14 & volume_avg
        & price & l20 & l50 & l200 & lrsi & lvol & lmom
        & Ec & E20 & E50 & E200 & E12 & E26 & Ersi & Hvol & Eprice
        & _ & _ & _ & _ & _ & _ & E).
  pose proof (column_length frame_ok "Close" Ec) as Hlen.
  eexists. eexists. eexists. exists close, price.
  split; [exact E |]. cbn [error success indicators latest current_price].
  repeat (split; [first [reflexivity | assumption] |]).
  split; [| split].
  - unfold all_series, aligned.
    cbn [s_sma_20 s_sma_50 s_sma_200 s_ema_12 s_ema_26 s_rsi s_volatility
         s_momentum s_volume_avg].
    destruct (@calculate_ema_length close 12 ltac:(lia)) as (o12 & F12 & L12).
    destruct (@calculate_ema_length close 26 ltac:(lia)) as (o26 & F26 & L26).
    destruct (@calculate_rsi_ok close 14 ltac:(lia))
      as (gain & loss & _ & _ & Frsi & Lg & Ll).
    rewrite F12 in E12. injection E12 as <-.
    rewrite F26 in E26. injection E26 as <-.
    rewrite Frsi in Ersi. injection Ersi as <-.
    unfold calculate_sma in *.
    repeat constructor;
      rewrite ?(rolling_mean_length _ _ E20), ?(rolling_mean_length _ _ E50),
        ?(rolling_mean_length _ _ E200), ?length_map2, ?volatility_aligned,
        ?length_calculate_momentum; try lia.
    destruct (has_column "Volume" price_data) eqn:Hv.
    + destruct Hvol as (v & r & Ev & Er & ->).
      rewrite (rolling_mean_length _ _ Er).
      exact (column_length frame_ok "Volume" Ev).
    + now rewrite Hvol.
  - cbn [s_volume_avg]. destruct (has_column "Volume" price_data).
    + destruct Hvol as (v & r & _ & _ & ->). split; discriminate.
    + rewrite Hvol. split; reflexivity.
  - unfold latest_values. cbn [sma_20 sma_50 sma_200 rsi volatility momentum].
    repeat constructor; apply unless_nan_not_nan.
Qed.

(** X15.  With at most ten rows no indicator has enough history: on a
    well-formed, non-empty frame with a Close column and at most ten
    rows, the indicators are computed, the short-term signal is HOLD
    with "Neutral technical indicators" and the long-term signal
    without recommendations is HOLD with "Mixed long-term
    indicators". *)
Theorem short_history_holds :
  (index_len price_data <= 10)%nat ->
  exists d : IndicatorDict,
    calculate_all_indicators calculate_volatility price_data = Ok d
    /\ generate_short_term_signal d price_data
       = Ok ("HOLD", "Neutral technical indicators")
    /\ generate_long_term_signal d price_data []
       = Ok ("HOLD", "Mixed long-term indicators").
Proof.
  intros Hshort.
  destruct (@calculate_all_indicators_ok calculate_volatility
              volatility_aligned price_data frame_ok not_empty has_close)
    as (close & sma20 & sma50 & sma200 & ema12 & ema26 & rsi14 & volume_avg
        & price & l20 & l50 & l200 & lrsi & lvol & lmom
        & Ec & E20 & E50 & E200 & E12 & E26 & Ersi & Hvol & Eprice
        & El20 & El50 & El200 & Elrsi & Elvol & Elmom & E).
  pose proof (column_length frame_ok "Close" Ec) as Hlen.
  pose proof (@has_rows price_data not_empty) as Hrows.
  unfold calculate_sma in *.
  rewrite rolling_mean_short in E20, E50, E200 by lia.
  injection E20 as <-. injection E50 as <-. injection E200 as <-.
  rewrite calculate_rsi_short in Ersi by lia. injection Ersi as <-.
  apply iloc_repeat_nan in El20, El50, El200, Elrsi. subst l20 l50 l200 lrsi.
  assert (lmom = NaN).
  { apply iloc_In in Elmom. apply calculate_momentum_short in Elmom; [easy | lia]. }
  subst lmom. cbn [unless_nan isnan] in E.
  eexists. split; [exact E |].
  unfold generate_short_term_signal, generate_long_term_signal.
  cbn [succeeded success negb].
  unfold short_term_scores, short_term_rules, long_term_scores.
  cbn [get_latest get_series latest indicators].
  unfold short_rsi_rule, short_sma20_rule, short_momentum_rule,
    long_sma200_rule, long_cross_rule, long_momentum_rule, long_analyst_rule.
  cbn [rsi sma_20 sma_50 sma_200 momentum bind].
  split; [| reflexivity].
  unfold short_volume_rule. cbn [s_volume_avg].
  destruct (has_column "Volume" price_data) eqn:Hv.
  - destruct Hvol as (v & r & Ev & Er & ->).
    pose proof (column_length frame_ok "Volume" Ev) as Hvlen.
    rewrite rolling_mean_short in Er by lia. injection Er as <-.
    rewrite Ev. cbn [bind].
    destruct (@iloc_last_ok v) as (cur & Ecur); [lia |].
    destruct (@iloc_last_ok (repeat NaN (List.length v))) as (avg & Eavg);
      [rewrite repeat_length; lia |].
    rewrite Ecur, Eavg. pose proof (iloc_repeat_nan _ _ Eavg) as ->.
    destruct (repeat NaN (List.length v)); reflexivity.
  - rewrite Hvol. reflexivity.
Qed.

(** X16.  On such a frame [get_price_trend], given the SMA(20) and
    SMA(50) of the closes, raises nothing and answers Bullish, Bearish
    or Neutral; with fewer than 50 rows the answer is Neutral.  On a
    frame with rows and columns but no Close column it raises KeyError
    as soon as both Series have entries. *)
Theorem price_trend_of_closes :
  (forall (close sma20 sma50 : Series),
      column "Close" price_data = Ok close ->
      calculate_sma close 20 = Ok sma20 ->
      calculate_sma close 50 = Ok sma50 ->
      (exists t, get_price_trend price_data sma20 sma50 = Ok t
                 /\ (t = "Bullish" \/ t = "Bearish" \/ t = "Neutral"))
      /\ ((index_len price_data < 50)%nat ->
          get_price_trend price_data sma20 sma50 = Ok "Neutral"))
  /\ (forall (other : DataFrame) (s20 s50 : Series),
         df_empty other = false -> has_column "Close" other = false ->
         s20 <> [] -> s50 <> [] ->
         get_price_trend other s20 s50 = Raise KeyError).
Proof.
  split.
  - intros close sma20 sma50 Ec E20 E50.
    pose proof (column_length frame_ok "Close" Ec) as Hlen.
    pose proof (@has_rows price_data not_empty) as Hrows.
    unfold calculate_sma in *.
    pose proof (rolling_mean_length _ _ E20) as L20.
    pose proof (rolling_mean_length _ _ E50) as L50.
    destruct (@iloc_last_ok close) as (price & Eprice); [lia |].
    destruct (@iloc_last_ok sma20) as (v20 & Ev20); [lia |].
    destruct (@iloc_last_ok sma50) as (v50 & Ev50); [lia |].
    assert (Hunfold :
              get_price_trend price_data sma20 sma50
              = if isnan v20 || isnan v50 then Ok "Neutral"
                else if (price >? v20)%num && (v20 >? v50)%num then Ok "Bullish"
                else if (price <? v20)%num && (v20 <? v50)%num then Ok "Bearish"
                else Ok "Neutral").
    { unfold get_price_trend. rewrite not_empty.
      destruct sma20 as [| a s]; [simpl in L20; lia |].
      destruct sma50 as [| b s']; [simpl in L50; lia |].
      cbn [empty orb]. rewrite Ec. cbn [bind].
      rewrite Eprice, Ev20, Ev50. reflexivity. }
    split.
    + rewrite Hunfold.
      repeat match goal with
             | |- context [if ?c then _ else _] => destruct c
             end; eexists; split; try reflexivity; tauto.
    + intros Hlt. rewrite Hunfold.
      rewrite rolling_mean_short in E50 by lia. injection E50 as <-.
      apply iloc_repeat_nan in Ev50. subst v50.
      now rewrite orb_true_r.
  - intros other s20 s50 Hne Hnc H20 H50. unfold get_price_trend.
    rewrite Hne. destruct s20; [congruence |]. destruct s50; [congruence |].
    cbn [empty orb]. unfold column. unfold has_column in Hnc.
    destruct (lookup "Close" (columns other)); [discriminate | reflexivity].
Qed.

End ShortHistory.

(** ** X17 - X19: the sentiment tally and the momentum table *)

Section Tally.

Local Open Scope string_scope.

Lemma count_nonneg (p : Recommendation -> bool) (l : list Recommendation) :
  0 <= count p l.
Proof. unfold count. lia. Qed.

Lemma grades_exclusive (r : Recommendation) :
  (graded buy_grades r = true ->
   graded hold_grades r = false /\ graded sell_grades r = false)
  /\ (graded hold_grades r = true -> graded sell_grades r = false).
Proof.
  unfold graded, buy_grades, hold_grades, sell_grades.
  generalize (upper match toGrade r with Some g => g | None => EmptyString end).
  intros g. cbn [existsb].
  split.
  - intros H. rewrite !orb_false_r in *.
    apply orb_prop in H. destruct H as [H | H];
      [| apply orb_prop in H; destruct H as [H | H]];
      apply String.eqb_eq in H; subst g; split; reflexivity.
  - intros H. rewrite !orb_false_r in *.
    apply orb_prop in H. destruct H as [H | H];
      apply String.eqb_eq in H; subst g; reflexivity.
Qed.

Lemma counts_within (l : list Recommendation) :
  count (graded buy_grades) l + count (graded hold_grades) l
  + count (graded sell_grades) l <= Z.of_nat (List.length l).
Proof.
  unfold count. induction l as [| r l IH]; [simpl; lia |].
  destruct (grades_exclusive r) as (Hb & Hh).
  cbn [filter].
  destruct (graded buy_grades r) eqn:Eb.
  - destruct (Hb eq_refl) as (-> & ->). cbn [List.length]. lia.
  - destruct (graded hold_grades r) eqn:Eh.
    + rewrite (Hh eq_refl). cbn [List.length]. lia.
    + destruct (graded sell_grades r); cbn [List.length]; lia.
Qed.

Lemma recent_of_length (n : nat) (l : list Recommendation) :
  List.length (recent_of n l) = Nat.min n (List.length l).
Proof.
  unfold recent_of. destruct (Nat.leb_spec n (List.length l)).
  - rewrite length_skipn. lia.
  - lia.
Qed.

Lemma recent_of_older (n : nat) (older recent : list Recommendation) :
  List.length recent = n -> recent_of n (older ++ recent) = recent.
Proof.
  intros H. unfold recent_of.
  destruct (Nat.leb_spec n (List.length (older ++ recent))) as [_ | Hlt].
  - now apply skipn_older.
  - rewrite length_app in Hlt. lia.
Qed.

(** X17.  [get_market_sentiment] counts the news items; without
    recommendations the summary is empty; with recommendations it
    tallies the last ten of them: total is the smaller of their number
    and 10, the buy, hold and sell counts are not negative and together
    never exceed the total, since no grade counts twice; older records
    in front of ten records change nothing. *)
Theorem market_sentiment_tally :
  forall (news : list NewsItem) (recommendations : list Recommendation),
    news_count (get_market_sentiment news recommendations)
    = Z.of_nat (List.length news)
    /\ (recommendations = [] ->
        recommendation_summary (get_market_sentiment news recommendations)
        = None)
    /\ (recommendations <> [] ->
        exists t : Tally,
          recommendation_summary (get_market_sentiment news recommendations)
          = Some t
          /\ n_total t = Z.min (Z.of_nat (List.length recommendations)) 10
          /\ 0 <= n_buy t /\ 0 <= n_hold t /\ 0 <= n_sell t
          /\ n_buy t + n_hold t + n_sell t <= n_total t)
    /\ (forall older : list Recommendation,
           List.length recommendations = 10%nat ->
           get_market_sentiment news (older ++ recommendations)
           = get_market_sentiment news recommendations).
Proof.
  intros news recs. split; [| split; [| split]].
  - unfold get_market_sentiment. simpl. destruct news; reflexivity.
  - intros ->. reflexivity.
  - intros Hne. destruct recs as [| r recs']; [congruence |].
    eexists. split; [reflexivity |]. cbn [n_total n_buy n_hold n_sell].
    split; [rewrite recent_of_length; lia |].
    repeat (split; [apply count_nonneg |]).
    apply counts_within.
  - intros older H10. unfold get_market_sentiment. f_equal.
    destruct recs as [| r recs']; [discriminate H10 |].
    destruct (older ++ r :: recs')%list as [| x rest] eqn:E.
    { now apply app_eq_nil in E. }
    rewrite <- E, (recent_of_older older (r :: recs') H10).
    pose proof (recent_of_older [] (r :: recs') H10) as E0.
    cbn [app] in E0. rewrite E0. reflexivity.
Qed.

End Tally.

Section Labels.

Local Open Scope string_scope.

Lemma to_uint_nonnil (n : N) : N.to_uint n <> Decimal.Nil.
Proof.
  destruct n as [| p]; [discriminate |].
  apply DecimalPos.Unsigned.to_uint_nonnil.
Qed.

Lemma string_of_N_inj (n m : N) : string_of_N n = string_of_N m -> n = m.
Proof.
  unfold string_of_N. intros H.
  apply DecimalN.Unsigned.to_uint_inj.
  assert (E : Some (N.to_uint n) = Some (N.to_uint m)).
  { rewrite <- (@NilZero.usu _ (to_uint_nonnil n)),
            <- (@NilZero.usu _ (to_uint_nonnil m)).
    now rewrite H. }
  now injection E.
Qed.

Lemma string_of_N_no_sign (n : N) (s : string) :
  string_of_N n <> String "-" s.
Proof.
  unfold string_of_N. intros H.
  pose proof (@NilZero.usu _ (to_uint_nonnil n)) as E. rewrite H in E.
  simpl in E. destruct (NilEmpty.uint_of_string s); discriminate E.
Qed.

Lemma string_of_Z_inj (a b : Z) : string_of_Z a = string_of_Z b -> a = b.
Proof.
  assert (Hpos : forall z, 0 <= z -> string_of_Z z = string_of_N (Z.to_N z)).
  { intros [| p | p] Hz; try reflexivity. lia. }
  destruct (Z.neg_nonneg_cases a) as [Ha | Ha];
    destruct (Z.neg_nonneg_cases b) as [Hb | Hb].
  - destruct a as [| p | p]; try lia. destruct b as [| q | q]; try lia.
    simpl. intros H. injection H as H. apply string_of_N_inj in H. congruence.
  - destruct a as [| p | p]; try lia. rewrite (Hpos b Hb). simpl.
    intros H. symmetry in H. now apply string_of_N_no_sign in H.
  - destruct b as [| q | q]; try lia. rewrite (Hpos a Ha). simpl.
    intros H. now apply string_of_N_no_sign in H.
  - rewrite (Hpos a Ha), (Hpos b Hb). intros H.
    apply string_of_N_inj in H. lia.
Qed.

Lemma append_inj_l (s t u : string) : s ++ u = t ++ u -> s = t.
Proof.
  assert (Hlen : forall a b : string,
             String.length (a ++ b) = (String.length a + String.length b)%nat).
  { induction a as [| c a IH]; intros b; simpl; [reflexivity | now rewrite IH]. }
  revert t. induction s as [| c s IH]; intros [| d t] H; simpl in H.
  - reflexivity.
  - apply (f_equal String.length) in H. simpl in H. rewrite Hlen in H. lia.
  - apply (f_equal String.length) in H. simpl in H. rewrite Hlen in H. lia.
  - injection H as -> H. f_equal. now apply IH.
Qed.

Lemma period_label_inj (p q : Z) : period_label p = period_label q -> p = q.
Proof.
  unfold period_label. intros H. apply append_inj_l in H.
  now apply string_of_Z_inj.
Qed.

Lemma dict_get_set_same (k : string) (v : num) (d : list (string * num)) :
  dict_get k (dict_set k v d) = Some v.
Proof.
  induction d as [| [k' v'] rest IH]; simpl.
  - now rewrite String.eqb_refl.
  - destruct (String.eqb_spec k' k) as [-> | Hne]; simpl.
    + now rewrite String.eqb_refl.
    + destruct (String.eqb_spec k' k); [congruence | exact IH].
Qed.

Lemma dict_get_set_other (k k' : string) (v : num) (d : list (string * num)) :
  k' <> k -> dict_get k' (dict_set k v d) = dict_get k' d.
Proof.
  intros Hne. induction d as [| [k0 v0] rest IH]; simpl.
  - destruct (String.eqb_spec k k'); [congruence | reflexivity].
  - destruct (String.eqb_spec k0 k) as [-> | Hk0]; simpl.
    + destruct (String.eqb_spec k k'); [congruence | reflexivity].
    + destruct (String.eqb_spec k0 k'); [reflexivity | exact IH].
Qed.

End Labels.

Section MomentumTable.

Local Open Scope string_scope.

Variables (close : Series) (price : num).
Hypothesis last_close : iloc close (-1) = Ok price.

(** The close [p] rows before the last one. *)
Lemma past_close (p : Z) :
  0 <= p < Z.of_nat (List.length close) ->
  exists past,
    iloc close (- p - 1) = Ok past
    /\ nth_error close (List.length close - 1 - Z.to_nat p) = Some past.
Proof.
  intros Hp. destruct (@iloc_back_ok close (p + 1)) as (x & E & Hn); [lia |].
  exists x. replace (- p - 1) with (- (p + 1)) by lia. split; [exact E |].
  replace (List.length close - 1 - Z.to_nat p)%nat
    with (Z.to_nat (Z.of_nat (List.length close) - (p + 1))) by lia.
  exact Hn.
Qed.

Lemma momentum_loop_spec (periods : list Z) :
  Forall (fun p => 0 <= p) periods ->
  forall acc : list (string * num),
  exists d : list (string * num),
    momentum_loop close (List.length close) price periods acc = Ok d
    /\ (forall p past,
           In p periods -> p < Z.of_nat (List.length close) ->
           iloc close (- p - 1) = Ok past ->
           dict_get (period_label p) d
           = Some ((price / past - Fin 1) * Fin 100)%num)
    /\ (forall k,
           (forall p, In p periods -> p < Z.of_nat (List.length close) ->
                      period_label p <> k) ->
           dict_get k d = dict_get k acc).
Proof.
  induction 1 as [| period rest Hperiod Hrest IH]; intros acc.
  - exists acc. split; [reflexivity |]. split; [contradiction | reflexivity].
  - cbn [momentum_loop].
    destruct (Z.ltb_spec period (Z.of_nat (List.length close))) as [Hlt | Hge].
    + destruct (@past_close period ltac:(lia)) as (past0 & Epast & _).
      rewrite Epast. cbn [bind].
      set (acc' := dict_set (period_label period)
                            ((price / past0 - Fin 1) * Fin 100)%num acc).
      destruct (IH acc') as (d & Ed & Hin & Hout).
      exists d. split; [exact Ed |]. split.
      * intros p past [<- | Hp] Hplt Ep.
        -- destruct (in_dec Z.eq_dec period rest) as [Hdup | Hnew].
           ++ now apply Hin.
           ++ rewrite Hout.
              ** unfold acc'. rewrite dict_get_set_same.
                 rewrite Epast in Ep. now injection Ep as <-.
              ** intros p' Hp' _ E. apply period_label_inj in E. congruence.
        -- now apply Hin.
      * intros k Hk. rewrite Hout.
        -- unfold acc'. apply dict_get_set_other.
           intros E. apply (Hk period); [now left | exact Hlt | now symmetry].
        -- intros p Hp Hplt. apply Hk; [now right | exact Hplt].
    + destruct (IH acc) as (d & Ed & Hin & Hout).
      exists d. split; [exact Ed |]. split.
      * intros p past [<- | Hp] Hplt Ep; [lia | now apply Hin].
      * intros k Hk. apply Hout. intros p Hp Hplt.
        apply Hk; [now right | exact Hplt].
Qed.

Lemma calculate_momentum_last (p : Z) (past : num) :
  0 <= p < Z.of_nat (List.length close) ->
  iloc close (- p - 1) = Ok past ->
  iloc (calculate_momentum close p) (-1)
  = Ok ((price / past - Fin 1) * Fin 100)%num.
Proof.
  intros Hp Epast.
  destruct (@past_close p Hp) as (past' & E' & Hn).
  rewrite E' in Epast. injection Epast as ->.
  destruct (@iloc_back_ok close 1) as (x & Ex & Hx); [lia |].
  change (- (1)) with (-1) in Ex. rewrite last_close in Ex. injection Ex as <-.
  destruct (@iloc_back_ok (calculate_momentum close p) 1) as (m & Em & Hm).
  { rewrite length_calculate_momentum. lia. }
  change (- (1)) with (-1) in Em. rewrite Em. f_equal.
  rewrite length_calculate_momentum in Hm.
  unfold calculate_momentum in Hm.
  rewrite nth_error_map, nth_error_map2, Hx in Hm.
  rewrite nth_error_shift in Hm by lia.
  destruct (Nat.ltb_spec (Z.to_nat (Z.of_nat (List.length close) - 1))
                         (Z.to_nat p)); [lia |].
  replace (Z.to_nat (Z.of_nat (List.length close) - 1) - Z.to_nat p)%nat
    with (List.length close - 1 - Z.to_nat p)%nat in Hm by lia.
  rewrite Hn in Hm. simpl in Hm. now injection Hm as <-.
Qed.

End MomentumTable.

Section PriceMomentum.

Local Open Scope string_scope.

Variable price_data : DataFrame.
Hypothesis frame_ok : well_formed price_data.
Hypothesis not_empty : df_empty price_data = false.
Hypothesis has_close : has_column "Close" price_data = true.

(** X18.  On a well-formed, non-empty frame with a Close column and
    for horizons that are not negative, [get_price_momentum] raises
    nothing; its table has an entry "<p>d" exactly for the horizons p
    smaller than the number of rows, and that entry is
    (last close / close p rows earlier - 1) * 100.  On an empty frame
    or one without a Close column the table is empty. *)
Theorem price_momentum_table :
  (forall (periods : list Z),
      Forall (fun p => 0 <= p) periods ->
      exists (close : Series) (price : num) (table : list (string * num)),
        column "Close" price_data = Ok close
        /\ iloc close (-1) = Ok price
        /\ get_price_momentum price_data periods = Ok table
        /\ (forall p past,
               In p periods -> p < Z.of_nat (index_len price_data) ->
               iloc close (- p - 1) = Ok past ->
               dict_get (period_label p) table
               = Some ((price / past - Fin 1) * Fin 100)%num)
        /\ (forall k,
               dict_get k table <> None ->
               exists p, In p periods /\ p < Z.of_nat (index_len price_data)
                         /\ k = period_label p))
  /\ (forall (other : DataFrame) (periods : list Z),
         df_empty other = true \/ has_column "Close" other = false ->
         get_price_momentum other periods = Ok []).
Proof.
  split.
  - intros periods Hpos.
    destruct (has_column_ok price_data "Close" has_close) as (close & Ec).
    pose proof (column_length frame_ok "Close" Ec) as Hlen.
    pose proof (@has_rows price_data not_empty) as Hrows.
    destruct (@iloc_last_ok close) as (price & Eprice); [lia |].
    destruct (@momentum_loop_spec close price periods Hpos [])
      as (table & Et & Hin & Hout).
    exists close, price, table.
    split; [exact Ec |]. split; [exact Eprice |]. split.
    { unfold get_price_momentum. rewrite not_empty, has_close. cbn [negb orb].
      rewrite Ec. cbn [bind]. rewrite Eprice. cbn [bind].
      unfold df_len. rewrite <- Hlen. exact Et. }
    rewrite <- Hlen. split; [exact Hin |].
    intros k Hk.
    assert (Hdec : forall l : list Z,
               (exists p, In p l /\ p < Z.of_nat (List.length close)
                          /\ k = period_label p)
               \/ (forall p, In p l -> p < Z.of_nat (List.length close) ->
                             period_label p <> k)).
    { induction l as [| q l [IHl | IHl]].
      - right. intros p [].
      - left. destruct IHl as (p & Hp & H). exists p. split; [now right | exact H].
      - destruct (Z.ltb_spec q (Z.of_nat (List.length close))) as [Hq | Hq].
        + destruct (string_dec (period_label q) k) as [E | E].
          * left. exists q. split; [now left |]. split; [exact Hq | now symmetry].
          * right. intros p [<- | Hp] Hplt; [exact E | now apply IHl].
        + right. intros p [<- | Hp] Hplt; [lia | now apply IHl]. }
    destruct (Hdec periods) as [H | H]; [exact H |].
    exfalso. apply Hk. now rewrite (Hout k H).
  - intros other periods H. unfold get_price_momentum.
    destruct H as [-> | ->]; [| rewrite orb_true_r]; reflexivity.
Qed.

(** X19.  The momentum of a horizon in that table is the latest value
    of the momentum indicator with the horizon as its window: for
    0 <= p < rows, [get_price_momentum] of the single horizon p holds
    under "<p>d" the last entry of [calculate_momentum] of the closes
    and p. *)
Theorem price_momentum_is_latest_momentum :
  forall (close : Series) (p : Z),
    column "Close" price_data = Ok close ->
    0 <= p < Z.of_nat (index_len price_data) ->
    exists m : num,
      get_price_momentum price_data [p] = Ok [(period_label p, m)]
      /\ iloc (calculate_momentum close p) (-1) = Ok m.
Proof.
  intros close p Ec Hp.
  pose proof (column_length frame_ok "Close" Ec) as Hlen.
  destruct (@iloc_last_ok close) as (price & Eprice); [lia |].
  destruct (@past_close close p ltac:(lia)) as (past & Epast & _).
  exists ((price / past - Fin 1) * Fin 100)%num. split.
  - unfold get_price_momentum. rewrite not_empty, has_close. cbn [negb orb].
    rewrite Ec. cbn [bind]. rewrite Eprice. cbn [bind momentum_loop].
    unfold df_len.
    destruct (Z.ltb_spec p (Z.of_nat (index_len price_data))); [| lia].
    rewrite Epast. reflexivity.
  - apply calculate_momentum_last; [exact Eprice | lia | exact Epast].
Qed.

End PriceMomentum.

(** ** X20, X21: the trend summary *)

Section TrendSummary.

Local Open Scope string_scope.

Lemma say_length (sentence : string) (parts : list string) :
  List.length (say sentence parts) = S (List.length parts).
Proof. unfold say. rewrite length_app. simpl. lia. Qed.

Ltac one_more :=
  repeat match goal with
         | |- context [if ?c then _ else _] => destruct c
         end;
  rewrite ?say_length; lia.

Lemma rsi_part_length l parts :
  (List.length (rsi_part l parts) <= S (List.length parts))%nat.
Proof. unfold rsi_part. destruct (rsi l); [one_more | lia]. Qed.

Lemma averages_part_length l parts :
  (List.length (averages_part l parts) <= S (List.length parts))%nat.
Proof.
  unfold averages_part.
  destruct (sma_20 l); [| lia]. destruct (sma_50 l); [| lia].
  destruct (sma_200 l); [one_more | lia].
Qed.

Lemma momentum_part_length l parts :
  (List.length (momentum_part l parts) <= S (List.length parts))%nat.
Proof. unfold momentum_part. destruct (momentum l); [one_more | lia]. Qed.

Lemma volatility_part_length l parts :
  (List.length (volatility_part l parts) <= S (List.length parts))%nat.
Proof. unfold volatility_part. destruct (volatility l); [one_more | lia]. Qed.

Lemma analysts_part_length recs parts :
  (List.length (analysts_part recs parts) <= S (List.length parts))%nat.
Proof. unfold analysts_part. destruct recs; [lia | one_more]. Qed.

Lemma news_part_length news parts :
  (List.length (news_part news parts) <= S (List.length parts))%nat.
Proof. unfold news_part. destruct news; [lia | rewrite say_length; lia]. Qed.

Lemma info_part_length info parts :
  (List.length (info_part info parts) <= S (List.length parts))%nat.
Proof.
  unfold info_part. destruct info as [i |]; [| lia].
  destruct (info_sector i) as [[| c s] |]; rewrite ?say_length; lia.
Qed.

Lemma price_change_part_length ticker l pd parts parts' :
  price_change_part ticker l pd parts = Ok parts' ->
  (List.length parts' <= S (List.length parts))%nat.
Proof.
  unfold price_change_part.
  destruct (2 <=? df_len pd)%nat; [| intros E; injection E as <-; lia].
  intros H. apply bind_ok in H. destruct H as (close & _ & H).
  apply bind_ok in H. destruct H as (prev & _ & H). revert H.
  repeat match goal with
         | |- context [if ?c then _ else _] => destruct c
         end; intros E; injection E as <-; rewrite ?say_length; lia.
Qed.

Lemma volume_part_length series pd parts parts' :
  volume_part series pd parts = Ok parts' ->
  (List.length parts' <= S (List.length parts))%nat.
Proof.
  unfold volume_part.
  destruct (s_volume_avg series) as [va |];
    [| intros E; injection E as <-; lia].
  destruct (negb (empty va) && has_column "Volume" pd);
    [| intros E; injection E as <-; lia].
  intros H. apply bind_ok in H. destruct H as (v & _ & H).
  apply bind_ok in H. destruct H as (cur & _ & H).
  apply bind_ok in H. destruct H as (avg & _ & H). revert H.
  repeat match goal with
         | |- context [if ?c then _ else _] => destruct c
         end; intros E; injection E as <-; rewrite ?say_length; lia.
Qed.

(** X20.  Without a true success flag, or on an empty frame,
    [generate_trend_summary] returns the sentence "Insufficient data to
    generate trend summary for <ticker>." whatever its other arguments
    are.  With the success flag, on a frame of at least two rows that
    has columns but no Close column, it raises KeyError. *)
Theorem trend_summary_failures :
  (forall (ticker : string) (ind : IndicatorDict) (price_data : DataFrame)
          (recommendations : list Recommendation) (news : list NewsItem)
          (info : option Info),
      succeeded ind = false \/ df_empty price_data = true ->
      generate_trend_summary ticker ind price_data recommendations news info
      = Ok ("Insufficient data to generate trend summary for "
            ++ ticker ++ "."))
  /\ (forall (ticker : string) (ind : IndicatorDict) (price_data : DataFrame)
             (recommendations : list Recommendation) (news : list NewsItem)
             (info : option Info),
         succeeded ind = true ->
         df_empty price_data = false ->
         (2 <= index_len price_data)%nat ->
         has_column "Close" price_data = false ->
         generate_trend_summary ticker ind price_data recommendations news info
         = Raise KeyError).
Proof.
  split.
  - intros ticker ind pd recs news info H. unfold generate_trend_summary.
    destruct H as [-> | ->]; [| rewrite orb_true_r]; reflexivity.
  - intros ticker ind pd recs news info Hs Hne Hrows Hnc.
    unfold generate_trend_summary. rewrite Hs, Hne. cbn [negb orb].
    unfold summary_parts, price_change_part, df_len.
    apply Nat.leb_le in Hrows. rewrite Hrows.
    unfold column. unfold has_column in Hnc.
    destruct (lookup "Close" (columns pd)); [discriminate | reflexivity].
Qed.

Variable price_data : DataFrame.
Hypothesis frame_ok : well_formed price_data.
Hypothesis not_empty : df_empty price_data = false.
Hypothesis has_close : has_column "Close" price_data = true.

Lemma price_change_part_total ticker l parts :
  exists parts', price_change_part ticker l price_data parts = Ok parts'.
Proof.
  unfold price_change_part.
  destruct (Nat.leb_spec 2 (df_len price_data)) as [Hrows | _];
    [| eexists; reflexivity].
  destruct (has_column_ok price_data "Close" has_close) as (close & Ec).
  pose proof (column_length frame_ok "Close" Ec) as Hlen.
  rewrite Ec. cbn [bind].
  destruct (@iloc_back_ok close 2) as (prev & Eprev & _);
    [unfold df_len in Hrows; lia |].
  change (- (2)) with (-2) in Eprev. rewrite Eprev. cbn [bind].
  repeat match goal with
         | |- context [if ?c then _ else _] => destruct c
         end; eexists; reflexivity.
Qed.

Lemma volume_part_total series parts :
  exists parts', volume_part series price_data parts = Ok parts'.
Proof.
  unfold volume_part.
  destruct (s_volume_avg series) as [va |]; [| eexists; reflexivity].
  destruct va as [| a va']; [eexists; reflexivity |].
  cbn [empty negb andb].
  destruct (has_column "Volume" price_data) eqn:Hv; [| eexists; reflexivity].
  destruct (has_column_ok price_data "Volume" Hv) as (vol & Evol).
  rewrite Evol. cbn [bind].
  pose proof (column_length frame_ok "Volume" Evol) as Hc.
  pose proof (@has_rows price_data not_empty) as Hrows.
  destruct (@iloc_last_ok vol) as (cur & Ecur); [lia |].
  destruct (@iloc_last_ok (a :: va')) as (avg & Eavg); [simpl; lia |].
  rewrite Ecur, Eavg. cbn [bind].
  repeat match goal with
         | |- context [if ?c then _ else _] => destruct c
         end; eexists; reflexivity.
Qed.

(** X21.  On a well-formed, non-empty frame with a Close column and
    with the success flag, [generate_trend_summary] raises nothing: it
    gathers at most nine sentences and returns them joined by blanks,
    or "<ticker> shows mixed signals with no clear trend direction."
    when there is none. *)
Theorem trend_summary_on_frames :
  forall (ticker : string) (ind : IndicatorDict)
         (recommendations : list Recommendation) (news : list NewsItem)
         (info : option Info),
    succeeded ind = true ->
    exists parts : list string,
      summary_parts ticker ind price_data recommendations news info = Ok parts
      /\ (List.length parts <= 9)%nat
      /\ generate_trend_summary ticker ind price_data recommendations news info
         = Ok (match parts with
               | [] => ticker ++ " shows mixed signals with no clear trend direction."
               | _ :: _ => join " " parts
               end).
Proof.
  intros ticker ind recs news info Hs.
  unfold generate_trend_summary. rewrite Hs, not_empty. cbn [negb orb].
  unfold summary_parts.
  destruct (price_change_part_total ticker (get_latest ind) []) as (p1 & E1).
  rewrite E1. cbn [bind].
  destruct (volume_part_total (get_series ind)
              (volatility_part (get_latest ind)
                 (momentum_part (get_latest ind)
                    (averages_part (get_latest ind)
                       (rsi_part (get_latest ind) p1)))))
    as (p2 & E2).
  rewrite E2. cbn [bind].
  eexists. split; [reflexivity |]. split; [| reflexivity].
  pose proof (price_change_part_length _ _ _ _ E1) as L1.
  pose proof (volume_part_length _ _ _ E2) as L2.
  pose proof (rsi_part_length (get_latest ind) p1).
  pose proof (averages_part_length (get_latest ind)
                (rsi_part (get_latest ind) p1)).
  pose proof (momentum_part_length (get_latest ind)
                (averages_part (get_latest ind) (rsi_part (get_latest ind) p1))).
  pose proof (volatility_part_length (get_latest ind)
                (momentum_part (get_latest ind)
                   (averages_part (get_latest ind)
                      (rsi_part (get_latest ind) p1)))).
  pose proof (analysts_part_length recs p2).
  pose proof (news_part_length news (analysts_part recs p2)).
  pose proof (info_part_length info (news_part news (analysts_part recs p2))).
  simpl in L1. lia.
Qed.

End TrendSummary.

(** ** The further properties at sample inputs *)

Section FurtherWitnesses.

Import Samples.
Local Open Scope string_scope.

Lemma frame_well_formed : well_formed frame.
Proof. unfold well_formed, frame. simpl. repeat constructor. Qed.

Lemma no_volatility_aligned :
  forall (s : Series) (w : Z),
    List.length ((fun (s0 : Series) (_ : Z) => map (fun _ => NaN) s0) s w)
    = List.length s.
Proof. intros s w. apply length_map. Qed.

(** X1 on the query "AAPL". *)
Lemma search_hits_are_entries_witness :
  In {| ticker := "AAPL"; name := "Apple Inc."; sector := "Technology";
        match_type := "ticker_exact" |} (search_stocks "AAPL" 20)
  /\ In ("AAPL", ("Apple Inc.", "Technology")) POPULAR_STOCKS.
Proof.
  assert (Hin : In {| ticker := "AAPL"; name := "Apple Inc.";
                      sector := "Technology"; match_type := "ticker_exact" |}
                   (search_stocks "AAPL" 20))
    by (vm_compute; left; reflexivity).
  split; [exact Hin |].
  exact (proj1 (search_hits_are_entries "AAPL" 20 _ Hin)).
Defined.

(** X3 on the query "apple" with the limit 57. *)
Lemma search_finds_every_match_witness :
  exists h, In h (search_stocks "apple" 57) /\ ticker h = "AAPL".
Proof.
  assert (Hq : "apple" <> EmptyString) by discriminate.
  assert (Hl : Z.of_nat (List.length POPULAR_STOCKS) <= 57)
    by (vm_compute; discriminate).
  assert (Hin : In ("AAPL", ("Apple Inc.", "Technology")) POPULAR_STOCKS)
    by (left; reflexivity).
  destruct (@search_finds_every_match "apple" 57 "AAPL" "Apple Inc."
              "Technology" Hq Hl Hin (or_intror eq_refl))
    as (h & Hh & Ht & _).
  exists h. split; assumption.
Defined.

(** X4 on the query "AAPL". *)
Lemma display_name_of_hits_witness :
  get_stock_display_name "AAPL" = "AAPL - Apple Inc.".
Proof.
  assert (Hin : In {| ticker := "AAPL"; name := "Apple Inc.";
                      sector := "Technology"; match_type := "ticker_exact" |}
                   (search_stocks "AAPL" 20))
    by (vm_compute; left; reflexivity).
  exact (proj2 (proj1 display_name_of_hits "AAPL" 20 _ Hin)).
Defined.

(** X6 on the crossing sample: scores 4 and 1. *)
Lemma short_term_scores_bounded_witness :
  exists st,
    short_term_scores crossing frame = Ok st
    /\ 0 <= buy_score st <= 5 /\ 0 <= sell_score st <= 5.
Proof.
  destruct (short_term_scores crossing frame) as [st | e] eqn:E;
    [| vm_compute in E; discriminate E].
  exists st. split; [reflexivity |].
  destruct (short_term_scores_bounded crossing frame E) as (Hb & Hs & _).
  split; assumption.
Defined.

(** X7 on the crossing sample with one upgrade: scores 7 and 2. *)
Lemma long_term_scores_bounded_witness :
  exists st,
    long_term_scores crossing [upgrade] = Ok st
    /\ 0 <= buy_score st <= 9 /\ 0 <= sell_score st <= 8.
Proof.
  destruct (long_term_scores crossing [upgrade]) as [st | e] eqn:E;
    [| vm_compute in E; discriminate E].
  exists st. split; [reflexivity |].
  destruct (long_term_scores_bounded crossing [upgrade] E) as (Hb & Hs & _).
  split; assumption.
Defined.

(** X8: a sixth, older record in front of five. *)
Lemma long_term_uses_last_five_witness :
  generate_long_term_signal crossing frame
    ([upgrade] ++ [upgrade; upgrade; upgrade; upgrade; upgrade])
  = generate_long_term_signal crossing frame
      [upgrade; upgrade; upgrade; upgrade; upgrade].
Proof.
  apply (@long_term_uses_last_five crossing frame [upgrade]
           [upgrade; upgrade; upgrade; upgrade; upgrade]).
  reflexivity.
Defined.

(** X9 on the prices 1, missing, 4, 5 and the window 2. *)
Lemma sma_aligned_warmup_witness :
  exists out : Series,
    calculate_sma [Fin 1; NaN; Fin 4; Fin 5] 2 = Ok out
    /\ List.length out = 4%nat
    /\ nth_error out 0 = Some NaN
    /\ nth_error out 2 = Some NaN.
Proof.
  destruct (proj2 (sma_aligned_warmup [Fin 1; NaN; Fin 4; Fin 5] 2))
    as (out & E & Hlen & Hwarm & Hgap); [lia |].
  exists out. split; [exact E |]. split; [exact Hlen |]. split.
  - apply Hwarm; simpl; lia.
  - apply (Hgap 2%nat 1%nat); [simpl; lia | lia | lia | reflexivity].
Defined.

(** X10 on the prices 100, 90 and the span 20. *)
Lemma ema_within_price_range_witness :
  exists out : Series,
    calculate_ema [Fin 100; Fin 90] 20 = Ok out
    /\ Forall (in_range 90 100) out.
Proof.
  destruct (proj2 (ema_within_price_range [Fin 100; Fin 90] 20))
    as (out & E & _ & Hrange); [lia |].
  exists out. split; [exact E |].
  apply Hrange.
  apply Forall_cons; [| apply Forall_cons; [| apply Forall_nil]];
    eexists; (split; [reflexivity |]); split; discriminate.
Defined.

(** X11 on the prices 1, 2, 4, the window 1 and the second position:
    (2 / 1 - 1) * 100. *)
Lemma momentum_values_witness :
  nth_error (calculate_momentum [Fin 1; Fin 2; Fin 4] 1) 1
  = Some ((Fin 2 / Fin 1 - Fin 1) * Fin 100)%num.
Proof.
  assert (H0 : 0 <= 1) by lia.
  destruct (@momentum_values [Fin 1; Fin 2; Fin 4] 1 1%nat (Fin 2) H0 eq_refl)
    as (_ & _ & Hval).
  apply Hval; [simpl; lia | reflexivity].
Defined.

(** X12 on three prices and the window 3. *)
Lemma rsi_aligned_warmup_witness :
  exists out : Series,
    calculate_rsi [Fin 3; Fin 2; Fin 1] 3 = Ok out
    /\ List.length out = 3%nat
    /\ nth_error out 1 = Some NaN.
Proof.
  destruct (proj2 (rsi_aligned_warmup [Fin 3; Fin 2; Fin 1] 3))
    as (out & E & Hlen & Hwarm); [lia |].
  exists out. split; [exact E |]. split; [exact Hlen |].
  apply Hwarm; simpl; lia.
Defined.


(** X14 on the three-row sample frame. *)
Lemma all_indicators_aligned_witness :
  exists (d : IndicatorDict) (series : IndicatorSeries),
    calculate_all_indicators (fun s _ => map (fun _ => NaN) s) frame = Ok d
    /\ indicators d = Some series
    /\ Forall (aligned 3) (all_series series).
Proof.
  destruct (@all_indicators_aligned (fun s _ => map (fun _ => NaN) s)
              no_volatility_aligned frame frame_well_formed eq_refl eq_refl)
    as (d & series & l & close & price & E & _ & _ & Hs & _ & _ & _ & _ & Ha & _).
  exists d, series. split; [exact E |]. split; [exact Hs | exact Ha].
Defined.

(** X15 on the three-row sample frame. *)
Lemma short_history_holds_witness :
  exists d : IndicatorDict,
    calculate_all_indicators (fun s _ => map (fun _ => NaN) s) frame = Ok d
    /\ generate_short_term_signal d frame
       = Ok ("HOLD", "Neutral technical indicators").
Proof.
  assert (Hrows : (index_len frame <= 10)%nat) by (simpl; lia).
  destruct (@short_history_holds (fun s _ => map (fun _ => NaN) s)
              no_volatility_aligned frame frame_well_formed eq_refl eq_refl
              Hrows)
    as (d & E & Hshort & _).
  exists d. split; assumption.
Defined.

(** X16 on the three-row sample frame. *)
Lemma price_trend_of_closes_witness :
  get_price_trend frame [NaN; NaN; NaN] [NaN; NaN; NaN] = Ok "Neutral".
Proof.
  assert (Hrows : (index_len frame < 50)%nat) by (simpl; lia).
  destruct (proj1 (@price_trend_of_closes frame frame_well_formed eq_refl)
              [Fin 100; Fin 90; Fin 105] [NaN; NaN; NaN] [NaN; NaN; NaN]
              eq_refl eq_refl eq_refl) as (_ & H).
  exact (H Hrows).
Defined.

(** X17 on one recommendation. *)
Lemma market_sentiment_tally_witness :
  exists t : Tally,
    recommendation_summary (get_market_sentiment [] [upgrade]) = Some t
    /\ n_buy t + n_hold t + n_sell t <= n_total t.
Proof.
  destruct (market_sentiment_tally [] [upgrade]) as (_ & _ & H & _).
  destruct H as (t & E & _ & _ & _ & _ & Hsum); [discriminate |].
  exists t. split; assumption.
Defined.

(** X18 on the three-row sample frame and the horizons 1, 2, 5. *)
Lemma price_momentum_table_witness :
  exists table : list (string * num),
    get_price_momentum frame [1; 2; 5] = Ok table
    /\ dict_get "2d" table = Some ((Fin 105 / Fin 100 - Fin 1) * Fin 100)%num.
Proof.
  assert (Hpos : Forall (fun p => 0 <= p) [1; 2; 5])
    by (repeat constructor; lia).
  destruct (proj1 (@price_momentum_table frame frame_well_formed eq_refl eq_refl)
              [1; 2; 5] Hpos)
    as (close & price & table & Ec & Ep & Et & Hin & _).
  exists table. split; [exact Et |].
  injection Ec as <-. injection Ep as <-.
  apply (Hin 2 (Fin 100)); [right; left; reflexivity | simpl; lia | reflexivity].
Defined.

(** X19 on the three-row sample frame and the horizon 2. *)
Lemma price_momentum_is_latest_momentum_witness :
  exists m : num,
    get_price_momentum frame [2] = Ok [("2d", m)]
    /\ iloc (calculate_momentum [Fin 100; Fin 90; Fin 105] 2) (-1) = Ok m.
Proof.
  assert (Hp : 0 <= 2 < Z.of_nat (index_len frame)) by (simpl; lia).
  exact (@price_momentum_is_latest_momentum frame frame_well_formed
           eq_refl eq_refl [Fin 100; Fin 90; Fin 105] 2 eq_refl Hp).
Defined.

(** X20 on a dictionary without success flag, and on the frame without
    columns. *)
Lemma trend_summary_failures_witness :
  generate_trend_summary "AAPL" unflagged frame [] [] None
  = Ok "Insufficient data to generate trend summary for AAPL."
  /\ generate_trend_summary "AAPL" crossing
       {| index_len := 2; columns := [("Open", [Fin 1; Fin 2])] |} [] [] None
     = Raise KeyError.
Proof.
  destruct trend_summary_failures as (Hfail & Hraise).
  split.
  - apply (Hfail "AAPL" unflagged frame [] [] None). left. reflexivity.
  - apply (Hraise "AAPL" crossing); reflexivity.
Defined.

(** X21 on the crossing sample. *)
Lemma trend_summary_on_frames_witness :
  exists parts : list string,
    summary_parts "AAPL" crossing frame [upgrade] [] None = Ok parts
    /\ (List.length parts <= 9)%nat.
Proof.
  destruct (@trend_summary_on_frames frame frame_well_formed eq_refl eq_refl
              "AAPL" crossing [upgrade] [] None eq_refl)
    as (parts & E & Hlen & _).
  exists parts. split; assumption.
Defined.

End FurtherWitnesses.
